(** * The display engine of lighthouse ([src/display.c])

    A shallow embedding of the drawing code: the geometry of a row, the
    scroll window of [draw_result_text], the modifiers of [draw_text], the
    image fitting of [get_new_size] and [draw_png], the run loops of
    [draw_line] and [draw_desc] over a caller-owned text buffer, and the
    order of the paints of [redraw_all].

    Unsigned 32-bit integers are [Z] with the wrap-around written out,
    single-precision floats are [spec_float] at precision 24, with their
    values read in the reals, the text buffer is a [list Z] of bytes
    addressed by index, and the calls into cairo, pango, gdk, xcb and libc
    are either recorded as operations or answered by a [backend] record. *)

From Stdlib Require Import ZArith Lia List Bool SpecFloat Reals Lra.
From stdpp Require Import base list.

Local Open Scope Z_scope.

(** ** Machine integers *)

Module U32.
Definition modulus : Z := 2 ^ 32.
Definition wrap (z : Z) : Z := z mod modulus.
Definition in_range (z : Z) : Prop := 0 <= z < modulus.
Definition add (a b : Z) : Z := wrap (a + b).
Definition sub (a b : Z) : Z := wrap (a - b).
Definition mul (a b : Z) : Z := wrap (a * b).
End U32.

(** [#define min(a,b) ((a) < (b) ? (a) : (b))] *)
Definition cmin (a b : Z) : Z := if a <? b then a else b.

(** ** Outcomes

    [Fault] stands for behaviour that C leaves undefined (a division by
    zero, an access outside the text buffer, a float that does not fit the
    integer it is converted to, [fgetc] on a null stream); [Timeout] is
    the end of the fuel of a loop. *)

Inductive outcome (A : Type) : Type :=
| Done (a : A)
| Fault
| Timeout.

Arguments Done {A} a.
Arguments Fault {A}.
Arguments Timeout {A}.

Definition obind {A B : Type} (m : outcome A) (k : A -> outcome B) : outcome B :=
  match m with
  | Done a => k a
  | Fault => Fault
  | Timeout => Timeout
  end.

Notation "'let*' x ':=' m 'in' k" := (obind m (fun x => k))
  (at level 10, x pattern, m at level 100, k at level 200).

(** ** Data model *)

(** Modelled from the spec: the fields of the configuration record
    [settings], whose declaration is in [globals.h]; the dimensions are
    unsigned 32-bit integers. *)
Module settings.
Record t : Type := mk {
  height : Z;
  max_height : Z;
  width : Z;
  desc_size : Z;
  horiz_padding : Z;
  font_size : Z;
  desc_font_size : Z;
  cursor_padding : Z;
  line_gap : Z;
  cursor_is_underline : bool;
  auto_center : bool
}.
End settings.

(** Modelled from the spec: the fields of the process-wide record [global]
    of [globals.h], whose declaration is in another file; the scroll
    state is three unsigned 32-bit integers. *)
Module global.
Record t : Type := mk {
  result_count : Z;
  result_highlight : Z;
  result_offset : Z;
  real_font_size : Z;
  real_desc_font_size : Z;
  win_x_pos : Z;
  win_x_pos_with_desc : Z;
  win_y_pos : Z
}.

Definition with_highlight (g : t) (h : Z) : t :=
  mk (result_count g) h (result_offset g) (real_font_size g)
     (real_desc_font_size g) (win_x_pos g) (win_x_pos_with_desc g) (win_y_pos g).

Definition with_offset (g : t) (o : Z) : t :=
  mk (result_count g) (result_highlight g) o (real_font_size g)
     (real_desc_font_size g) (win_x_pos g) (win_x_pos_with_desc g) (win_y_pos g).

Definition scroll_in_range (g : t) : Prop :=
  U32.in_range (result_count g) /\ U32.in_range (result_highlight g) /\
  U32.in_range (result_offset g).
End global.

(** ** The scroll window of [draw_result_text] (lines 576-598) *)

(** [if (global.result_count - 1 < global.result_highlight)
       global.result_highlight = global.result_count - 1;] *)
Definition clamp_highlight (g : global.t) : global.t :=
  if U32.sub (global.result_count g) 1 <? global.result_highlight g
  then global.with_highlight g (U32.sub (global.result_count g) 1)
  else g.

(** [uint32_t max_results = settings.max_height / settings.height - 1;] *)
Definition max_results (s : settings.t) : outcome Z :=
  if settings.height s =? 0 then Fault
  else Done (U32.sub (settings.max_height s / settings.height s) 1).

(** The chain of [if]s that sets [global.result_offset]; the result is the
    new scroll state and [display_results]. *)
Definition set_offset (maxr : Z) (g : global.t) : global.t * Z :=
  let count := global.result_count g in
  let display_results := cmin count maxr in
  if count <=? maxr then
    (global.with_offset g 0, display_results)
  else if U32.sub count maxr <? global.result_offset g then
    (global.with_offset g (U32.sub count maxr), display_results)
  else if U32.add (global.result_offset g) display_results
            <? U32.add (global.result_highlight g) 1 then
    let g' := global.with_offset g
                (U32.sub (global.result_highlight g) (U32.sub display_results 1)) in
    (g', U32.sub count (global.result_offset g'))
  else if global.result_highlight g <? global.result_offset g then
    (global.with_offset g (global.result_highlight g), display_results)
  else
    (g, display_results).

Definition scroll_window (s : settings.t) (g : global.t) : outcome (global.t * Z) :=
  let g1 := clamp_highlight g in
  let* maxr := max_results s in
  Done (set_offset maxr g1).

(** The invariant of the scroll window that the specification asks for. *)
Definition window_invariant (g : global.t) (display_results : Z) : Prop :=
  global.result_offset g <= global.result_highlight g
    <= global.result_offset g + display_results - 1 /\
  global.result_offset g + display_results <= global.result_count g.

(** ** Single-precision floats

    [float] is IEEE binary32: precision 24, exponent bound 128. *)

Module F32.
Definition prec : Z := 24.
Definition emax : Z := 128.

(** [(float) n] for an unsigned integer [n]. *)
Definition of_u32 (n : Z) : spec_float := binary_normalize prec emax n 0 false.

Definition div : spec_float -> spec_float -> spec_float := SFdiv prec emax.
Definition mul : spec_float -> spec_float -> spec_float := SFmul prec emax.
Definition ltb : spec_float -> spec_float -> bool := SFltb.

(** The [min] macro at type [float]. *)
Definition fmin (a b : spec_float) : spec_float := if ltb a b then a else b.

(** The integral part of the magnitude of a finite float. *)
Definition trunc_mag (m : positive) (e : Z) : Z :=
  if 0 <=? e then Z.pos m * 2 ^ e else Z.pos m / 2 ^ (- e).

(** The conversion of a [float] to [uint32_t]: the fractional part is
    discarded, and the behaviour is undefined when the integral part is
    not a [uint32_t]. *)
Definition to_u32 (f : spec_float) : outcome Z :=
  match f with
  | S754_zero _ => Done 0
  | S754_finite s m e =>
      let t := trunc_mag m e in
      if s then (if t =? 0 then Done 0 else Fault)
      else if t <? U32.modulus then Done t else Fault
  | S754_infinity _ | S754_nan => Fault
  end.
End F32.

(** [offset_t]: the x offset, the baseline of the text and the top of an
    image. *)
Module offset.
Record t : Type := mk { x : Z; y : Z; image_y : Z }.
Definition with_x (o : t) (v : Z) : t := mk v (y o) (image_y o).
End offset.

(** Modelled from the spec: [image_format_t], declared in [display.h],
    the width and the height of a picture as two unsigned 32-bit
    integers. *)
Module format.
Record t : Type := mk { width : Z; height : Z }.
End format.

(** Modelled from the spec: the modifiers of a run and the types of a
    draw command, two enumerations declared with [draw_t]. *)
Inductive modifier_type_t : Type := CENTER | BOLD | NONE.

Inductive draw_type_t : Type := DRAW_LINE | NEW_LINE | DRAW_IMAGE | DRAW_TEXT.

(** Modelled from the spec: [draw_t], what [parse_result_line] returns.
    [data] points into the text buffer ([None] is the null pointer),
    [data_length] is the width of the run that the parser measured, and
    [modifiers_array] is the array of [modifiers_array_length]
    modifiers. *)
Module draw.
Record t : Type := mk {
  type : draw_type_t;
  data : option nat;
  data_length : Z;
  modifiers_array : list modifier_type_t
}.
End draw.

(** Modelled from the spec: [result_t], the text of a row, its
    description and its action, the last two possibly null. *)
Module result.
Record t : Type := mk {
  text : list Z;
  desc : option (list Z);
  action : option (list Z)
}.
Definition with_text (r : t) (b : list Z) : t := mk b (desc r) (action r).
Definition with_desc (r : t) (b : list Z) : t := mk (text r) (Some b) (action r).
End result.

(** The colours of [settings], which the paints receive by address. *)
Inductive color_t : Type :=
| query_fg | query_bg | result_fg | result_bg | highlight_fg | highlight_bg.

(** What a paint leaves on the cairo context. *)
Inductive op : Type :=
| Rectangle (c : color_t) (x y w h : Z)
| ShowText (c : color_t) (x y : Z) (bold : bool) (size : Z) (text : list Z)
| ShowCursorGlyph
| PaintImage (x y w h : Z) (path : list Z)
| StrokeLine (x1 x2 y : Z).

(** What a repaint does, in order. *)
Inductive event : Type :=
| PaintQuery (ops : list op)
| PaintDesc (ops : list op)
| PaintRow (index line : Z) (fg bg : color_t) (ops : list op)
| ConfigureWindowPos (x y : Z)
| ConfigureWindowSize (w h : Z)
| SurfaceSetSize (w h : Z)
| SurfaceFlush
| XcbFlush.

(** The collaborators of the drawing code: the two build switches, the
    markup parser [parse_result_line] (it reads the buffer at the cursor
    and returns the run, the new cursor and the modifiers it keeps), the
    text measures of cairo and pango, and the file system and decoders
    that [draw_image] asks. *)
Record backend : Type := {
  NO_PANGO : bool;
  NO_GDK : bool;
  parse_result_line :
    list Z -> nat -> Z -> list modifier_type_t -> draw.t * nat * list modifier_type_t;
  (** [cairo_text_extents]: the x advance and the width *)
  text_extents : list Z -> Z * Z;
  (** [pango_layout_get_pixel_size]: the width at the given weight *)
  layout_pixel_width : list Z -> bool -> Z;
  (** [wordexp]: the first word, or an error *)
  wordexp : list Z -> option (list Z);
  (** [access (path, F_OK) != -1] *)
  access : list Z -> bool;
  (** [fgetc (fopen (path, "r"))]; [None] when [fopen] returns null *)
  fgetc_first : list Z -> option Z;
  (** [gdk_pixbuf_new_from_file]: the size of the image, or an error *)
  gdk_pixbuf_size : list Z -> option (Z * Z);
  (** [cairo_image_surface_create_from_png]: the size of the image; a
      file that does not decode gives a surface of size zero *)
  png_surface_size : list Z -> option (Z * Z)
}.

(** ** Text buffers *)

(** The bytes from [p] up to the first terminator. *)
Fixpoint until_nul (l : list Z) : list Z :=
  match l with
  | [] => []
  | b :: l' => if b =? 0 then [] else b :: until_nul l'
  end.

Definition cstring (buf : list Z) (p : nat) : list Z := until_nul (drop p buf).

(** The string of a run; a null [data] draws nothing. *)
Definition run_text (buf : list Z) (d : draw.t) : list Z :=
  match draw.data d with
  | Some p => cstring buf p
  | None => []
  end.

(** ** Geometry *)

Definition calculate_line_offset (s : settings.t) (g : global.t) (line : Z) : offset.t :=
  let y := U32.mul (settings.height s) line in
  offset.mk (settings.horiz_padding s) (U32.add y (global.real_font_size g)) y.

(** Signed 32-bit wrap-around, for [int32_t cursor_x]. *)
Definition wrap_i32 (z : Z) : Z := (z + 2 ^ 31) mod 2 ^ 32 - 2 ^ 31.

(** ** Image fitting *)

(** The three statements that [get_new_size] and [draw_png] share:
    [float prop = min((float)win_size_x / width, (float)win_size_y / height);]
    followed by the two products, each converted to [uint32_t]. *)
Definition scaled_format (width height win_size_x win_size_y : Z) : outcome format.t :=
  let prop := F32.fmin (F32.div (F32.of_u32 win_size_x) (F32.of_u32 width))
                       (F32.div (F32.of_u32 win_size_y) (F32.of_u32 height)) in
  let* w := F32.to_u32 (F32.mul prop (F32.of_u32 width)) in
  let* h := F32.to_u32 (F32.mul prop (F32.of_u32 height)) in
  Done (format.mk w h).

(** [get_new_size] writes [*format] only when the picture is too big. *)
Definition get_new_size (width height win_size_x win_size_y : Z) (fmt : format.t)
  : outcome format.t :=
  if (win_size_x <? width) || (win_size_y <? height)
  then scaled_format width height win_size_x win_size_y
  else Done fmt.

(** The loop over the modifiers of an image: only [CENTER] acts. *)
Fixpoint image_modifiers (ms : list modifier_type_t) (win_size_x fw : Z) (off : offset.t)
  : offset.t :=
  match ms with
  | [] => off
  | CENTER :: ms' =>
      image_modifiers ms' win_size_x fw
        (offset.with_x off (U32.add (offset.x off) (U32.sub win_size_x fw / 2)))
  | _ :: ms' => image_modifiers ms' win_size_x fw off
  end.

(** ** Runs of text *)

(** The loop over the modifiers of [draw_text], with pango. *)
Fixpoint pango_modifiers (ms : list modifier_type_t) (line_width data_length : Z)
    (off : offset.t) (bold : bool) : offset.t * bool :=
  match ms with
  | [] => (off, bold)
  | CENTER :: ms' =>
      pango_modifiers ms' line_width data_length
        (offset.with_x off (U32.add (offset.x off) (U32.sub line_width data_length / 2)))
        bold
  | BOLD :: ms' => pango_modifiers ms' line_width data_length off true
  | NONE :: ms' => pango_modifiers ms' line_width data_length off bold
  end.

(** The loop over the modifiers of [draw_text], without pango. *)
Fixpoint cairo_modifiers (ms : list modifier_type_t) (line_width data_length : Z)
    (off : offset.t) (bold : bool) : offset.t * bool :=
  match ms with
  | [] => (off, bold)
  | CENTER :: ms' =>
      let tmp := offset.x off in
      cairo_modifiers ms' line_width data_length
        (offset.with_x off
           (U32.add tmp (U32.sub (U32.sub line_width tmp) data_length / 2)))
        bold
  | BOLD :: ms' => cairo_modifiers ms' line_width data_length off true
  | NONE :: ms' => cairo_modifiers ms' line_width data_length off bold
  end.

(** How many [CENTER]s an array of modifiers holds, whether it holds a
    [BOLD], and the array without its [BOLD]s. *)
Fixpoint centers (ms : list modifier_type_t) : nat :=
  match ms with
  | [] => O
  | CENTER :: ms' => S (centers ms')
  | _ :: ms' => centers ms'
  end.

Fixpoint has_bold (ms : list modifier_type_t) : bool :=
  match ms with
  | [] => false
  | BOLD :: _ => true
  | _ :: ms' => has_bold ms'
  end.

Fixpoint without_bold (ms : list modifier_type_t) : list modifier_type_t :=
  match ms with
  | [] => []
  | BOLD :: ms' => without_bold ms'
  | m :: ms' => m :: without_bold ms'
  end.

(** The move of one [CENTER], with pango and without. *)
Definition pango_center (line_width data_length x : Z) : Z :=
  U32.add x (U32.sub line_width data_length / 2).

Definition cairo_center (line_width data_length x : Z) : Z :=
  U32.add x (U32.sub (U32.sub line_width x) data_length / 2).

(** ** Orders of events *)

Definition is_row (e : event) : bool :=
  match e with
  | PaintRow _ _ _ _ _ => true
  | _ => false
  end.

Definition is_flush (e : event) : bool :=
  match e with
  | SurfaceFlush | XcbFlush => true
  | _ => false
  end.

(** No flush of the surface comes before the paint of a row. *)
Definition flush_only_after_rows (evs : list event) : Prop :=
  forall (i j : nat) (e : event),
    evs !! i = Some SurfaceFlush -> evs !! j = Some e -> is_row e = true -> (j < i)%nat.

(** The rows are those of the indices from [first] on, one per line from
    line 1 on. *)
Definition rows_in_order (first : Z) (rows : list event) : Prop :=
  forall i : nat, (i < length rows)%nat ->
    exists fg bg ops,
      rows !! i = Some (PaintRow (first + Z.of_nat i) (1 + Z.of_nat i) fg bg ops).

(** ** Parsers *)

(** A parser that moves the cursor forward at each call. *)
Definition parser_advances (B : backend) (buf : list Z) : Prop :=
  forall (c : nat) (line_width : Z) (ms : list modifier_type_t),
    (c < snd (fst (parse_result_line B buf c line_width ms)))%nat.

(** ** The real value of a float *)

Definition bpow (e : Z) : R := powerRZ 2 e.

Definition value (f : spec_float) : R :=
  match f with
  | S754_finite s m e => ((if s then -1 else 1) * IZR (Z.pos m) * bpow e)%R
  | _ => 0%R
  end.

(** A positive finite float with a mantissa of 24 digits. *)
Definition normal_pos (f : spec_float) (m : positive) (e : Z) : Prop :=
  f = S754_finite false m e /\ Z.pos (digits2_pos m) = 24.

(** ** The size the specification asks for

    [scale = min(avail_w / natural_w, avail_h / natural_h)] in exact
    arithmetic, and each product rounded to the nearest integer. *)

Definition round_ratio (a b : Z) : Z := (2 * a + b) / (2 * b).

Definition spec_fit (w h X Y : Z) : Z * Z :=
  if X * h <=? Y * w
  then (round_ratio (X * w) w, round_ratio (X * h) w)
  else (round_ratio (Y * w) h, round_ratio (Y * h) h).

Section Display.
Context (B : backend) (s : settings.t).

(** *** [draw_typed_line]

    The extents that cairo reports are taken as integers.  Where the text
    is wider than the row, [settings.width - extents.x_advance] is
    negative, and its conversion to [uint32_t] is taken modulo [2 ^ 32]. *)
Definition draw_typed_line (g : global.t) (text : list Z) (line : Z) (cursor : nat)
    (fg bg : color_t) : outcome (list Z * list op) :=
  let background :=
    Rectangle bg 0 (U32.mul line (settings.height s)) (settings.width s)
              (U32.mul (U32.add line 1) (settings.height s)) in
  let off := calculate_line_offset s g line in
  match text !! cursor with
  | None => Fault
  | Some saved_char =>
      let text1 := <[cursor := 0]> text in
      let cursor_x := wrap_i32 (fst (text_extents B (cstring text1 0))) in
      let text2 := <[cursor := saved_char]> text1 in
      let '(x_advance, w) := text_extents B (cstring text2 0) in
      let off :=
        if settings.width s <? w
        then offset.with_x off (U32.sub (settings.width s) x_advance)
        else off in
      let cursor_x := wrap_i32 (cursor_x + offset.x off) in
      let '(off, cursor_x) :=
        if cursor_x <? 0
        then (offset.with_x off (U32.sub (offset.x off) (U32.wrap (cursor_x - 3))), 0)
        else (off, cursor_x) in
      let shown :=
        ShowText fg (offset.x off) (offset.y off) false (settings.font_size s)
                 (cstring text2 0) in
      let cursor_ops :=
        if settings.cursor_is_underline s then [ShowCursorGlyph]
        else
          let cursor_y :=
            U32.sub (U32.sub (offset.y off) (settings.font_size s))
                    (settings.cursor_padding s) in
          [Rectangle fg (cursor_x + 2) cursor_y 0
             (U32.add (settings.font_size s) (U32.mul (settings.cursor_padding s) 2))] in
      Done (text2, background :: shown :: cursor_ops)
  end.

(** *** [draw_text], both builds: the new offset, the advance, the paint *)
Definition draw_text_pango (d : draw.t) (text : list Z) (line_width : Z)
    (off : offset.t) (fg : color_t) (size : Z) : offset.t * Z * list op :=
  let '(off', bold) :=
    pango_modifiers (draw.modifiers_array d) line_width (draw.data_length d) off false in
  (off', U32.wrap (layout_pixel_width B text bold),
   [ShowText fg (offset.x off') (offset.y off') bold size text]).

Definition draw_text_cairo (d : draw.t) (text : list Z) (line_width : Z)
    (off : offset.t) (fg : color_t) (size : Z) : offset.t * Z * list op :=
  let '(off', bold) :=
    cairo_modifiers (draw.modifiers_array d) line_width (draw.data_length d) off false in
  (off', U32.wrap (fst (text_extents B text)),
   [ShowText fg (offset.x off') (offset.y off') bold size text]).

Definition draw_text (d : draw.t) (text : list Z) (line_width : Z)
    (off : offset.t) (fg : color_t) (size : Z) : offset.t * Z * list op :=
  if NO_PANGO B then draw_text_cairo d text line_width off fg size
  else draw_text_pango d text line_width off fg size.

(** *** [draw_image_with_gdk], [draw_png], [draw_image] *)
Definition draw_image_with_gdk (d : draw.t) (path : list Z) (off : offset.t)
    (win_size_x win_size_y : Z) (fmt : format.t)
    : outcome (offset.t * format.t * list op) :=
  match gdk_pixbuf_size B path with
  | None => Done (off, fmt, [])
  | Some (iw, ih) =>
      let* fmt' := get_new_size iw ih win_size_x win_size_y fmt in
      let off' :=
        image_modifiers (draw.modifiers_array d) win_size_x (format.width fmt') off in
      Done (off', fmt',
            [PaintImage (offset.x off') (offset.image_y off')
                        (format.width fmt') (format.height fmt') path])
  end.

Definition draw_png (d : draw.t) (path : list Z) (off : offset.t)
    (win_size_x win_size_y : Z) : outcome (offset.t * format.t * list op) :=
  let fmt :=
    match png_surface_size B path with
    | Some (iw, ih) => format.mk iw ih
    | None => format.mk 0 0
    end in
  let off' :=
    image_modifiers (draw.modifiers_array d) win_size_x (format.width fmt) off in
  let* fmt' :=
    if (win_size_x <? format.width fmt) || (win_size_y <? format.height fmt)
    then scaled_format (format.width fmt) (format.height fmt) win_size_x win_size_y
    else Done fmt in
  Done (off', fmt',
        [PaintImage (offset.x off') (offset.image_y off')
                    (format.width fmt') (format.height fmt') path]).

(** [wordexp] replaces the name by its first word, or fails and leaves
    the name as it is. *)
Definition expanded_path (name : list Z) : list Z :=
  match wordexp B name with
  | Some f => f
  | None => name
  end.

(** The two ways an image is not there: [access] does not find the
    file; or the file is found and cannot be opened for reading, or its
    first byte is none of the known ones, or the decoder of the build
    reports an error. *)
Definition cannot_locate (path : list Z) : Prop := access B path = false.

Definition cannot_decode (path : list Z) : Prop :=
  access B path = true /\
  match fgetc_first B path with
  | None => True
  | Some magic =>
      if NO_GDK B then magic = 137 -> png_surface_size B path = None
      else magic = 137 \/ magic = 255 \/ magic = 47 -> gdk_pixbuf_size B path = None
  end.

Definition draw_image (d : draw.t) (buf : list Z) (off : offset.t)
    (win_size_x win_size_y : Z) : outcome (format.t * list op) :=
  match draw.data d with
  | None => Fault
  | Some p =>
      let path := expanded_path (cstring buf p) in
      if negb (access B path) then Done (format.mk 0 0, [])
      else
        match fgetc_first B path with
        | None => Fault
        | Some magic =>
            if NO_GDK B then
              if magic =? 137 then
                let* r := draw_png d path off win_size_x win_size_y in
                Done (snd (fst r), snd r)
              else Done (format.mk 0 0, [])
            else if (magic =? 137) || (magic =? 255) || (magic =? 47) then
              let* r := draw_image_with_gdk d path off win_size_x win_size_y
                          (format.mk 0 0) in
              Done (snd (fst r), snd r)
            else Done (format.mk 0 0, [])
        end
  end.

(** *** [draw_line] *)

(** The [switch] on the type of the run.  In
    [offset.x += draw_text(..., &offset, ...)] the left operand is read
    once the call has returned. *)
Definition draw_line_run (fg : color_t) (buf : list Z) (d : draw.t) (off : offset.t)
    : outcome (offset.t * list op) :=
  match draw.type d with
  | DRAW_LINE | NEW_LINE => Done (off, [])
  | DRAW_IMAGE =>
      let* r := draw_image d buf off (U32.sub (settings.width s) (offset.x off))
                  (settings.height s) in
      Done (offset.with_x off (U32.add (offset.x off) (format.width (fst r))), snd r)
  | DRAW_TEXT =>
      let '(off', w, ops) :=
        draw_text d (run_text buf d) (U32.sub (settings.width s) (offset.x off))
                  off fg (settings.font_size s) in
      Done (offset.with_x off' (U32.add (offset.x off') w), ops)
  end.

(** The [while] loop: the buffer, the cursor [c], the offset and the
    modifiers kept between two calls of the parser. *)
Fixpoint draw_line_loop (fuel : nat) (fg : color_t) (buf : list Z) (c : nat)
    (off : offset.t) (ms : list modifier_type_t) : outcome (list Z * list op) :=
  match fuel with
  | O => Timeout
  | S fuel' =>
      match buf !! c with
      | None => Fault
      | Some b =>
          if b =? 0 then Done (buf, [])
          else
            let '(d, c', ms') :=
              parse_result_line B buf c (U32.sub (settings.width s) (offset.x off)) ms in
            match draw.data d with
            | None => Done (buf, [])
            | Some _ =>
                match buf !! c' with
                | None => Fault
                | Some saved =>
                    let buf1 := <[c' := 0]> buf in
                    let* r := draw_line_run fg buf1 d off in
                    let buf2 := <[c' := saved]> buf1 in
                    let* k := draw_line_loop fuel' fg buf2 c' (fst r) ms' in
                    Done (fst k, snd r ++ snd k)
                end
            end
      end
  end.

Definition draw_line (fuel : nat) (g : global.t) (text : list Z) (line : Z)
    (fg bg : color_t) : outcome (list Z * list op) :=
  let background :=
    Rectangle bg 0 (U32.add (U32.mul line (settings.height s)) 2) (settings.width s)
              (U32.mul (U32.add line 1) (settings.height s)) in
  let* k := draw_line_loop fuel fg text 0 (calculate_line_offset s g line) [] in
  Done (fst k, background :: snd k).

(** *** [draw_desc] *)

Definition desc_height (g : global.t) : Z :=
  U32.mul (settings.height s) (U32.add (global.result_count g) 1).

Definition desc_line_width (off : offset.t) : Z :=
  if NO_PANGO B then U32.sub (settings.width s) (offset.x off)
  else U32.sub (U32.add (settings.desc_size s) (settings.width s)) (offset.x off).

Definition desc_text_size : Z :=
  if NO_PANGO B then settings.font_size s else settings.desc_font_size s.

Definition draw_desc_run (g : global.t) (fg : color_t) (buf : list Z) (d : draw.t)
    (off : offset.t) : outcome (offset.t * list op) :=
  let rdfs := global.real_desc_font_size g in
  match draw.type d with
  | DRAW_IMAGE =>
      let* r := draw_image d buf off
                  (U32.sub (settings.desc_size s)
                           (U32.sub (offset.x off) (settings.width s)))
                  (U32.sub (desc_height g) (offset.image_y off)) in
      let image_y := U32.add (offset.image_y off) (format.height (fst r)) in
      Done (offset.mk (U32.add (offset.x off) (format.width (fst r))) image_y image_y,
            snd r)
  | DRAW_LINE =>
      let y1 := U32.add (offset.y off) (rdfs / 2) in
      let x1 := settings.width s in
      Done (offset.mk x1 (U32.add y1 rdfs) (U32.add (offset.image_y off) (U32.mul 2 rdfs)),
            [StrokeLine (U32.add x1 (settings.line_gap s))
                        (U32.sub (U32.add x1 (settings.desc_size s)) (settings.line_gap s))
                        y1])
  | NEW_LINE =>
      Done (offset.mk (settings.width s) (U32.add (offset.y off) rdfs)
                      (U32.add (offset.image_y off) rdfs), [])
  | DRAW_TEXT =>
      let '(off', w, ops) :=
        draw_text d (run_text buf d)
                  (U32.sub (U32.add (settings.width s) (settings.desc_size s)) (offset.x off))
                  off fg desc_text_size in
      Done (offset.with_x off' (U32.add (offset.x off') w), ops)
  end.

(** The test that follows each run: would the next one leave the panel? *)
Definition desc_wrap (g : global.t) (off : offset.t) : offset.t :=
  if U32.add (settings.width s) (settings.desc_size s)
       <? U32.add (offset.x off) (settings.desc_font_size s)
  then offset.mk (settings.width s)
                 (U32.add (offset.y off) (global.real_desc_font_size g))
                 (U32.add (offset.image_y off) (global.real_desc_font_size g))
  else off.

Fixpoint draw_desc_loop (fuel : nat) (g : global.t) (fg : color_t) (buf : list Z)
    (c : nat) (off : offset.t) (ms : list modifier_type_t)
    : outcome (list Z * list op) :=
  match fuel with
  | O => Timeout
  | S fuel' =>
      match buf !! c with
      | None => Fault
      | Some b =>
          if b =? 0 then Done (buf, [])
          else
            let '(d, c', ms') := parse_result_line B buf c (desc_line_width off) ms in
            match buf !! c' with
            | None => Fault
            | Some saved =>
                let buf1 := <[c' := 0]> buf in
                let* r := draw_desc_run g fg buf1 d off in
                let buf2 := <[c' := saved]> buf1 in
                let* k := draw_desc_loop fuel' g fg buf2 c' (desc_wrap g (fst r)) ms' in
                Done (fst k, snd r ++ snd k)
            end
      end
  end.

Definition draw_desc (fuel : nat) (g : global.t) (text : list Z) (fg bg : color_t)
    : outcome (list Z * list op) :=
  let background :=
    Rectangle bg (U32.add (settings.width s) 2) 0
              (U32.add (settings.width s) (settings.desc_size s)) (desc_height g) in
  let off := offset.mk (U32.add (settings.width s) 2) (global.real_desc_font_size g) 0 in
  let* k := draw_desc_loop fuel g fg text 0 off [] in
  Done (fst k, background :: snd k).

(** *** [draw_query_text], [draw_result_text], [redraw_all] *)

Definition draw_query_text (g : global.t) (text : list Z) (cursor : Z)
    : outcome (list Z * list event) :=
  let* r := draw_typed_line g text 0 (Z.to_nat cursor) query_fg query_bg in
  Done (fst r, [PaintQuery (snd r); SurfaceFlush]).

(** [min(settings.height * (global.result_count + 1), settings.max_height)] *)
Definition new_height (g : global.t) : Z :=
  cmin (U32.mul (settings.height s) (U32.add (global.result_count g) 1))
       (settings.max_height s).

(** The events of the branch taken when the highlighted row has no
    description. *)
Definition resize_plain (g : global.t) : list event :=
  (if settings.auto_center s
   then [ConfigureWindowPos (global.win_x_pos g) (global.win_y_pos g)] else [])
  ++ [ConfigureWindowSize (settings.width s) (new_height g);
      SurfaceSetSize (settings.width s) (new_height g)].

(** The events of the other branch, up to the paint of the panel. *)
Definition resize_with_desc (g : global.t) : list event :=
  (if settings.auto_center s
   then [ConfigureWindowPos (global.win_x_pos_with_desc g) (global.win_y_pos g)] else [])
  ++ [ConfigureWindowSize (U32.add (settings.width s) (settings.desc_size s)) (new_height g);
      SurfaceSetSize (U32.add (settings.width s) (settings.desc_size s)) (new_height g)].

Definition draw_panel (fuel : nat) (g : global.t) (results : list result.t)
    : outcome (list result.t * list event) :=
  if global.result_highlight g <? global.result_count g then
    match results !! Z.to_nat (global.result_highlight g) with
    | None => Fault
    | Some r =>
        match result.desc r with
        | Some text =>
            let* k := draw_desc fuel g text highlight_fg highlight_bg in
            Done (<[Z.to_nat (global.result_highlight g) := result.with_desc r (fst k)]> results,
                  resize_with_desc g ++ [PaintDesc (snd k)])
        | None => Done (results, resize_plain g)
        end
    end
  else Done (results, resize_plain g).

(** The colours of a row: a title, a plain row, the highlighted row. *)
Definition row_colors (g : global.t) (r : result.t) (index : Z) : color_t * color_t :=
  match result.action r with
  | None => (result_fg, result_bg)
  | Some _ =>
      if index =? global.result_highlight g then (highlight_fg, highlight_bg)
      else (result_fg, result_bg)
  end.

(** The [for] loop over the rows; [n] counts the rows that are left. *)
Fixpoint draw_rows (n : nat) (fuel : nat) (g : global.t) (results : list result.t)
    (index line bound : Z) : outcome (list result.t * list event) :=
  if index <? bound then
    match n with
    | O => Timeout
    | S n' =>
        match results !! Z.to_nat index with
        | None => Fault
        | Some r =>
            let '(fg, bg) := row_colors g r index in
            let* k := draw_line fuel g (result.text r) line fg bg in
            let results' := <[Z.to_nat index := result.with_text r (fst k)]> results in
            let* rest := draw_rows n' fuel g results' (U32.add index 1) (line + 1) bound in
            Done (fst rest, PaintRow index line fg bg (snd k) :: snd rest)
        end
    end
  else Done (results, []).

Definition draw_result_text (fuel : nat) (g : global.t) (results : list result.t)
    : outcome (global.t * list result.t * list event) :=
  let* w := scroll_window s g in
  let g' := fst w in
  let display_results := snd w in
  let* p := draw_panel fuel g' results in
  let bound := U32.add (global.result_offset g') display_results in
  let* r := draw_rows (Z.to_nat (bound - global.result_offset g')) fuel g' (fst p)
              (global.result_offset g') 1 bound in
  Done (g', fst r, snd p ++ snd r ++ [SurfaceFlush; XcbFlush]).

Definition redraw_all (fuel : nat) (g : global.t) (results : list result.t)
    (query_string : list Z) (query_cursor_index : Z)
    : outcome (global.t * list result.t * list Z * list event) :=
  let* q := draw_query_text g query_string query_cursor_index in
  let* r := draw_result_text fuel g results in
  Done (fst (fst r), snd (fst r), fst q, snd q ++ snd r).

End Display.

(** ** Sample inputs *)

Module Sample.
(** A configuration with rows of 20 pixels in a window of at most 120:
    five rows under the query line. *)
Definition rows5 : settings.t :=
  settings.mk 20 120 110 200 10 12 10 2 4 false false.

Definition scroll_state (count highlight offset : Z) : global.t :=
  global.mk count highlight offset 12 10 0 0 0.

(** A small markup for the sample parser: runs end at a space or at
    the terminator; after an optional leading space, [@] starts the path
    of an image, [^] a centered text and [*] a bold text.  Every byte is
    8 pixels wide. *)
Fixpoint run_end (l : list Z) (i : nat) : nat :=
  match l with
  | [] => i
  | b :: l' => if (b =? 0) || (b =? 32) then i else run_end l' (S i)
  end.

Definition parse (buf : list Z) (c : nat) (line_width : Z) (ms : list modifier_type_t)
  : draw.t * nat * list modifier_type_t :=
  let stop := run_end (drop (S c) buf) (S c) in
  let k := match buf !! c with Some 32 => S c | _ => c end in
  let len (p : nat) := 8 * (Z.of_nat stop - Z.of_nat p) in
  match buf !! k with
  | Some 64 => (draw.mk DRAW_IMAGE (Some (S k)) (len (S k)) [], stop, ms)
  | Some 94 => (draw.mk DRAW_TEXT (Some (S k)) (len (S k)) [CENTER], stop, ms)
  | Some 42 => (draw.mk DRAW_TEXT (Some (S k)) (len (S k)) [BOLD], stop, ms)
  | _ => (draw.mk DRAW_TEXT (Some c) (len c) [], stop, ms)
  end.

Definition head_is (b : Z) (path : list Z) : bool :=
  match path with
  | b' :: _ => b' =? b
  | [] => false
  end.

(** A file system where a path that starts with [!] does not exist, one
    that starts with [?] has an unknown first byte, one that starts with
    [x] does not decode, and the others are PNG images of 48 by 48. *)
Definition backend (no_pango no_gdk : bool) : backend := {|
  NO_PANGO := no_pango;
  NO_GDK := no_gdk;
  parse_result_line := parse;
  text_extents := fun t => (8 * Z.of_nat (length t), 8 * Z.of_nat (length t));
  layout_pixel_width := fun t bold =>
    (if bold then 9 else 8) * Z.of_nat (length t);
  wordexp := fun p => Some p;
  access := fun p => negb (head_is 33 p);
  fgetc_first := fun p => Some (if head_is 63 p then 0 else 137);
  gdk_pixbuf_size := fun p => if head_is 120 p then None else Some (48, 48);
  png_surface_size := fun p => if head_is 120 p then None else Some (48, 48)
|}.

(** ["ab ^cd @!p ef"], ["@x.png hi"] and ["*go"], with their terminators. *)
Definition text1 : list Z := [97; 98; 32; 94; 99; 100; 32; 64; 33; 112; 32; 101; 102; 0].
Definition text2 : list Z := [64; 120; 46; 112; 110; 103; 32; 104; 105; 0].
Definition text3 : list Z := [42; 103; 111; 0].

Definition results3 : list result.t :=
  [result.mk text1 (Some text2) (Some [0]);
   result.mk text2 None None;
   result.mk text3 None (Some [0])].
End Sample.


(** ** Further sample inputs and predicates *)

(** A font whose ink reaches 8 pixels beyond the advance of a text. *)
Definition overhang_backend : backend := {|
  NO_PANGO := false;
  NO_GDK := false;
  parse_result_line := Sample.parse;
  text_extents := fun t => (8 * Z.of_nat (length t), 8 * Z.of_nat (length t) + 8);
  layout_pixel_width := fun t bold => 8 * Z.of_nat (length t);
  wordexp := fun p => Some p;
  access := fun p => true;
  fgetc_first := fun p => Some 137;
  gdk_pixbuf_size := fun p => Some (48, 48);
  png_surface_size := fun p => Some (48, 48)
|}.

(** An operation of a result row: a text in the colour of the row on its
    baseline, or a picture at its top. *)
Definition on_row (fg : color_t) (y image_y : Z) (o : op) : Prop :=
  match o with
  | ShowText c _ y' _ _ _ => c = fg /\ y' = y
  | PaintImage _ y' _ _ _ => y' = image_y
  | _ => False
  end.

(** A parser that, called before the terminator, stops after the cursor
    and inside the buffer. *)
Definition parser_stays_inside (B : backend) (buf : list Z) : Prop :=
  forall (c : nat) (line_width : Z) (ms : list modifier_type_t) (b : Z),
    buf !! c = Some b -> b <> 0 ->
    (c < snd (fst (parse_result_line B buf c line_width ms)) < length buf)%nat.

(** A parser that finds no picture in the buffer. *)
Definition parser_finds_no_image (B : backend) (buf : list Z) : Prop :=
  forall (c : nat) (line_width : Z) (ms : list modifier_type_t),
    draw.type (fst (fst (parse_result_line B buf c line_width ms))) <> DRAW_IMAGE.

(** Whether the panel of the description is painted: the highlight
    points at a result, and that result has a description. *)
Definition panel_shown (g : global.t) (results : list result.t) : bool :=
  (global.result_highlight g <? global.result_count g) &&
  match results !! Z.to_nat (global.result_highlight g) with
  | Some r => match result.desc r with Some _ => true | None => false end
  | None => false
  end.

Definition is_panel (e : event) : bool :=
  match e with
  | PaintDesc _ => true
  | _ => false
  end.

(** A text that the loops can paint with the fuel at hand: not empty,
    without pictures, and parsed forward inside the buffer. *)
Definition paintable (B : backend) (fuel : nat) (text : list Z) : Prop :=
  (0 < length text < fuel)%nat /\
  parser_stays_inside B text /\ parser_finds_no_image B text.

Definition paintable_result (B : backend) (fuel : nat) (r : result.t) : Prop :=
  paintable B fuel (result.text r) /\
  match result.desc r with
  | Some d => paintable B fuel d
  | None => True
  end.

(** Two results without pictures: ["*go"] with itself as description,
    and ["*go"] as a title. *)
Definition results2 : list result.t :=
  [result.mk Sample.text3 (Some Sample.text3) (Some [0]);
   result.mk Sample.text3 None None].

(** A file system where every file is found, and a path that starts
    with [#] cannot be opened for reading. *)
Definition locked_backend (no_gdk : bool) : backend := {|
  NO_PANGO := false;
  NO_GDK := no_gdk;
  parse_result_line := Sample.parse;
  text_extents := fun t => (8 * Z.of_nat (length t), 8 * Z.of_nat (length t));
  layout_pixel_width := fun t bold => 8 * Z.of_nat (length t);
  wordexp := fun p => Some p;
  access := fun p => true;
  fgetc_first := fun p => if Sample.head_is 35 p then None else Some 137;
  gdk_pixbuf_size := fun p => Some (48, 48);
  png_surface_size := fun p => Some (48, 48)
|}.

(** The rows of a repaint, each with its paint: the row [i] is the
    result of index [first + i], painted by [draw_line] on the line
    [1 + i] in the colours of its kind. *)
Definition rows_painted (B : backend) (s : settings.t) (fuel : nat) (g : global.t)
    (results : list result.t) (first : Z) (rows : list event) : Prop :=
  forall i : nat, (i < length rows)%nat ->
    exists r ops,
      let index := first + Z.of_nat i in
      let line := 1 + Z.of_nat i in
      let fg := fst (row_colors g r index) in
      let bg := snd (row_colors g r index) in
      results !! Z.to_nat index = Some r /\
      draw_line B s fuel g (result.text r) line fg bg = Done (result.text r, ops) /\
      rows !! i = Some (PaintRow index line fg bg ops).

(** The events between the paint of the query and the rows: the resize
    of the window and of the surface and, when the highlighted result has
    a description, the paint of the panel by [draw_desc]. *)
Definition panel_painted (B : backend) (s : settings.t) (fuel : nat) (g : global.t)
    (results : list result.t) (panel : list event) : Prop :=
  if panel_shown g results
  then exists r d ops,
         results !! Z.to_nat (global.result_highlight g) = Some r /\
         result.desc r = Some d /\
         draw_desc B s fuel g d highlight_fg highlight_bg = Done (d, ops) /\
         panel = resize_with_desc s g ++ [PaintDesc ops]
  else panel = resize_plain s g.

(** ** The scroll window *)

Lemma wrap_small (z : Z) : U32.in_range z -> U32.wrap z = z.
Proof. intros H. apply Z.mod_small. exact H. Qed.

Lemma wrap_in_range (z : Z) : U32.in_range (U32.wrap z).
Proof. apply Z.mod_pos_bound. reflexivity. Qed.

Ltac split_tests :=
  repeat match goal with
  | |- context [if ?a <? ?b then _ else _] => destruct (Z.ltb_spec a b)
  | |- context [if ?a <=? ?b then _ else _] => destruct (Z.leb_spec a b)
  end.

Ltac unwrap :=
  unfold U32.add, U32.sub, U32.mul, U32.wrap, U32.in_range, U32.modulus in *;
  Z.div_mod_to_equations; lia.

(** Where the invariant does hold: at least one row fits under the query
    line, and the window is not pinned to the tail of the results while
    the highlight is above it. *)
Lemma set_offset_window_invariant (maxr : Z) (g : global.t) :
  global.scroll_in_range g ->
  0 < global.result_count g ->
  1 <= maxr < U32.modulus ->
  (global.result_count g <= maxr \/
   global.result_offset g <= global.result_count g - maxr \/
   global.result_count g - maxr <= global.result_highlight g) ->
  window_invariant (fst (set_offset maxr (clamp_highlight g)))
                   (snd (set_offset maxr (clamp_highlight g))).
Proof.
  destruct g as [count hl off a b c d e].
  unfold global.scroll_in_range, window_invariant, clamp_highlight; cbn.
  intros (Hc & Hh & Ho) Hpos Hm Hcase.
  split_tests; unfold set_offset, cmin; cbn; split_tests; cbn; repeat split; unwrap.
Qed.

(** C1. The scroll window is asked to contain the highlight after every
    recompute with [count > 0].  With ten results, five visible rows, a
    stale offset of 7 and the highlight on row 0, [draw_result_text] pins
    the window to the tail (offset 5, five rows) and leaves the highlight
    above it: the invariant is broken. *)
Theorem scroll_window_tail_pin_loses_highlight :
  exists g' n,
    scroll_window Sample.rows5 (Sample.scroll_state 10 0 7) = Done (g', n) /\
    global.result_offset g' = 5 /\ global.result_highlight g' = 0 /\ n = 5 /\
    ~ window_invariant g' n.
Proof.
  eexists; eexists. split; [vm_compute; reflexivity|].
  cbn. repeat split; try reflexivity.
  unfold window_invariant; cbn. lia.
Qed.

(** C2. With ten results, five visible rows, offset 0 and the highlight on
    row 7, the recompute gives offset 3 and [display_results = 7], which
    exceeds [max_results = 5]; the expected value is 5. *)
Theorem scroll_window_regression_display_results :
  max_results Sample.rows5 = Done 5 /\
  exists g',
    scroll_window Sample.rows5 (Sample.scroll_state 10 7 0) = Done (g', 7) /\
    global.result_offset g' = 3 /\ global.result_highlight g' = 7.
Proof.
  split; [reflexivity|].
  eexists. split; [vm_compute; reflexivity|]. cbn. split; reflexivity.
Qed.

(** C8 as stated fails on an empty result set: the highlight 0 is not
    below the count 0, yet it stays 0, which is neither [count - 1] nor
    its unsigned wrap-around. *)
Lemma clamp_highlight_empty_set_unchanged :
  let g := Sample.scroll_state 0 0 0 in
  global.result_count g <= global.result_highlight g /\
  global.result_highlight (clamp_highlight g) = 0 /\
  global.result_highlight (clamp_highlight g) <> global.result_count g - 1 /\
  global.result_highlight (clamp_highlight g) <> U32.sub (global.result_count g) 1.
Proof. vm_compute. repeat split; congruence. Qed.

(** C8, amended.  The new highlight is the unsigned minimum of the old one
    and [count - 1]: with at least one result, a highlight at or beyond the
    count becomes [count - 1]; with no result the unsigned [count - 1] is
    the largest integer and the highlight is left as it is.  The count and
    the offset are untouched, and the step cannot fail. *)
Theorem clamp_highlight_unsigned_min (g : global.t) :
  global.scroll_in_range g ->
  global.result_highlight (clamp_highlight g)
    = Z.min (global.result_highlight g) (U32.sub (global.result_count g) 1) /\
  (1 <= global.result_count g ->
   global.result_count g <= global.result_highlight g ->
   global.result_highlight (clamp_highlight g) = global.result_count g - 1) /\
  (global.result_count g = 0 -> clamp_highlight g = g) /\
  global.result_count (clamp_highlight g) = global.result_count g /\
  global.result_offset (clamp_highlight g) = global.result_offset g.
Proof.
  destruct g as [count hl off a b c d e].
  unfold global.scroll_in_range, clamp_highlight, U32.sub, U32.in_range; cbn.
  intros (Hc & Hh & Ho).
  destruct (Z.eq_dec count 0) as [->|Hnz].
  - change (U32.wrap (0 - 1)) with 4294967295.
    unfold U32.modulus in *.
    destruct (Z.ltb_spec 4294967295 hl); cbn; repeat split; intros; try lia.
  - rewrite (wrap_small (count - 1)) by (unfold U32.in_range, U32.modulus in *; lia).
    destruct (Z.ltb_spec (count - 1) hl); cbn; repeat split; intros; try lia.
Qed.

Lemma clamp_highlight_unsigned_min_witness :
  global.result_highlight (clamp_highlight (Sample.scroll_state 3 7 0)) = 3 - 1.
Proof.
  refine (proj1 (proj2 (clamp_highlight_unsigned_min (Sample.scroll_state 3 7 0) _)) _ _).
  - unfold global.scroll_in_range, U32.in_range, U32.modulus; cbn. lia.
  - cbn. lia.
  - cbn. lia.
Defined.

(** ** The height of the description panel *)

(** ** The modifiers of [draw_text] *)

Lemma with_x_same (o : offset.t) : offset.with_x o (offset.x o) = o.
Proof. destruct o; reflexivity. Qed.

Lemma pango_modifiers_spec (ms : list modifier_type_t) (W w : Z) (off : offset.t) (b : bool) :
  pango_modifiers ms W w off b =
  (offset.with_x off (Nat.iter (centers ms) (pango_center W w) (offset.x off)),
   b || has_bold ms).
Proof.
  revert off b. induction ms as [|m ms IH]; intros off b; cbn [pango_modifiers centers has_bold].
  - cbn. rewrite with_x_same, orb_false_r. reflexivity.
  - destruct m; rewrite ?IH.
    + rewrite Nat.iter_succ_r. reflexivity.
    + rewrite orb_true_r. reflexivity.
    + reflexivity.
Qed.

Lemma cairo_modifiers_spec (ms : list modifier_type_t) (W w : Z) (off : offset.t) (b : bool) :
  cairo_modifiers ms W w off b =
  (offset.with_x off (Nat.iter (centers ms) (cairo_center W w) (offset.x off)),
   b || has_bold ms).
Proof.
  revert off b. induction ms as [|m ms IH]; intros off b; cbn [cairo_modifiers centers has_bold].
  - cbn. rewrite with_x_same, orb_false_r. reflexivity.
  - destruct m; rewrite ?IH.
    + rewrite Nat.iter_succ_r. reflexivity.
    + rewrite orb_true_r. reflexivity.
    + reflexivity.
Qed.

Lemma centers_without_bold (ms : list modifier_type_t) :
  centers (without_bold ms) = centers ms.
Proof. induction ms as [|[] ms IH]; cbn; congruence. Qed.

(** What one [CENTER] does in each build, for any run: with pango
    [draw_text] moves the run from the current offset [x] to
    [x + (W - w) / 2], without pango to [x + (W - x - w) / 2], in unsigned
    32-bit arithmetic, where [w] is the width the parser measured
    ([data_length]) and [W] the available width; the text is shown there,
    on the same baseline; and a [BOLD] among the modifiers changes nothing
    of the position, in either build. *)
Lemma center_moves_from_current_offset
    (B : backend) (d : draw.t) (text : list Z) (W : Z) (off : offset.t)
    (fg : color_t) (size : Z) :
  centers (draw.modifiers_array d) = 1%nat ->
  let w := draw.data_length d in
  let bold := has_bold (draw.modifiers_array d) in
  let xp := U32.add (offset.x off) (U32.sub W w / 2) in
  let xc := U32.add (offset.x off) (U32.sub (U32.sub W (offset.x off)) w / 2) in
  draw_text_pango B d text W off fg size =
    (offset.with_x off xp, U32.wrap (layout_pixel_width B text bold),
     [ShowText fg xp (offset.y off) bold size text]) /\
  draw_text_cairo B d text W off fg size =
    (offset.with_x off xc, U32.wrap (fst (text_extents B text)),
     [ShowText fg xc (offset.y off) bold size text]) /\
  forall d',
    draw.modifiers_array d' = without_bold (draw.modifiers_array d) ->
    draw.data_length d' = draw.data_length d ->
    fst (fst (draw_text B d' text W off fg size)) =
    fst (fst (draw_text B d text W off fg size)).
Proof.
  intros Hc w bold xp xc.
  unfold draw_text, draw_text_pango, draw_text_cairo.
  rewrite pango_modifiers_spec, cairo_modifiers_spec.
  split; [rewrite Hc; reflexivity|].
  split; [rewrite Hc; reflexivity|].
  intros d' Hms Hw.
  rewrite !pango_modifiers_spec, !cairo_modifiers_spec, Hms, Hw, centers_without_bold.
  destruct (NO_PANGO B); reflexivity.
Qed.

Lemma center_moves_from_current_offset_witness :
  draw_text_pango (Sample.backend false false)
    (draw.mk DRAW_TEXT (Some 0%nat) 20 [BOLD; CENTER]) [99; 100] 100
    (offset.mk 10 12 0) result_fg 12 =
  (offset.mk 50 12 0, 18, [ShowText result_fg 50 12 true 12 [99; 100]]).
Proof.
  refine (proj1 (center_moves_from_current_offset (Sample.backend false false)
            (draw.mk DRAW_TEXT (Some 0%nat) 20 [BOLD; CENTER]) [99; 100] 100
            (offset.mk 10 12 0) result_fg 12 _)).
  reflexivity.
Defined.

(** C3. The two builds do not agree on [CENTER], and neither do the two
    image paths.  A centered run of width 20 in an available width of
    100, with the offset at 10: with pango it is put at
    [10 + (100 - 20) / 2 = 50], as the claim reads with the current
    offset; without pango the offset is taken off once more and the run is
    put at 45, bold or not.  A centered picture of 48 by 48 in a rectangle
    of 24 by 24, with the offset at 10: with GDK the picture is scaled
    first and centered with its scaled width, at [10 + (24 - 24) / 2 = 10];
    [draw_png] centers with the natural width before it scales, and
    [24 - 48] wraps around: the picture is put at 2147483646. *)
Lemma center_differs_between_builds :
  let d := draw.mk DRAW_TEXT (Some 0%nat) 20 [CENTER] in
  let db := draw.mk DRAW_TEXT (Some 0%nat) 20 [BOLD; CENTER] in
  let i := draw.mk DRAW_IMAGE (Some 0%nat) 16 [CENTER] in
  let off := offset.mk 10 12 0 in
  let x_of (r : offset.t * Z * list op) := offset.x (fst (fst r)) in
  x_of (draw_text_pango (Sample.backend false false) d [] 100 off result_fg 12)
    = 10 + (100 - 20) / 2 /\
  x_of (draw_text_pango (Sample.backend false false) db [] 100 off result_fg 12)
    = 10 + (100 - 20) / 2 /\
  x_of (draw_text_cairo (Sample.backend true true) d [] 100 off result_fg 12) = 45 /\
  x_of (draw_text_cairo (Sample.backend true true) db [] 100 off result_fg 12) = 45 /\
  45 <> 10 + (100 - 20) / 2 /\
  draw_image_with_gdk (Sample.backend false false) i [97] off 24 24 (format.mk 0 0) =
    Done (offset.mk (10 + (24 - 24) / 2) 12 0, format.mk 24 24,
          [PaintImage (10 + (24 - 24) / 2) 0 24 24 [97]]) /\
  draw_png (Sample.backend true true) i [97] off 24 24 =
    Done (offset.mk 2147483646 12 0, format.mk 24 24,
          [PaintImage 2147483646 0 24 24 [97]]) /\
  2147483646 <> 10 + (24 - 24) / 2.
Proof. vm_compute. repeat split; congruence. Qed.
(** ** Image fitting: pictures that fit *)

Lemma get_new_size_fits (w h wx wy : Z) (fmt : format.t) :
  w <= wx -> h <= wy -> get_new_size w h wx wy fmt = Done fmt.
Proof.
  intros Hw Hh. unfold get_new_size.
  destruct (Z.ltb_spec wx w); [lia|].
  destruct (Z.ltb_spec wy h); [lia|]. reflexivity.
Qed.

(** Without gdk, a picture that fits keeps its natural size. *)
Lemma draw_png_fits (B : backend) (d : draw.t) (path : list Z) (off : offset.t)
    (wx wy iw ih : Z) :
  png_surface_size B path = Some (iw, ih) -> iw <= wx -> ih <= wy ->
  exists off' ops, draw_png B d path off wx wy = Done (off', format.mk iw ih, ops).
Proof.
  intros Hp Hw Hh. unfold draw_png. rewrite Hp. cbn.
  destruct (Z.ltb_spec wx iw); [lia|].
  destruct (Z.ltb_spec wy ih); [lia|]. cbn.
  eexists; eexists; reflexivity.
Qed.

(** With gdk, a picture that fits leaves [draw_image_with_gdk] with the
    format it was given, whatever the natural size. *)
Lemma draw_image_with_gdk_fits (B : backend) (d : draw.t) (path : list Z)
    (off : offset.t) (wx wy iw ih : Z) (fmt : format.t) :
  gdk_pixbuf_size B path = Some (iw, ih) -> iw <= wx -> ih <= wy ->
  exists off' ops, draw_image_with_gdk B d path off wx wy fmt = Done (off', fmt, ops).
Proof.
  intros Hp Hw Hh. unfold draw_image_with_gdk. rewrite Hp.
  rewrite get_new_size_fits by assumption. cbn.
  eexists; eexists; reflexivity.
Qed.

(** C4. A picture of 48 by 48 in a rectangle of 100 by 100 is to keep its
    natural size.  In the build with gdk, [get_new_size] leaves the format
    untouched, and the format that [draw_image] passes is [{0, 0}]: the
    picture is scaled to 0 by 0 and the caller advances by nothing.  The
    build without gdk ([draw_png]) returns 48 by 48. *)
Theorem gdk_fitting_image_gets_zero_size :
  let d := draw.mk DRAW_IMAGE (Some 0%nat) 0 [] in
  let buf := [97; 46; 112; 110; 103; 0] in
  let off := offset.mk 10 12 0 in
  gdk_pixbuf_size (Sample.backend false false) (cstring buf 0) = Some (48, 48) /\
  get_new_size 48 48 100 100 (format.mk 0 0) = Done (format.mk 0 0) /\
  draw_image (Sample.backend false false) d buf off 100 100 =
    Done (format.mk 0 0, [PaintImage 10 0 0 0 [97; 46; 112; 110; 103]]) /\
  draw_image (Sample.backend true true) d buf off 100 100 =
    Done (format.mk 48 48, [PaintImage 10 0 48 48 [97; 46; 112; 110; 103]]).
Proof. vm_compute. repeat split. Qed.

(** ** The text buffer *)

Lemma insert_restore (l : list Z) (i : nat) (v saved : Z) :
  l !! i = Some saved -> <[i := saved]> (<[i := v]> l) = l.
Proof.
  intros H. rewrite list_insert_insert_eq. apply list_insert_id. exact H.
Qed.

Lemma add_zero_in_range (z : Z) : U32.in_range z -> U32.add z 0 = z.
Proof. intros H. unfold U32.add. rewrite Z.add_0_r. apply wrap_small, H. Qed.

(** ** Images that are not there *)

Lemma draw_image_unavailable (B : backend) (d : draw.t) (buf : list Z) (p : nat)
    (off : offset.t) (wx wy : Z) :
  draw.data d = Some p ->
  cannot_locate B (expanded_path B (cstring buf p)) \/
  cannot_decode B (expanded_path B (cstring buf p)) ->
  fgetc_first B (expanded_path B (cstring buf p)) <> None ->
  U32.in_range wx -> U32.in_range wy ->
  exists ops, draw_image B d buf off wx wy = Done (format.mk 0 0, ops).
Proof.
  intros Hd Hfail Hopens Hwx Hwy. unfold draw_image. rewrite Hd.
  destruct Hfail as [Hloc | (Hacc & Hdec)].
  - unfold cannot_locate in Hloc. rewrite Hloc. cbn. eexists; reflexivity.
  - rewrite Hacc.
    destruct (fgetc_first B (expanded_path B (cstring buf p))) as [magic|];
      [|contradiction].
    cbn.
    destruct (NO_GDK B).
    + destruct (Z.eqb_spec magic 137) as [Hm|Hm]; [|eexists; reflexivity].
      unfold draw_png. rewrite (Hdec Hm). cbn.
      destruct (Z.ltb_spec wx 0); [unfold U32.in_range in Hwx; lia|].
      destruct (Z.ltb_spec wy 0); [unfold U32.in_range in Hwy; lia|].
      cbn. eexists; reflexivity.
    + destruct (Z.eqb_spec magic 137) as [Hm|Hm]; cbn.
      { unfold draw_image_with_gdk. rewrite Hdec by tauto. cbn. eexists; reflexivity. }
      destruct (Z.eqb_spec magic 255) as [Hm2|Hm2]; cbn.
      { unfold draw_image_with_gdk. rewrite Hdec by tauto. cbn. eexists; reflexivity. }
      destruct (Z.eqb_spec magic 47) as [Hm3|Hm3]; cbn.
      { unfold draw_image_with_gdk. rewrite Hdec by tauto. cbn. eexists; reflexivity. }
      eexists; reflexivity.
Qed.

(** Where the file is not found, or is opened and not decoded, a run of
    type [DRAW_IMAGE] advances nothing: [draw_image] returns the format
    [{0, 0}]; the loop of [draw_line] goes on to the next run with the
    same buffer and the same offset; the loop of [draw_desc] goes on with
    the x offset as it was, before its usual test for the end of the
    panel. *)
Lemma unavailable_image_advances_nothing
    (B : backend) (s : settings.t) (text : list Z) (c c' : nat) (d : draw.t) (p : nat)
    (ms ms' : list modifier_type_t) (off : offset.t) (b saved : Z) :
  text !! c = Some b -> b <> 0 ->
  text !! c' = Some saved ->
  draw.type d = DRAW_IMAGE -> draw.data d = Some p ->
  cannot_locate B (expanded_path B (cstring (<[c' := 0]> text) p)) \/
  cannot_decode B (expanded_path B (cstring (<[c' := 0]> text) p)) ->
  fgetc_first B (expanded_path B (cstring (<[c' := 0]> text) p)) <> None ->
  U32.in_range (settings.height s) ->
  U32.in_range (offset.x off) -> U32.in_range (offset.image_y off) ->
  (forall wx wy, U32.in_range wx -> U32.in_range wy ->
     exists ops, draw_image B d (<[c' := 0]> text) off wx wy = Done (format.mk 0 0, ops)) /\
  (parse_result_line B text c (U32.sub (settings.width s) (offset.x off)) ms = (d, c', ms') ->
   forall fuel fg, exists ops,
     draw_line_loop B s (S fuel) fg text c off ms =
     let* k := draw_line_loop B s fuel fg text c' off ms' in
     Done (fst k, ops ++ snd k)) /\
  (parse_result_line B text c (desc_line_width B s off) ms = (d, c', ms') ->
   forall fuel g fg, exists ops,
     draw_desc_loop B s (S fuel) g fg text c off ms =
     let* k := draw_desc_loop B s fuel g fg text c'
                 (desc_wrap s g (offset.mk (offset.x off) (offset.image_y off)
                                           (offset.image_y off))) ms' in
     Done (fst k, ops ++ snd k)).
Proof.
  intros Hc Hb Hc' Hty Hd Hfail Hopens Hh Hx Hy.
  assert (Hb' : (b =? 0) = false) by (apply Z.eqb_neq; exact Hb).
  split; [|split].
  - intros wx wy Hwx Hwy. eapply draw_image_unavailable; eassumption.
  - intros Hparse fuel fg.
    destruct (draw_image_unavailable B d (<[c' := 0]> text) p off
                (U32.sub (settings.width s) (offset.x off)) (settings.height s) Hd Hfail
                Hopens)
      as [ops Hops]; [apply wrap_in_range | exact Hh |].
    exists ops. cbn [draw_line_loop]. rewrite Hc, Hb', Hparse, Hd, Hc'.
    unfold draw_line_run. rewrite Hty, Hops. cbn.
    rewrite add_zero_in_range by exact Hx.
    rewrite insert_restore by exact Hc'.
    destruct off; reflexivity.
  - intros Hparse fuel g fg.
    destruct (draw_image_unavailable B d (<[c' := 0]> text) p off
                (U32.sub (settings.desc_size s) (U32.sub (offset.x off) (settings.width s)))
                (U32.sub (desc_height s g) (offset.image_y off)) Hd Hfail Hopens)
      as [ops Hops]; [apply wrap_in_range | apply wrap_in_range |].
    exists ops. cbn [draw_desc_loop]. rewrite Hc, Hb', Hparse, Hc'.
    unfold draw_desc_run. rewrite Hty, Hops. cbn.
    rewrite !add_zero_in_range by assumption.
    rewrite insert_restore by exact Hc'.
    reflexivity.
Qed.

Lemma unavailable_image_advances_nothing_witness :
  exists ops,
    draw_line_loop (Sample.backend false false) Sample.rows5 5 result_fg Sample.text1
      6 (offset.mk 76 32 20) [] =
    let* k := draw_line_loop (Sample.backend false false) Sample.rows5 4 result_fg
                Sample.text1 10 (offset.mk 76 32 20) [] in
    Done (fst k, ops ++ snd k).
Proof.
  refine (proj1 (proj2 (unavailable_image_advances_nothing (Sample.backend false false)
            Sample.rows5 Sample.text1 6 10 (draw.mk DRAW_IMAGE (Some 8%nat) 16 []) 8
            [] [] (offset.mk 76 32 20) 32 32 _ _ _ _ _ _ _ _ _ _)) _ 4%nat result_fg).
  - reflexivity.
  - discriminate.
  - reflexivity.
  - reflexivity.
  - reflexivity.
  - left. reflexivity.
  - discriminate.
  - unfold U32.in_range, U32.modulus; cbn; lia.
  - unfold U32.in_range, U32.modulus; cbn; lia.
  - unfold U32.in_range, U32.modulus; cbn; lia.
  - reflexivity.
Defined.

(** C6. A file that is found and cannot be opened aborts the paint.
    [access (path, F_OK)] finds the file, [fopen] returns null, and
    [draw_image] hands the null to [fgetc] without a test.  For the text
    ["ab @#p cd"], where the file ["#p"] exists and cannot be read, the
    run cannot be decoded, and [draw_image], the paint of the row, the
    paint of the description and the whole repaint end in a fault, in
    both builds, where the same text with a file that is not found is
    painted to its end. *)
Lemma unopenable_image_aborts_the_paint :
  let text := [97; 98; 32; 64; 35; 112; 32; 99; 100; 0] in
  let gone := [97; 98; 32; 64; 33; 112; 32; 99; 100; 0] in
  let d := draw.mk DRAW_IMAGE (Some 4%nat) 16 [] in
  let g := Sample.scroll_state 1 0 0 in
  forall no_gdk : bool,
    let B := locked_backend no_gdk in
    parse_result_line B text 2 76 [] = (d, 6%nat, []) /\
    expanded_path B (cstring (<[6%nat := 0]> text) 4) = [35; 112] /\
    cannot_decode B [35; 112] /\
    draw_image B d (<[6%nat := 0]> text) (offset.mk 34 32 20) 76 20 = Fault /\
    draw_line B Sample.rows5 20 g text 1 result_fg result_bg = Fault /\
    draw_desc B Sample.rows5 20 g text highlight_fg highlight_bg = Fault /\
    redraw_all B Sample.rows5 20 g [result.mk text None None] Sample.text3 2 = Fault /\
    draw_line (Sample.backend false no_gdk) Sample.rows5 20 g gone 1 result_fg result_bg =
      Done (gone,
            [Rectangle result_bg 0 22 110 40; ShowText result_fg 10 32 false 12 [97; 98];
             ShowText result_fg 26 32 false 12 [32; 99; 100]]).
Proof.
  intros text gone d g no_gdk B.
  destruct no_gdk; vm_compute; repeat split; exact I.
Qed.
(** ** The text buffer is given back as it was *)

Lemma draw_line_loop_buffer (B : backend) (s : settings.t) (fuel : nat) :
  forall (fg : color_t) (buf : list Z) (c : nat) (off : offset.t)
         (ms : list modifier_type_t) (buf' : list Z) (ops : list op),
    draw_line_loop B s fuel fg buf c off ms = Done (buf', ops) -> buf' = buf.
Proof.
  induction fuel as [|fuel IH]; intros fg buf c off ms buf' ops H; cbn in H.
  - discriminate.
  - destruct (buf !! c) as [b|] eqn:Hc; [|discriminate].
    destruct (b =? 0); [congruence|].
    destruct (parse_result_line B buf c _ ms) as [[d c'] ms'].
    destruct (draw.data d); [|congruence].
    destruct (buf !! c') as [saved|] eqn:Hc'; [|discriminate].
    destruct (draw_line_run B s fg _ d off) as [r| |]; cbn in H; try discriminate.
    rewrite insert_restore in H by exact Hc'.
    destruct (draw_line_loop B s fuel fg buf c' r.1 ms') as [k| |] eqn:Hk;
      cbn in H; try discriminate.
    destruct k as [kb kops]. apply IH in Hk. cbn in H. congruence.
Qed.

Lemma draw_desc_loop_buffer (B : backend) (s : settings.t) (fuel : nat) :
  forall (g : global.t) (fg : color_t) (buf : list Z) (c : nat) (off : offset.t)
         (ms : list modifier_type_t) (buf' : list Z) (ops : list op),
    draw_desc_loop B s fuel g fg buf c off ms = Done (buf', ops) -> buf' = buf.
Proof.
  induction fuel as [|fuel IH]; intros g fg buf c off ms buf' ops H; cbn in H.
  - discriminate.
  - destruct (buf !! c) as [b|] eqn:Hc; [|discriminate].
    destruct (b =? 0); [congruence|].
    destruct (parse_result_line B buf c _ ms) as [[d c'] ms'].
    destruct (buf !! c') as [saved|] eqn:Hc'; [|discriminate].
    destruct (draw_desc_run B s g fg _ d off) as [r| |]; cbn in H; try discriminate.
    rewrite insert_restore in H by exact Hc'.
    destruct (draw_desc_loop B s fuel g fg buf c' _ ms') as [k| |] eqn:Hk;
      cbn in H; try discriminate.
    destruct k as [kb kops]. apply IH in Hk. cbn in H. congruence.
Qed.

(** [draw_typed_line] returns, with the text as it was, as soon as the
    cursor is inside the buffer. *)
Lemma draw_typed_line_returns (B : backend) (s : settings.t) (g : global.t)
    (text : list Z) (line : Z) (cursor : nat) (fg bg : color_t) :
  (cursor < length text)%nat ->
  exists ops, draw_typed_line B s g text line cursor fg bg = Done (text, ops).
Proof.
  intros Hlt. unfold draw_typed_line.
  destruct (lookup_lt_is_Some_2 text cursor Hlt) as [saved Hs]. rewrite Hs.
  rewrite insert_restore by exact Hs.
  destruct (text_extents B (cstring text 0)) as [adv w].
  match goal with
  | |- context [if ?c then (?a, ?b) else (?a', ?b')] => destruct c
  end; eexists; reflexivity.
Qed.

(** C10. Each paint that writes a terminator into the text it was given
    puts the saved byte back: after [draw_typed_line], [draw_line] and
    [draw_desc] the buffer is byte for byte what it was before the call. *)
Theorem text_buffer_unchanged_by_paints (B : backend) (s : settings.t) :
  (forall g text line cursor fg bg text' ops,
     draw_typed_line B s g text line cursor fg bg = Done (text', ops) -> text' = text) /\
  (forall fuel g text line fg bg text' ops,
     draw_line B s fuel g text line fg bg = Done (text', ops) -> text' = text) /\
  (forall fuel g text fg bg text' ops,
     draw_desc B s fuel g text fg bg = Done (text', ops) -> text' = text).
Proof.
  split; [|split].
  - intros g text line cursor fg bg text' ops H.
    destruct (text !! cursor) as [saved|] eqn:Hs.
    + destruct (draw_typed_line_returns B s g text line cursor fg bg) as [ops' H'].
      { eapply lookup_lt_Some; exact Hs. }
      congruence.
    + unfold draw_typed_line in H. rewrite Hs in H. discriminate.
  - intros fuel g text line fg bg text' ops H. unfold draw_line in H.
    destruct (draw_line_loop B s fuel fg text 0 _ []) as [[kb kops]| |] eqn:Hk;
      cbn in H; try discriminate.
    apply draw_line_loop_buffer in Hk. congruence.
  - intros fuel g text fg bg text' ops H. unfold draw_desc in H.
    destruct (draw_desc_loop B s fuel g fg text 0 _ []) as [[kb kops]| |] eqn:Hk;
      cbn in H; try discriminate.
    apply draw_desc_loop_buffer in Hk. congruence.
Qed.

Lemma text_buffer_unchanged_by_paints_witness :
  exists ops,
    draw_line (Sample.backend false false) Sample.rows5 20 (Sample.scroll_state 3 0 0)
      Sample.text1 1 result_fg result_bg = Done (Sample.text1, ops).
Proof.
  destruct (draw_line (Sample.backend false false) Sample.rows5 20
              (Sample.scroll_state 3 0 0) Sample.text1 1 result_fg result_bg)
    as [[text' ops]| |] eqn:E.
  - exists ops.
    rewrite (proj1 (proj2 (text_buffer_unchanged_by_paints (Sample.backend false false)
               Sample.rows5)) _ _ _ _ _ _ _ _ E).
    reflexivity.
  - vm_compute in E. discriminate.
  - vm_compute in E. discriminate.
Defined.

(** ** The loops come to an end *)

Lemma to_u32_no_timeout (f : spec_float) : F32.to_u32 f <> Timeout.
Proof.
  destruct f as [sg|sg| |sg m e]; cbn; try discriminate.
  destruct sg; [destruct (_ =? 0)|destruct (_ <? _)]; discriminate.
Qed.

Lemma scaled_format_no_timeout (w h X Y : Z) : scaled_format w h X Y <> Timeout.
Proof.
  unfold scaled_format.
  set (prop := F32.fmin _ _).
  pose proof (to_u32_no_timeout (F32.mul prop (F32.of_u32 w))) as H1.
  pose proof (to_u32_no_timeout (F32.mul prop (F32.of_u32 h))) as H2.
  destruct (F32.to_u32 (F32.mul prop (F32.of_u32 w))); cbn; try congruence.
  destruct (F32.to_u32 (F32.mul prop (F32.of_u32 h))); cbn; congruence.
Qed.

Lemma draw_image_no_timeout (B : backend) (d : draw.t) (buf : list Z) (off : offset.t)
    (wx wy : Z) : draw_image B d buf off wx wy <> Timeout.
Proof.
  unfold draw_image.
  destruct (draw.data d); [|discriminate].
  destruct (negb _); [discriminate|].
  destruct (fgetc_first B _) as [magic|]; [|discriminate].
  destruct (NO_GDK B).
  - destruct (magic =? 137); [|discriminate].
    unfold draw_png.
    match goal with
    | |- context [if ?c then scaled_format ?a ?b ?x ?y else Done ?f] =>
        pose proof (scaled_format_no_timeout a b x y) as Hs;
        destruct c; [destruct (scaled_format a b x y)|]; cbn; congruence
    end.
  - destruct (_ || _); [|discriminate].
    unfold draw_image_with_gdk.
    destruct (gdk_pixbuf_size B _) as [[iw ih]|]; [|discriminate].
    unfold get_new_size.
    match goal with
    | |- context [if ?c then scaled_format ?a ?b ?x ?y else Done ?f] =>
        pose proof (scaled_format_no_timeout a b x y) as Hs;
        destruct c; [destruct (scaled_format a b x y)|]; cbn; congruence
    end.
Qed.

Lemma draw_line_run_no_timeout (B : backend) (s : settings.t) (fg : color_t)
    (buf : list Z) (d : draw.t) (off : offset.t) :
  draw_line_run B s fg buf d off <> Timeout.
Proof.
  unfold draw_line_run. destruct (draw.type d); try discriminate.
  - match goal with
    | |- context [draw_image ?b ?d ?f ?o ?x ?y] =>
        pose proof (draw_image_no_timeout b d f o x y) as Hi;
        destruct (draw_image b d f o x y); cbn; congruence
    end.
  - destruct (draw_text B d _ _ off fg _) as [[off' w] ops]. discriminate.
Qed.

Lemma draw_desc_run_no_timeout (B : backend) (s : settings.t) (g : global.t)
    (fg : color_t) (buf : list Z) (d : draw.t) (off : offset.t) :
  draw_desc_run B s g fg buf d off <> Timeout.
Proof.
  unfold draw_desc_run. destruct (draw.type d); try discriminate.
  - match goal with
    | |- context [draw_image ?b ?d ?f ?o ?x ?y] =>
        pose proof (draw_image_no_timeout b d f o x y) as Hi;
        destruct (draw_image b d f o x y); cbn; congruence
    end.
  - destruct (draw_text B d _ _ off fg _) as [[off' w] ops]. discriminate.
Qed.

(** With such a parser and as much fuel as the buffer is long, the loop
    of [draw_line] does not run out of fuel: it returns, or it stops on an
    access that C leaves undefined. *)
Lemma draw_line_loop_no_timeout (B : backend) (s : settings.t) (fuel : nat) :
  forall (fg : color_t) (buf : list Z) (c : nat) (off : offset.t)
         (ms : list modifier_type_t),
    parser_advances B buf -> (length buf - c < fuel)%nat ->
    draw_line_loop B s fuel fg buf c off ms <> Timeout.
Proof.
  induction fuel as [|fuel IH]; intros fg buf c off ms Hadv Hfuel; [lia|].
  cbn [draw_line_loop].
  destruct (buf !! c) as [b|] eqn:Hc; [|discriminate].
  destruct (b =? 0); [discriminate|].
  pose proof (Hadv c (U32.sub (settings.width s) (offset.x off)) ms) as Hlt.
  destruct (parse_result_line B buf c _ ms) as [[d c'] ms']. cbn in Hlt.
  destruct (draw.data d); [|discriminate].
  destruct (buf !! c') as [saved|] eqn:Hc'; [|discriminate].
  pose proof (draw_line_run_no_timeout B s fg (<[c' := 0]> buf) d off) as Hrun.
  destruct (draw_line_run B s fg _ d off) as [r| |]; cbn; try congruence.
  rewrite insert_restore by exact Hc'.
  apply lookup_lt_Some in Hc'.
  specialize (IH fg buf c' r.1 ms' Hadv ltac:(lia)).
  destruct (draw_line_loop B s fuel fg buf c' r.1 ms'); cbn; congruence.
Qed.

Lemma draw_desc_loop_no_timeout (B : backend) (s : settings.t) (fuel : nat) :
  forall (g : global.t) (fg : color_t) (buf : list Z) (c : nat) (off : offset.t)
         (ms : list modifier_type_t),
    parser_advances B buf -> (length buf - c < fuel)%nat ->
    draw_desc_loop B s fuel g fg buf c off ms <> Timeout.
Proof.
  induction fuel as [|fuel IH]; intros g fg buf c off ms Hadv Hfuel; [lia|].
  cbn [draw_desc_loop].
  destruct (buf !! c) as [b|] eqn:Hc; [|discriminate].
  destruct (b =? 0); [discriminate|].
  pose proof (Hadv c (desc_line_width B s off) ms) as Hlt.
  destruct (parse_result_line B buf c _ ms) as [[d c'] ms']. cbn in Hlt.
  destruct (buf !! c') as [saved|] eqn:Hc'; [|discriminate].
  pose proof (draw_desc_run_no_timeout B s g fg (<[c' := 0]> buf) d off) as Hrun.
  destruct (draw_desc_run B s g fg _ d off) as [r| |]; cbn; try congruence.
  rewrite insert_restore by exact Hc'.
  apply lookup_lt_Some in Hc'.
  specialize (IH g fg buf c' (desc_wrap s g r.1) ms' Hadv ltac:(lia)).
  destruct (draw_desc_loop B s fuel g fg buf c' _ ms'); cbn; congruence.
Qed.

(** ** The order of the paints *)

Lemma clamp_highlight_in_range (g : global.t) :
  global.scroll_in_range g ->
  global.scroll_in_range (clamp_highlight g) /\
  global.result_count (clamp_highlight g) = global.result_count g /\
  global.result_offset (clamp_highlight g) = global.result_offset g /\
  (0 < global.result_count g ->
   global.result_highlight (clamp_highlight g) < global.result_count g).
Proof.
  destruct g as [count hl off a b c d e].
  unfold global.scroll_in_range, clamp_highlight; cbn.
  intros (Hc & Hh & Ho). split_tests; cbn; repeat split; try assumption; try unwrap.
Qed.

Lemma set_offset_within_count (maxr : Z) (g : global.t) :
  global.scroll_in_range g -> U32.in_range maxr ->
  (0 < global.result_count g -> global.result_highlight g < global.result_count g) ->
  global.scroll_in_range (fst (set_offset maxr g)) /\
  0 <= snd (set_offset maxr g) /\
  global.result_offset (fst (set_offset maxr g)) + snd (set_offset maxr g)
    <= global.result_count g.
Proof.
  destruct g as [count hl off a b c d e].
  unfold global.scroll_in_range, set_offset, cmin; cbn.
  intros (Hc & Hh & Ho) Hm Hlt.
  split_tests; cbn; repeat split; try assumption; try unwrap.
Qed.

Lemma draw_rows_events (B : backend) (s : settings.t) (n : nat) :
  forall (fuel : nat) (g : global.t) (results : list result.t) (index line bound : Z)
         (results' : list result.t) (evs : list event),
    0 <= index -> bound < U32.modulus ->
    draw_rows B s n fuel g results index line bound = Done (results', evs) ->
    length evs = Z.to_nat (bound - index) /\
    forall i : nat, (i < length evs)%nat ->
      exists fg bg ops,
        evs !! i = Some (PaintRow (index + Z.of_nat i) (line + Z.of_nat i) fg bg ops).
Proof.
  induction n as [|n IH]; intros fuel g results index line bound results' evs Hi Hb H;
    cbn in H; destruct (Z.ltb_spec index bound) as [Hlt|Hge]; try discriminate.
  - injection H as _ <-. cbn. split; [lia|]. intros i Hlen. lia.
  - destruct (results !! Z.to_nat index) as [r|]; [|discriminate].
    destruct (row_colors g r index) as [fg bg] eqn:Hcol.
    destruct (draw_line B s fuel g (result.text r) line fg bg) as [k| |];
      cbn in H; try discriminate.
    destruct (draw_rows B s n fuel g _ (U32.add index 1) (line + 1) bound)
      as [rest| |] eqn:Hrest; cbn in H; try discriminate.
    injection H as _ <-.
    assert (Hnext : U32.add index 1 = index + 1) by unwrap.
    rewrite Hnext in Hrest.
    destruct rest as [rs revs]. apply IH in Hrest; [|lia|lia].
    destruct Hrest as [Hlen Hrows]. cbn. split; [lia|].
    intros [|i] Hi'.
    + exists fg, bg, k.2. cbn. rewrite !Z.add_0_r. reflexivity.
    + destruct (Hrows i) as (fg' & bg' & ops' & Hev); [lia|].
      exists fg', bg', ops'. change ((_ :: revs) !! S i) with (revs !! i).
      rewrite Hev. do 2 f_equal; lia.
  - injection H as _ <-. cbn. split; [lia|]. intros i Hlen. lia.
Qed.

Lemma draw_panel_events (B : backend) (s : settings.t) (fuel : nat) (g : global.t)
    (results results' : list result.t) (evs : list event) :
  draw_panel B s fuel g results = Done (results', evs) ->
  Forall (fun e => is_row e = false /\ is_flush e = false) evs.
Proof.
  unfold draw_panel, resize_plain, resize_with_desc. intros H.
  destruct (global.result_highlight g <? global.result_count g).
  - destruct (results !! Z.to_nat (global.result_highlight g)) as [r|]; [|discriminate].
    destruct (result.desc r) as [text|].
    + destruct (draw_desc B s fuel g text highlight_fg highlight_bg) as [k| |];
        cbn in H; try discriminate.
      injection H as _ <-. destruct (settings.auto_center s); repeat constructor.
    + injection H as _ <-. destruct (settings.auto_center s); repeat constructor.
  - injection H as _ <-. destruct (settings.auto_center s); repeat constructor.
Qed.

(** C9 as stated fails on its last part: [draw_query_text] flushes the
    surface as soon as the query line is painted, before any row.  In a
    repaint of three results the events 1 and 5 are a flush and a row. *)
Lemma surface_flushed_before_rows :
  exists g results query evs,
    redraw_all (Sample.backend false false) Sample.rows5 20 (Sample.scroll_state 3 0 0)
      Sample.results3 Sample.text3 2 = Done (g, results, query, evs) /\
    evs !! 1%nat = Some SurfaceFlush /\
    (exists fg bg ops, evs !! 5%nat = Some (PaintRow 0 1 fg bg ops)) /\
    ~ flush_only_after_rows evs.
Proof.
  eexists; eexists; eexists; eexists.
  split; [vm_compute; reflexivity|].
  split; [reflexivity|].
  split; [eexists; eexists; eexists; reflexivity|].
  intros H. specialize (H 1%nat 5%nat _ eq_refl eq_refl eq_refl). lia.
Qed.
(** ** Facts about the floats *)

Lemma digits2_pos_bounds (p : positive) :
  2 ^ (Z.pos (digits2_pos p) - 1) <= Z.pos p < 2 ^ Z.pos (digits2_pos p).
Proof.
  induction p as [p IH|p IH|]; cbn [digits2_pos].
  - rewrite Pos2Z.inj_succ. replace (Z.succ (Z.pos (digits2_pos p)) - 1) with (Z.pos (digits2_pos p) - 1 + 1) by lia.
    rewrite Z.pow_succ_r by lia. rewrite Z.pow_add_r by lia.
    change (2 ^ 1) with 2. lia.
  - rewrite Pos2Z.inj_succ. replace (Z.succ (Z.pos (digits2_pos p)) - 1) with (Z.pos (digits2_pos p) - 1 + 1) by lia.
    rewrite Z.pow_succ_r by lia. rewrite Z.pow_add_r by lia.
    change (2 ^ 1) with 2. lia.
  - cbn. lia.
Qed.

Lemma digits2_pos_unique (p : positive) (d : Z) :
  2 ^ (d - 1) <= Z.pos p < 2 ^ d -> Z.pos (digits2_pos p) = d.
Proof.
  intros [Hlo Hhi]. pose proof (digits2_pos_bounds p) as [Hlo' Hhi'].
  assert (0 < d).
  { destruct (Z.lt_ge_cases 0 d) as [|Hd]; [assumption|].
    destruct (Z.eq_dec d 0) as [->|]; [cbn in Hhi; lia|].
    rewrite Z.pow_neg_r in Hhi by lia. lia. }
  destruct (Z.lt_trichotomy (Z.pos (digits2_pos p)) d) as [Hlt|[Heq|Hgt]]; [|exact Heq|].
  - assert (2 ^ Z.pos (digits2_pos p) <= 2 ^ (d - 1)) by (apply Z.pow_le_mono_r; lia). lia.
  - assert (2 ^ d <= 2 ^ (Z.pos (digits2_pos p) - 1)) by (apply Z.pow_le_mono_r; lia). lia.
Qed.

Lemma iter_pos_nat {A : Type} (f : A -> A) (p : positive) (x : A) :
  SpecFloat.iter_pos f p x = Nat.iter (Pos.to_nat p) f x.
Proof.
  revert x. induction p as [p IH|p IH|]; intros x; cbn [SpecFloat.iter_pos].
  - rewrite !IH. rewrite Pos2Nat.inj_xI.
    replace (S (2 * Pos.to_nat p)) with (Pos.to_nat p + (Pos.to_nat p + 1))%nat by lia.
    rewrite !Nat.iter_add. reflexivity.
  - rewrite !IH. rewrite Pos2Nat.inj_xO.
    replace (2 * Pos.to_nat p)%nat with (Pos.to_nat p + Pos.to_nat p)%nat by lia.
    rewrite Nat.iter_add. reflexivity.
  - reflexivity.
Qed.

Lemma shr_1_m (r : shr_record) : 0 <= shr_m r -> shr_m (shr_1 r) = shr_m r / 2.
Proof.
  destruct r as [m rb sb]. cbn [shr_m]. intros Hm. unfold shr_1.
  destruct m as [|[p|p|]|p]; cbn [shr_m]; try lia.
  - reflexivity.
  - apply Z.div_unique with 1; lia.
  - apply Z.div_unique with 0; lia.
  - reflexivity.
Qed.

Lemma shr_iter_m (k : nat) (r : shr_record) :
  0 <= shr_m r -> shr_m (Nat.iter k shr_1 r) = shr_m r / 2 ^ Z.of_nat k.
Proof.
  intros Hm. induction k as [|k IH].
  - cbn. rewrite Z.div_1_r. reflexivity.
  - rewrite Nat.iter_succ. rewrite shr_1_m.
    + rewrite IH. rewrite Z.div_div by (try apply Z.pow_pos_nonneg; lia).
      rewrite Nat2Z.inj_succ, Z.pow_succ_r by lia. f_equal. lia.
    + rewrite IH. apply Z.div_pos; [lia|]. apply Z.pow_pos_nonneg; lia.
Qed.

Lemma shr_m_spec (r : shr_record) (e n : Z) :
  0 <= shr_m r -> 0 <= n ->
  shr_m (fst (shr r e n)) = shr_m r / 2 ^ n /\ snd (shr r e n) = e + n.
Proof.
  intros Hm Hn. unfold shr. destruct n as [|p|p]; cbn [fst snd].
  - rewrite Z.div_1_r. split; [reflexivity|lia].
  - rewrite iter_pos_nat, shr_iter_m by exact Hm.
    rewrite positive_nat_Z. split; reflexivity.
  - lia.
Qed.

Lemma shr_record_of_loc_m (m : Z) (l : location) : shr_m (shr_record_of_loc m l) = m.
Proof. destruct l as [|[]]; reflexivity. Qed.

Lemma round_nearest_even_range (m : Z) (l : location) :
  m <= round_nearest_even m l <= m + 1.
Proof.
  unfold round_nearest_even. destruct l as [|[]]; try lia.
  destruct (Z.even m); lia.
Qed.

Lemma Zdigits2_unique (z d : Z) : 2 ^ (d - 1) <= z < 2 ^ d -> 0 < z -> Zdigits2 z = d.
Proof.
  intros H Hz. destruct z as [|p|p]; try lia. cbn [Zdigits2].
  apply digits2_pos_unique. exact H.
Qed.

Lemma Zdigits2_bounds (z : Z) : 0 < z -> 2 ^ (Zdigits2 z - 1) <= z < 2 ^ Zdigits2 z.
Proof.
  intros Hz. destruct z as [|p|p]; try lia. cbn [Zdigits2]. apply digits2_pos_bounds.
Qed.

Lemma fexp_normal (e : Z) : -125 <= e -> fexp 24 128 e = e - 24.
Proof. intros H. unfold fexp, emin. lia. Qed.

Lemma pow2_split (a b : Z) : 0 <= a -> 0 <= b -> 2 ^ (a + b) = 2 ^ a * 2 ^ b.
Proof. intros. apply Z.pow_add_r; assumption. Qed.

(** The mantissa kept when [n] bits are dropped from a mantissa of
    [n + 24] digits has 24 digits. *)
Lemma kept_mantissa_digits (mx n : Z) :
  0 <= n -> 2 ^ (n + 24 - 1) <= mx < 2 ^ (n + 24) ->
  2 ^ 23 <= mx / 2 ^ n < 2 ^ 24.
Proof.
  intros Hn [Hlo Hhi].
  assert (Hp : 0 < 2 ^ n) by (apply Z.pow_pos_nonneg; lia).
  replace (n + 24 - 1) with (n + 23) in Hlo by lia.
  rewrite pow2_split in Hlo, Hhi by lia.
  split.
  - apply Z.div_le_lower_bound; lia.
  - apply Z.div_lt_upper_bound; lia.
Qed.

(** Rounding a mantissa of at least 24 digits, away from the subnormal
    and the infinite: the result is a finite float of 24 digits, one of
    the two that surround the value. *)
Lemma binary_round_aux_spec (mx ex : Z) (lx : location) :
  0 < mx -> 24 <= Zdigits2 mx ->
  -125 <= Zdigits2 mx + ex <= 127 ->
  exists (m : positive) (e : Z),
    binary_round_aux 24 128 false mx ex lx = S754_finite false m e /\
    Z.pos (digits2_pos m) = 24 /\
    0 <= e - (ex + (Zdigits2 mx - 24)) <= 1 /\
    mx / 2 ^ (Zdigits2 mx - 24)
      <= Z.pos m * 2 ^ (e - (ex + (Zdigits2 mx - 24)))
      <= mx / 2 ^ (Zdigits2 mx - 24) + 1.
Proof.
  intros Hmx Hd Hrange.
  set (d := Zdigits2 mx) in *. set (n := d - 24).
  pose proof (Zdigits2_bounds mx Hmx) as Hb. fold d in Hb.
  assert (Hn : 0 <= n) by (unfold n; lia).
  assert (Hfl : 2 ^ 23 <= mx / 2 ^ n < 2 ^ 24).
  { apply kept_mantissa_digits; [exact Hn|]. replace (n + 24) with d by (unfold n; lia). exact Hb. }
  unfold binary_round_aux.
  assert (Hs1 : shr_fexp 24 128 mx ex lx =
                (fst (shr (shr_record_of_loc mx lx) ex n), ex + n)).
  { unfold shr_fexp. fold d. rewrite fexp_normal by lia.
    replace (d + ex - 24 - ex) with n by (unfold n; lia).
    destruct (shr_m_spec (shr_record_of_loc mx lx) ex n) as [_ He];
      [rewrite shr_record_of_loc_m; lia | exact Hn |].
    rewrite <- He. apply surjective_pairing. }
  rewrite Hs1.
  set (mrs := fst (shr (shr_record_of_loc mx lx) ex n)).
  assert (Hm1 : shr_m mrs = mx / 2 ^ n).
  { unfold mrs. destruct (shr_m_spec (shr_record_of_loc mx lx) ex n) as [Hm _];
      [rewrite shr_record_of_loc_m; lia | exact Hn |].
    rewrite Hm, shr_record_of_loc_m. reflexivity. }
  pose proof (round_nearest_even_range (shr_m mrs) (loc_of_shr_record mrs)) as Hr.
  set (mr := round_nearest_even (shr_m mrs) (loc_of_shr_record mrs)) in *.
  rewrite Hm1 in Hr.
  destruct (Z.lt_ge_cases mr (2 ^ 24)) as [Hlt|Hge].
  - (* no carry: the second shift is by nothing *)
    assert (Hd2 : Zdigits2 mr = 24) by (apply Zdigits2_unique; cbn; lia).
    unfold shr_fexp. rewrite Hd2, fexp_normal by lia.
    replace (24 + (ex + n) - 24 - (ex + n)) with 0 by lia.
    cbn [shr shr_record_of_loc shr_m].
    destruct mr as [|m|m] eqn:Emr; try lia.
    exists m, (ex + n).
    replace (Z.leb (ex + n) (128 - 24)) with true by (symmetry; apply Z.leb_le; unfold n; lia).
    split; [reflexivity|].
    split; [change (Z.pos (digits2_pos m)) with (Zdigits2 (Z.pos m)); exact Hd2|].
    replace (ex + n - (ex + n)) with 0 by lia.
    rewrite Z.mul_1_r. split; lia.
  - (* carry: the rounded mantissa is 2 ^ 24 *)
    assert (Emr : mr = 2 ^ 24) by lia.
    assert (Hd2 : Zdigits2 mr = 25) by (rewrite Emr; reflexivity).
    unfold shr_fexp. rewrite Hd2, fexp_normal by lia.
    replace (25 + (ex + n) - 24 - (ex + n)) with 1 by lia.
    rewrite Emr. cbn [shr shr_record_of_loc SpecFloat.iter_pos shr_1 shr_m].
    exists (2 ^ 23)%positive, (ex + n + 1).
    replace (Z.leb (ex + n + 1) (128 - 24)) with true by (symmetry; apply Z.leb_le; unfold n; lia).
    split; [reflexivity|].
    split; [reflexivity|].
    replace (ex + n + 1 - (ex + n)) with 1 by lia.
    change (Z.pos (2 ^ 23) * 2 ^ 1) with (2 ^ 24). split; lia.
Qed.

Lemma bpow_pos (e : Z) : (0 < bpow e)%R.
Proof. apply powerRZ_lt. lra. Qed.

Lemma bpow_add (a b : Z) : bpow (a + b) = (bpow a * bpow b)%R.
Proof. apply powerRZ_add. lra. Qed.

Lemma bpow_int (k : Z) : 0 <= k -> bpow k = IZR (2 ^ k).
Proof.
  intros Hk. unfold bpow. rewrite <- (Z2Nat.id k Hk) at 1.
  rewrite <- pow_powerRZ. rewrite pow_IZR. rewrite Z2Nat.id by exact Hk. reflexivity.
Qed.

Lemma bpow_shift (e k : Z) : 0 <= k -> bpow (e + k) = (bpow e * IZR (2 ^ k))%R.
Proof. intros Hk. rewrite bpow_add, (bpow_int k) by exact Hk. reflexivity. Qed.

(** The real reading of [binary_round_aux_spec]: whatever lies between
    the mantissa and its successor is rounded with a relative error of at
    most [2 ^ -23]. *)
Lemma binary_round_aux_close (mx ex : Z) (lx : location) (exact : R) :
  0 < mx -> 24 <= Zdigits2 mx ->
  -125 <= Zdigits2 mx + ex <= 127 ->
  (IZR mx * bpow ex <= exact <= IZR (mx + 1) * bpow ex)%R ->
  exists (m : positive) (e : Z),
    normal_pos (binary_round_aux 24 128 false mx ex lx) m e /\
    0 <= e - (ex + (Zdigits2 mx - 24)) <= 1 /\
    ((1 - / IZR (2 ^ 23)) * exact <= IZR (Z.pos m) * bpow e
       <= (1 + / IZR (2 ^ 23)) * exact)%R.
Proof.
  intros Hmx Hd Hrange Hexact.
  destruct (binary_round_aux_spec mx ex lx Hmx Hd Hrange) as (m & e & Heq & Hdig & He & HM).
  exists m, e. split; [split; assumption|]. split; [exact He|].
  set (n := Zdigits2 mx - 24) in *.
  assert (Hn : 0 <= n) by (unfold n; lia).
  set (k := e - (ex + n)) in *.
  set (fl := mx / 2 ^ n) in *.
  pose proof (Zdigits2_bounds mx Hmx) as Hb.
  assert (Hfl : 2 ^ 23 <= fl < 2 ^ 24).
  { apply kept_mantissa_digits; [exact Hn|].
    replace (n + 24) with (Zdigits2 mx) by (unfold n; lia). exact Hb. }
  assert (Hp : 0 < 2 ^ n) by (apply Z.pow_pos_nonneg; lia).
  assert (Hdiv : fl * 2 ^ n <= mx /\ mx + 1 <= (fl + 1) * 2 ^ n).
  { unfold fl. pose proof (Z.div_mod mx (2 ^ n)) as E.
    pose proof (Z.mod_pos_bound mx (2 ^ n) Hp). lia. }
  set (u := bpow (ex + n)).
  assert (Hu : (0 < u)%R) by apply bpow_pos.
  assert (Ev : (IZR (Z.pos m) * bpow e = IZR (Z.pos m * 2 ^ k) * u)%R).
  { replace e with (ex + n + k) by (unfold k; lia).
    rewrite bpow_shift by lia. rewrite mult_IZR. unfold u. lra. }
  assert (Eu : (u = bpow ex * IZR (2 ^ n))%R) by (unfold u; apply bpow_shift; exact Hn).
  assert (Hlo : (IZR fl * u <= exact)%R).
  { replace (IZR fl * u)%R with (IZR (fl * 2 ^ n) * bpow ex)%R
      by (rewrite Eu, mult_IZR; ring).
    apply Rle_trans with (IZR mx * bpow ex)%R; [|apply Hexact].
    apply Rmult_le_compat_r; [apply Rlt_le, bpow_pos|]. apply IZR_le. lia. }
  assert (Hhi : (exact <= IZR (fl + 1) * u)%R).
  { replace (IZR (fl + 1) * u)%R with (IZR ((fl + 1) * 2 ^ n) * bpow ex)%R
      by (rewrite Eu, mult_IZR; ring).
    apply Rle_trans with (IZR (mx + 1) * bpow ex)%R; [apply Hexact|].
    apply Rmult_le_compat_r; [apply Rlt_le, bpow_pos|]. apply IZR_le. lia. }
  assert (Hvlo : (IZR fl * u <= IZR (Z.pos m * 2 ^ k) * u)%R).
  { apply Rmult_le_compat_r; [lra|]. apply IZR_le. lia. }
  assert (Hvhi : (IZR (Z.pos m * 2 ^ k) * u <= IZR (fl + 1) * u)%R).
  { apply Rmult_le_compat_r; [lra|]. apply IZR_le. lia. }
  assert (Hbig : (IZR (2 ^ 23) * u <= IZR fl * u)%R).
  { apply Rmult_le_compat_r; [lra|]. apply IZR_le. lia. }
  rewrite Ev. rewrite plus_IZR in Hhi, Hvhi.
  assert (H23 : (0 < IZR (2 ^ 23))%R) by (apply IZR_lt; reflexivity).
  assert (Hue : (u <= / IZR (2 ^ 23) * exact)%R).
  { apply Rmult_le_reg_l with (IZR (2 ^ 23)); [exact H23|].
    rewrite <- Rmult_assoc, Rinv_r by lra. lra. }
  split; lra.
Qed.

Lemma binary_round_aux_exact (mx : positive) (ex : Z) :
  Z.pos (digits2_pos mx) = 24 -> -149 <= ex <= 104 ->
  binary_round_aux 24 128 false (Z.pos mx) ex loc_Exact = S754_finite false mx ex.
Proof.
  intros Hd He. unfold binary_round_aux, shr_fexp. cbn [Zdigits2].
  rewrite Hd, fexp_normal by lia.
  replace (24 + ex - 24 - ex) with 0 by lia.
  cbn [shr shr_record_of_loc shr_m loc_of_shr_record round_nearest_even Zdigits2].
  rewrite Hd, fexp_normal by lia.
  replace (24 + ex - 24 - ex) with 0 by lia.
  cbn [shr shr_record_of_loc shr_m].
  replace (Z.leb ex (128 - 24)) with true by (symmetry; apply Z.leb_le; lia).
  reflexivity.
Qed.

Lemma iter_xO (k p : positive) : Z.pos (Pos.iter xO p k) = Z.pos p * 2 ^ Z.pos k.
Proof.
  change (Pos.iter xO p k) with (shift_pos k p).
  rewrite shift_pos_correct, Z.pow_pos_fold. lia.
Qed.

(** [(float) n] is exact below [2 ^ 24]. *)
Lemma of_u32_exact (n : Z) :
  1 <= n < 2 ^ 24 ->
  exists (m : positive) (e : Z),
    normal_pos (F32.of_u32 n) m e /\ -23 <= e <= 0 /\ Z.pos m = n * 2 ^ (- e).
Proof.
  intros Hn. destruct n as [|p|p]; try lia.
  unfold F32.of_u32, F32.prec, F32.emax, binary_normalize, binary_round.
  pose proof (digits2_pos_bounds p) as Hb.
  set (d := Z.pos (digits2_pos p)) in *.
  assert (Hd : 1 <= d <= 24).
  { split; [unfold d; lia|].
    destruct (Z.le_gt_cases d 24) as [|Hgt]; [assumption|].
    assert (2 ^ 24 <= 2 ^ (d - 1)) by (apply Z.pow_le_mono_r; lia). lia. }
  rewrite Z.add_0_r, fexp_normal by lia.
  unfold shl_align. rewrite Z.sub_0_r.
  destruct (d - 24) as [|k|k] eqn:Ek; try lia.
  - assert (Hd24 : d = 24) by lia.
    exists p, 0. split; [split|].
    + apply binary_round_aux_exact; [fold d; exact Hd24 | lia].
    + fold d. exact Hd24.
    + split; [lia|]. cbn. lia.
  - assert (Hk : Z.pos k = 24 - d) by lia.
    assert (Hm : Z.pos (Pos.iter xO p k) = Z.pos p * 2 ^ Z.pos k) by apply iter_xO.
    assert (Hdig : Z.pos (digits2_pos (Pos.iter xO p k)) = 24).
    { apply digits2_pos_unique. rewrite Hm, Hk.
      assert (E1 : 2 ^ (24 - 1) = 2 ^ (d - 1) * 2 ^ (24 - d))
        by (rewrite <- pow2_split by lia; f_equal; lia).
      assert (E2 : 2 ^ 24 = 2 ^ d * 2 ^ (24 - d))
        by (rewrite <- pow2_split by lia; f_equal; lia).
      assert (0 < 2 ^ (24 - d)) by (apply Z.pow_pos_nonneg; lia).
      rewrite E1, E2. nia. }
    exists (Pos.iter xO p k), (Z.neg k). split; [split|].
    + apply binary_round_aux_exact; [exact Hdig | lia].
    + exact Hdig.
    + split; [lia|]. rewrite Hm. reflexivity.
Qed.

Lemma normal_pos_bounds (f : spec_float) (m : positive) (e : Z) :
  normal_pos f m e -> 2 ^ 23 <= Z.pos m < 2 ^ 24.
Proof. intros [_ Hd]. pose proof (digits2_pos_bounds m) as Hb. rewrite Hd in Hb. exact Hb. Qed.

Lemma normal_pos_value (f : spec_float) (m : positive) (e : Z) :
  normal_pos f m e -> value f = (IZR (Z.pos m) * bpow e)%R.
Proof. intros [-> _]. cbn [value]. lra. Qed.

Lemma of_u32_value (n : Z) (m : positive) (e : Z) :
  normal_pos (F32.of_u32 n) m e -> -23 <= e <= 0 -> Z.pos m = n * 2 ^ (- e) ->
  value (F32.of_u32 n) = IZR n.
Proof.
  intros Hn He Hm. rewrite (normal_pos_value _ _ _ Hn), Hm, mult_IZR.
  rewrite <- bpow_int by lia. rewrite Rmult_assoc, <- bpow_add.
  replace (- e + e) with 0 by lia. unfold bpow. cbn. lra.
Qed.

Lemma Zdigits2_ge (z k : Z) : 0 < z -> 2 ^ (k - 1) <= z -> k <= Zdigits2 z.
Proof.
  intros Hz H. pose proof (Zdigits2_bounds z Hz) as [_ Hhi].
  destruct (Z.le_gt_cases k (Zdigits2 z)) as [|Hgt]; [assumption|].
  assert (2 ^ Zdigits2 z <= 2 ^ (k - 1)).
  { apply Z.pow_le_mono_r; [lia|]. lia. }
  lia.
Qed.

Lemma Zdigits2_le (z k : Z) : 0 < z -> 0 <= k -> z < 2 ^ k -> Zdigits2 z <= k.
Proof.
  intros Hz Hk H. pose proof (Zdigits2_bounds z Hz) as [Hlo _].
  destruct (Z.le_gt_cases (Zdigits2 z) k) as [|Hgt]; [assumption|].
  assert (2 ^ k <= 2 ^ (Zdigits2 z - 1)) by (apply Z.pow_le_mono_r; lia).
  lia.
Qed.

(** The product of two floats. *)
Lemma mul_close (x y : spec_float) (m1 m2 : positive) (e1 e2 : Z) :
  normal_pos x m1 e1 -> normal_pos y m2 e2 -> -170 <= e1 + e2 <= 78 ->
  exists (m : positive) (e : Z),
    normal_pos (F32.mul x y) m e /\
    e1 + e2 + 23 <= e <= e1 + e2 + 25 /\
    ((1 - / IZR (2 ^ 23)) * (value x * value y) <= value (F32.mul x y)
       <= (1 + / IZR (2 ^ 23)) * (value x * value y))%R.
Proof.
  intros Hx Hy He.
  pose proof (normal_pos_bounds _ _ _ Hx) as Hb1.
  pose proof (normal_pos_bounds _ _ _ Hy) as Hb2.
  rewrite (normal_pos_value _ _ _ Hx), (normal_pos_value _ _ _ Hy).
  destruct Hx as [-> _], Hy as [-> _].
  unfold F32.mul, F32.prec, F32.emax. cbn [SFmul xorb].
  set (mx := Z.pos (m1 * m2)).
  assert (Hmx : mx = Z.pos m1 * Z.pos m2) by reflexivity.
  assert (Hprod : 2 ^ 46 <= mx < 2 ^ 48).
  { change (2 ^ 46) with (2 ^ 23 * 2 ^ 23). change (2 ^ 48) with (2 ^ 24 * 2 ^ 24). nia. }
  assert (Hpos : 0 < mx) by lia.
  assert (Hd1 : 47 <= Zdigits2 mx) by (apply Zdigits2_ge; [lia|cbn; lia]).
  assert (Hd2 : Zdigits2 mx <= 48) by (apply Zdigits2_le; lia).
  destruct (binary_round_aux_close mx (e1 + e2) loc_Exact
              (IZR mx * bpow (e1 + e2))%R) as (m & e & Hn & Her & Hv);
    [lia | lia | lia | |].
  { split; [lra|]. apply Rmult_le_compat_r; [apply Rlt_le, bpow_pos|]. apply IZR_le. lia. }
  exists m, e. split; [exact Hn|]. split; [lia|].
  rewrite (normal_pos_value _ _ _ Hn).
  replace (IZR (Z.pos m1) * bpow e1 * (IZR (Z.pos m2) * bpow e2))%R
    with (IZR mx * bpow (e1 + e2))%R
    by (rewrite Hmx, mult_IZR, bpow_add; ring).
  exact Hv.
Qed.

Lemma bpow_sub (a b : Z) : (bpow a / bpow b = bpow (a - b))%R.
Proof.
  replace a with (a - b + b) at 1 by lia. rewrite bpow_add.
  pose proof (bpow_pos b). field. lra.
Qed.

Lemma bpow_neg_int (k : Z) : 0 <= k -> bpow (- k) = (/ IZR (2 ^ k))%R.
Proof.
  intros Hk. unfold bpow. rewrite powerRZ_neg'. fold (bpow k).
  rewrite bpow_int by exact Hk. reflexivity.
Qed.

(** The quotient of two floats. *)
Lemma div_close (x y : spec_float) (m1 m2 : positive) (e1 e2 : Z) :
  normal_pos x m1 e1 -> normal_pos y m2 e2 -> -100 <= e1 - e2 <= 100 ->
  exists (m : positive) (e : Z),
    normal_pos (F32.div x y) m e /\
    e1 - e2 - 24 <= e <= e1 - e2 - 22 /\
    ((1 - / IZR (2 ^ 23)) * (value x / value y) <= value (F32.div x y)
       <= (1 + / IZR (2 ^ 23)) * (value x / value y))%R.
Proof.
  intros Hx Hy He.
  pose proof (normal_pos_bounds _ _ _ Hx) as Hb1.
  pose proof (normal_pos_bounds _ _ _ Hy) as Hb2.
  rewrite (normal_pos_value _ _ _ Hx), (normal_pos_value _ _ _ Hy).
  destruct Hx as [-> Hd1], Hy as [-> Hd2].
  unfold F32.div, F32.prec, F32.emax. cbn [SFdiv xorb].
  unfold SFdiv_core_binary. cbn [Zdigits2]. rewrite Hd1, Hd2.
  replace (24 + e1 - (24 + e2)) with (e1 - e2) by lia.
  rewrite fexp_normal by lia.
  replace (Z.min (e1 - e2 - 24) (e1 - e2)) with (e1 - e2 - 24) by lia.
  replace (e1 - e2 - (e1 - e2 - 24)) with 24 by lia.
  cbv beta iota zeta.
  rewrite Z.shiftl_mul_pow2 by lia.
  set (num := Z.pos m1 * 2 ^ 24).
  pose proof (Z.div_mod num (Z.pos m2)) as Hdm.
  pose proof (Z.mod_pos_bound num (Z.pos m2)) as Hmod.
  unfold Z.div, Z.modulo in Hdm, Hmod.
  destruct (Z.div_eucl num (Z.pos m2)) as [q r].
  specialize (Hdm ltac:(lia)). specialize (Hmod ltac:(lia)).
  assert (Hnum : 2 ^ 47 <= num < 2 ^ 48).
  { unfold num. change (2 ^ 47) with (2 ^ 23 * 2 ^ 24).
    change (2 ^ 48) with (2 ^ 24 * 2 ^ 24). lia. }
  assert (Hq : 2 ^ 23 <= q < 2 ^ 25).
  { change (2 ^ 47) with (2 ^ 23 * 2 ^ 24) in Hnum.
    change (2 ^ 48) with (2 ^ 23 * 2 ^ 25) in Hnum. split; nia. }
  assert (Hqd1 : 24 <= Zdigits2 q) by (apply Zdigits2_ge; [lia|cbn; lia]).
  assert (Hqd2 : Zdigits2 q <= 25) by (apply Zdigits2_le; lia).
  pose proof (bpow_pos e1) as Hp1. pose proof (bpow_pos e2) as Hp2.
  assert (Hm2 : (0 < IZR (Z.pos m2))%R) by (apply IZR_lt; lia).
  assert (Eex : (IZR (Z.pos m1) * bpow e1 / (IZR (Z.pos m2) * bpow e2)
                 = IZR num / IZR (Z.pos m2) * bpow (e1 - e2 - 24))%R).
  { unfold num. rewrite mult_IZR.
    replace (e1 - e2 - 24) with ((e1 - e2) + (- 24)) by lia.
    rewrite bpow_add, <- bpow_sub.
    replace (bpow (-24)) with (/ IZR (2 ^ 24))%R
      by (symmetry; apply (bpow_neg_int 24); lia).
    assert (0 < IZR (2 ^ 24))%R by (apply IZR_lt; reflexivity).
    field. repeat split; lra. }
  destruct (binary_round_aux_close q (e1 - e2 - 24) (new_location (Z.pos m2) r)
              (IZR (Z.pos m1) * bpow e1 / (IZR (Z.pos m2) * bpow e2))%R)
    as (m & e & Hn & Her & Hv); [lia | lia | lia | |].
  { rewrite Eex. pose proof (bpow_pos (e1 - e2 - 24)) as Hp.
    split; (apply Rmult_le_compat_r; [lra|]).
    - apply Rmult_le_reg_r with (IZR (Z.pos m2)); [exact Hm2|].
      unfold Rdiv. rewrite Rmult_assoc, Rinv_l, Rmult_1_r by lra.
      rewrite <- mult_IZR. apply IZR_le. lia.
    - apply Rmult_le_reg_r with (IZR (Z.pos m2)); [exact Hm2|].
      unfold Rdiv. rewrite Rmult_assoc, Rinv_l, Rmult_1_r by lra.
      rewrite <- mult_IZR. apply IZR_le. lia. }
  exists m, e. split; [exact Hn|]. split; [lia|].
  rewrite (normal_pos_value _ _ _ Hn). exact Hv.
Qed.

(** The comparison of two floats is that of their values. *)
Lemma ltb_value (x y : spec_float) (m1 m2 : positive) (e1 e2 : Z) :
  normal_pos x m1 e1 -> normal_pos y m2 e2 ->
  if F32.ltb x y then (value x < value y)%R else (value y <= value x)%R.
Proof.
  intros Hx Hy.
  pose proof (normal_pos_bounds _ _ _ Hx) as Hb1.
  pose proof (normal_pos_bounds _ _ _ Hy) as Hb2.
  rewrite (normal_pos_value _ _ _ Hx), (normal_pos_value _ _ _ Hy).
  destruct Hx as [-> _], Hy as [-> _].
  unfold F32.ltb, SFltb, SFcompare.
  assert (Hstep : forall (a b : positive) (ea eb : Z),
             2 ^ 23 <= Z.pos a < 2 ^ 24 -> 2 ^ 23 <= Z.pos b < 2 ^ 24 -> ea < eb ->
             (IZR (Z.pos a) * bpow ea < IZR (Z.pos b) * bpow eb)%R).
  { intros a b ea eb Ha Hb Hlt.
    replace eb with (ea + (eb - ea)) by lia. rewrite bpow_shift by lia.
    pose proof (bpow_pos ea) as Hp.
    rewrite (Rmult_comm (bpow ea)), <- Rmult_assoc, <- mult_IZR.
    apply Rmult_lt_compat_r; [exact Hp|]. apply IZR_lt.
    assert (2 ^ 1 <= 2 ^ (eb - ea)) by (apply Z.pow_le_mono_r; lia).
    change (2 ^ 1) with 2 in *. nia. }
  destruct (Z.compare_spec e1 e2) as [Heq|Hlt|Hgt].
  - subst e2. rewrite Pos.compare_cont_spec. cbn [Pos.switch_Eq].
    pose proof (bpow_pos e1) as Hp.
    destruct (Pos.compare_spec m1 m2) as [E|L|G].
    + subst. cbn [Pos.switch_Eq]. cbv iota beta. lra.
    + cbn [Pos.switch_Eq]. cbv iota beta. apply Rmult_lt_compat_r; [exact Hp|]. apply IZR_lt. lia.
    + cbn [Pos.switch_Eq]. cbv iota beta. apply Rmult_le_compat_r; [lra|]. apply IZR_le. lia.
  - cbv iota beta. apply Hstep; assumption.
  - cbv iota beta. apply Rlt_le. apply Hstep; assumption.
Qed.

(** The conversion to an integer drops the fractional part. *)
Lemma to_u32_floor (f : spec_float) (m : positive) (e : Z) :
  normal_pos f m e -> (value f < IZR (2 ^ 32))%R ->
  exists t : Z,
    F32.to_u32 f = Done t /\ 0 <= t /\ (IZR t <= value f < IZR t + 1)%R.
Proof.
  intros Hf Hlt. rewrite (normal_pos_value _ _ _ Hf) in *.
  destruct Hf as [-> _]. cbn [F32.to_u32]. unfold F32.trunc_mag.
  assert (Hdone : forall t, 0 <= t -> (IZR t <= IZR (Z.pos m) * bpow e)%R ->
            (if t <? U32.modulus then Done t else Fault) = Done t).
  { intros t Ht Hle. destruct (Z.ltb_spec t U32.modulus) as [|Hge]; [reflexivity|].
    exfalso. apply IZR_le in Hge. unfold U32.modulus in Hge. lra. }
  destruct (Z.leb_spec 0 e) as [Hpos|Hneg].
  - exists (Z.pos m * 2 ^ e).
    assert (Ev : (IZR (Z.pos m * 2 ^ e) = IZR (Z.pos m) * bpow e)%R)
      by (rewrite mult_IZR, bpow_int by lia; reflexivity).
    assert (0 <= Z.pos m * 2 ^ e) by (apply Z.mul_nonneg_nonneg; [lia|apply Z.pow_nonneg; lia]).
    split; [apply Hdone; [assumption|lra]|]. split; [assumption|]. lra.
  - set (k := - e). assert (Hk : 0 < k) by (unfold k; lia).
    assert (Hp : 0 < 2 ^ k) by (apply Z.pow_pos_nonneg; lia).
    pose proof (Z.div_mod (Z.pos m) (2 ^ k) ltac:(lia)) as Hdm.
    pose proof (Z.mod_pos_bound (Z.pos m) (2 ^ k) Hp) as Hmod.
    set (t := Z.pos m / 2 ^ k) in *.
    assert (Ht : 0 <= t) by (apply Z.div_pos; lia).
    assert (Eb : (bpow e = / IZR (2 ^ k))%R).
    { replace e with (- k) by (unfold k; lia). apply bpow_neg_int. lia. }
    assert (Hpk : (0 < IZR (2 ^ k))%R) by (apply IZR_lt; exact Hp).
    assert (Hbr : (IZR t <= IZR (Z.pos m) * bpow e < IZR t + 1)%R).
    { rewrite Eb. split.
      - apply Rmult_le_reg_r with (IZR (2 ^ k)); [exact Hpk|].
        rewrite Rmult_assoc, Rinv_l, Rmult_1_r by lra.
        rewrite <- mult_IZR. apply IZR_le. lia.
      - apply Rmult_lt_reg_r with (IZR (2 ^ k)); [exact Hpk|].
        rewrite Rmult_assoc, Rinv_l, Rmult_1_r by lra.
        rewrite <- plus_IZR, <- mult_IZR. apply IZR_lt. lia. }
    exists t. split; [apply Hdone; [assumption|lra]|]. split; [assumption|exact Hbr].
Qed.

(** ** The fitted size *)

Lemma ratio_le (v c X w h : R) :
  (0 < w -> 0 <= h -> v <= c * (X / w) -> v * h <= c * (X * h / w))%R.
Proof.
  intros Hw Hh Hv.
  replace (c * (X * h / w))%R with (c * (X / w) * h)%R by (field; lra).
  apply Rmult_le_compat_r; assumption.
Qed.

Lemma ratio_ge (v c X w h : R) :
  (0 < w -> 0 <= h -> c * (X / w) <= v -> c * (X * h / w) <= v * h)%R.
Proof.
  intros Hw Hh Hv.
  replace (c * (X * h / w))%R with (c * (X / w) * h)%R by (field; lra).
  apply Rmult_le_compat_r; assumption.
Qed.

(** One target dimension: the product of the proportion and a natural
    dimension, converted to an integer. *)
Lemma scaled_dimension (prop : spec_float) (mp : positive) (ep n : Z) :
  normal_pos prop mp ep -> -47 <= ep <= 1 -> 1 <= n < 2 ^ 24 ->
  ((1 + / IZR (2 ^ 23)) * (value prop * IZR n) < IZR (2 ^ 32))%R ->
  exists t : Z,
    F32.to_u32 (F32.mul prop (F32.of_u32 n)) = Done t /\ 0 <= t /\
    (IZR t <= (1 + / IZR (2 ^ 23)) * (value prop * IZR n))%R /\
    ((1 - / IZR (2 ^ 23)) * (value prop * IZR n) < IZR t + 1)%R.
Proof.
  intros Hp Hep Hn Hsmall.
  destruct (of_u32_exact n Hn) as (mn & en & Hnn & Hen & Hmn).
  pose proof (of_u32_value n mn en Hnn Hen Hmn) as Hvn.
  destruct (mul_close prop (F32.of_u32 n) mp mn ep en Hp Hnn) as (m & e & Hm & He & Hv);
    [lia|].
  rewrite Hvn in Hv.
  destruct (to_u32_floor _ m e Hm) as (t & Ht & Htpos & Hfl); [lra|].
  exists t. split; [exact Ht|]. split; [exact Htpos|]. split; lra.
Qed.

Lemma of_u32_zero : F32.of_u32 0 = S754_zero false.
Proof. reflexivity. Qed.

(** Nothing is left of a picture fitted into an empty rectangle. *)
Lemma scaled_format_empty (w h X Y : Z) :
  1 <= w < 2 ^ 24 -> 1 <= h < 2 ^ 24 -> 0 <= X < 2 ^ 24 -> 0 <= Y < 2 ^ 24 ->
  X = 0 \/ Y = 0 ->
  scaled_format w h X Y = Done (format.mk 0 0).
Proof.
  intros Hw Hh HX HY Hzero. unfold scaled_format.
  destruct (of_u32_exact w Hw) as (mw & ew & Hnw & Hew & _).
  destruct (of_u32_exact h Hh) as (mh & eh & Hnh & Heh & _).
  assert (Hprop : F32.fmin (F32.div (F32.of_u32 X) (F32.of_u32 w))
                           (F32.div (F32.of_u32 Y) (F32.of_u32 h)) = S754_zero false).
  { destruct (Z.eq_dec X 0) as [->|HX0].
    - rewrite of_u32_zero.
      replace (F32.div (S754_zero false) (F32.of_u32 w)) with (S754_zero false)
        by (destruct Hnw as [-> _]; reflexivity).
      destruct (Z.eq_dec Y 0) as [->|HY0].
      + rewrite of_u32_zero.
        replace (F32.div (S754_zero false) (F32.of_u32 h)) with (S754_zero false)
          by (destruct Hnh as [-> _]; reflexivity).
        reflexivity.
      + destruct (of_u32_exact Y ltac:(lia)) as (mY & eY & HnY & HeY & _).
        destruct (div_close _ _ mY mh eY eh HnY Hnh ltac:(lia)) as (m & e & [Eb _] & _).
        rewrite Eb. reflexivity.
    - assert (Y = 0) as -> by lia.
      rewrite of_u32_zero.
      replace (F32.div (S754_zero false) (F32.of_u32 h)) with (S754_zero false)
        by (destruct Hnh as [-> _]; reflexivity).
      destruct (of_u32_exact X ltac:(lia)) as (mX & eX & HnX & HeX & _).
      destruct (div_close _ _ mX mw eX ew HnX Hnw ltac:(lia)) as (m & e & [Ea _] & _).
      rewrite Ea. reflexivity. }
  rewrite Hprop.
  destruct Hnw as [-> _], Hnh as [-> _]. reflexivity.
Qed.

Lemma quotient_bracket (a b : Z) :
  0 < b -> (IZR (a / b) <= IZR a / IZR b < IZR (a / b) + 1)%R.
Proof.
  intros Hb.
  pose proof (Z.div_mod a b ltac:(lia)) as Hdm.
  pose proof (Z.mod_pos_bound a b Hb) as Hmod.
  assert (Hbr : (0 < IZR b)%R) by (apply IZR_lt; exact Hb).
  split.
  - apply Rmult_le_reg_r with (IZR b); [exact Hbr|].
    unfold Rdiv. rewrite Rmult_assoc, Rinv_l, Rmult_1_r by lra.
    rewrite <- mult_IZR. apply IZR_le. lia.
  - apply Rmult_lt_reg_r with (IZR b); [exact Hbr|].
    unfold Rdiv. rewrite Rmult_assoc, Rinv_l, Rmult_1_r by lra.
    rewrite <- plus_IZR, <- mult_IZR. apply IZR_lt. lia.
Qed.

(** The proportion: a float of 24 digits, within [2 ^ -23] of the
    smaller of the two exact ratios. *)
Lemma proportion_spec (w h X Y : Z) :
  1 <= w < 2 ^ 20 -> 1 <= h < 2 ^ 20 -> 1 <= X < 2 ^ 20 -> 1 <= Y < 2 ^ 20 ->
  let prop := F32.fmin (F32.div (F32.of_u32 X) (F32.of_u32 w))
                       (F32.div (F32.of_u32 Y) (F32.of_u32 h)) in
  exists (mp : positive) (ep : Z),
    normal_pos prop mp ep /\ -47 <= ep <= 1 /\
    (value prop <= (1 + / IZR (2 ^ 23)) * (IZR X / IZR w))%R /\
    (value prop <= (1 + / IZR (2 ^ 23)) * (IZR Y / IZR h))%R /\
    ((1 - / IZR (2 ^ 23)) * (IZR X / IZR w) <= value prop \/
     (1 - / IZR (2 ^ 23)) * (IZR Y / IZR h) <= value prop)%R.
Proof.
  intros Hw Hh HX HY prop.
  assert (H2024 : 2 ^ 20 < 2 ^ 24) by reflexivity.
  destruct (of_u32_exact w ltac:(lia)) as (mw & ew & Hnw & Hew & Hmw).
  destruct (of_u32_exact h ltac:(lia)) as (mh & eh & Hnh & Heh & Hmh).
  destruct (of_u32_exact X ltac:(lia)) as (mX & eX & HnX & HeX & HmX).
  destruct (of_u32_exact Y ltac:(lia)) as (mY & eY & HnY & HeY & HmY).
  pose proof (of_u32_value w mw ew Hnw Hew Hmw) as Vw.
  pose proof (of_u32_value h mh eh Hnh Heh Hmh) as Vh.
  pose proof (of_u32_value X mX eX HnX HeX HmX) as VX.
  pose proof (of_u32_value Y mY eY HnY HeY HmY) as VY.
  destruct (div_close _ _ mX mw eX ew HnX Hnw ltac:(lia)) as (ma & ea & Hna & Hea & Hva).
  destruct (div_close _ _ mY mh eY eh HnY Hnh ltac:(lia)) as (mb & eb & Hnb & Heb & Hvb).
  rewrite VX, Vw in Hva. rewrite VY, Vh in Hvb.
  pose proof (ltb_value _ _ ma mb ea eb Hna Hnb) as Hcmp.
  unfold prop, F32.fmin.
  destruct (F32.ltb (F32.div (F32.of_u32 X) (F32.of_u32 w))
                    (F32.div (F32.of_u32 Y) (F32.of_u32 h))).
  - exists ma, ea. split; [exact Hna|]. split; [lia|].
    split; [lra|]. split; [lra|]. left. lra.
  - exists mb, eb. split; [exact Hnb|]. split; [lia|].
    split; [lra|]. split; [lra|]. right. lra.
Qed.

(** A target dimension, from bounds on the exact product. *)
Lemma target_spec (prop : spec_float) (mp : positive) (ep n : Z) (L U : R) :
  normal_pos prop mp ep -> -47 <= ep <= 1 -> 1 <= n < 2 ^ 20 ->
  (L <= value prop * IZR n <= U)%R -> (U <= 2 * IZR (2 ^ 20))%R ->
  exists t : Z,
    F32.to_u32 (F32.mul prop (F32.of_u32 n)) = Done t /\ 0 <= t /\
    (IZR t <= (1 + / IZR (2 ^ 23)) * U)%R /\
    ((1 - / IZR (2 ^ 23)) * L < IZR t + 1)%R.
Proof.
  intros Hp Hep Hn HLU HU.
  change (2 ^ 20) with 1048576 in *. change (2 ^ 23) with 8388608.
  destruct (scaled_dimension prop mp ep n Hp Hep) as (t & Ht & Htpos & Hhi & Hlo).
  { change (2 ^ 24) with 16777216. lia. }
  { change (2 ^ 23) with 8388608. change (2 ^ 32) with 4294967296. lra. }
  change (2 ^ 23) with 8388608 in *.
  exists t. split; [exact Ht|]. split; [exact Htpos|]. split; lra.
Qed.

Lemma ratio_le_same (v c X w : R) :
  (0 < w -> v <= c * (X / w) -> v * w <= c * X)%R.
Proof.
  intros Hw Hv.
  replace (c * X)%R with (c * (X / w) * w)%R by (field; lra).
  apply Rmult_le_compat_r; [lra|assumption].
Qed.

Lemma ratio_ge_same (v c X w : R) :
  (0 < w -> c * (X / w) <= v -> c * X <= v * w)%R.
Proof.
  intros Hw Hv.
  replace (c * X)%R with (c * (X / w) * w)%R by (field; lra).
  apply Rmult_le_compat_r; [lra|assumption].
Qed.

Lemma ratio_order (X Y w h : Z) :
  0 < w -> 0 < h -> X * h <= Y * w -> (IZR X / IZR w <= IZR Y / IZR h)%R.
Proof.
  intros Hw Hh Hle.
  assert (Hwr : (0 < IZR w)%R) by (apply IZR_lt; exact Hw).
  assert (Hhr : (0 < IZR h)%R) by (apply IZR_lt; exact Hh).
  apply Rmult_le_reg_r with (IZR w * IZR h)%R; [apply Rmult_lt_0_compat; assumption|].
  replace (IZR X / IZR w * (IZR w * IZR h))%R with (IZR X * IZR h)%R by (field; lra).
  replace (IZR Y / IZR h * (IZR w * IZR h))%R with (IZR Y * IZR w)%R by (field; lra).
  rewrite <- !mult_IZR. apply IZR_le. exact Hle.
Qed.

(** The two target dimensions when the first ratio is the smaller one:
    [X] plays the part of the limiting side. *)
Lemma limited_side (X Y w h tw th : Z) (vp : R) :
  1 <= w < 2 ^ 20 -> 1 <= h < 2 ^ 20 -> 1 <= X < 2 ^ 20 -> 1 <= Y < 2 ^ 20 ->
  X * h <= Y * w ->
  ((1 - / IZR (2 ^ 23)) * (IZR X / IZR w) <= vp <= (1 + / IZR (2 ^ 23)) * (IZR X / IZR w))%R ->
  (IZR tw <= (1 + / IZR (2 ^ 23)) * (vp * IZR w))%R ->
  ((1 - / IZR (2 ^ 23)) * (vp * IZR w) < IZR tw + 1)%R ->
  (IZR th <= (1 + / IZR (2 ^ 23)) * (vp * IZR h))%R ->
  ((1 - / IZR (2 ^ 23)) * (vp * IZR h) < IZR th + 1)%R ->
  X - 1 <= tw <= X /\ X * h / w - 1 <= th <= X * h / w + 1 /\ th <= Y.
Proof.
  intros Hw Hh HX HY Hle [Hlo Hhi] Htw1 Htw2 Hth1 Hth2.
  change (2 ^ 20) with 1048576 in *. change (2 ^ 23) with 8388608 in *.
  assert (Hwr : (1 <= IZR w)%R) by (apply IZR_le; lia).
  assert (Hhr : (1 <= IZR h)%R) by (apply IZR_le; lia).
  assert (HXr : (1 <= IZR X < 1048576)%R) by (split; [apply IZR_le|apply IZR_lt]; lia).
  assert (HYr : (1 <= IZR Y < 1048576)%R) by (split; [apply IZR_le|apply IZR_lt]; lia).
  pose proof (ratio_le_same vp _ (IZR X) (IZR w) ltac:(lra) Hhi) as HA1.
  pose proof (ratio_ge_same vp _ (IZR X) (IZR w) ltac:(lra) Hlo) as HA2.
  pose proof (ratio_le vp _ (IZR X) (IZR w) (IZR h) ltac:(lra) ltac:(lra) Hhi) as HB1.
  pose proof (ratio_ge vp _ (IZR X) (IZR w) (IZR h) ltac:(lra) ltac:(lra) Hlo) as HB2.
  pose proof (quotient_bracket (X * h) w ltac:(lia)) as [Hq1 Hq2].
  rewrite mult_IZR in Hq1, Hq2.
  set (E := (IZR X * IZR h / IZR w)%R) in *.
  assert (HE : (0 <= E <= IZR Y)%R).
  { split.
    - unfold E. apply Rmult_le_pos; [apply Rmult_le_pos; lra|].
      apply Rlt_le, Rinv_0_lt_compat. lra.
    - unfold E. apply Rmult_le_reg_r with (IZR w); [lra|].
      unfold Rdiv. rewrite Rmult_assoc, Rinv_l, Rmult_1_r by lra.
      rewrite <- !mult_IZR. apply IZR_le. exact Hle. }
  set (q := X * h / w) in *.
  assert (Htw : (IZR (X - 1) < IZR (tw + 1) /\ IZR tw < IZR (X + 1))%R).
  { rewrite !plus_IZR, minus_IZR. split; lra. }
  assert (Hth : (IZR (q - 1) < IZR (th + 1) /\ IZR th < IZR (q + 2) /\ IZR th < IZR (Y + 1))%R).
  { rewrite !plus_IZR, minus_IZR. repeat split; lra. }
  destruct Htw as [T1 T2]. destruct Hth as (T3 & T4 & T5).
  apply lt_IZR in T1, T2, T3, T4, T5. lia.
Qed.

Lemma scaled_format_positive (w h X Y : Z) :
  1 <= w < 2 ^ 20 -> 1 <= h < 2 ^ 20 -> 1 <= X < 2 ^ 20 -> 1 <= Y < 2 ^ 20 ->
  exists tw th : Z,
    scaled_format w h X Y = Done (format.mk tw th) /\
    0 <= tw <= X /\ 0 <= th <= Y /\
    (X * h <= Y * w -> X - 1 <= tw /\ X * h / w - 1 <= th <= X * h / w + 1) /\
    (Y * w <= X * h -> Y - 1 <= th /\ Y * w / h - 1 <= tw <= Y * w / h + 1).
Proof.
  intros Hw Hh HX HY.
  destruct (proportion_spec w h X Y Hw Hh HX HY) as (mp & ep & Hp & Hep & Hupw & Huph & Hlo).
  unfold scaled_format.
  set (prop := F32.fmin (F32.div (F32.of_u32 X) (F32.of_u32 w))
                        (F32.div (F32.of_u32 Y) (F32.of_u32 h))) in *.
  set (vp := value prop) in *.
  assert (Hwr : (1 <= IZR w)%R) by (apply IZR_le; lia).
  assert (Hhr : (1 <= IZR h)%R) by (apply IZR_le; lia).
  assert (HXr : (1 <= IZR X < IZR (2 ^ 20))%R) by (split; [apply IZR_le|apply IZR_lt]; lia).
  assert (HYr : (1 <= IZR Y < IZR (2 ^ 20))%R) by (split; [apply IZR_le|apply IZR_lt]; lia).
  pose proof (ratio_le_same vp _ (IZR X) (IZR w) ltac:(lra) Hupw) as HA.
  pose proof (ratio_le_same vp _ (IZR Y) (IZR h) ltac:(lra) Huph) as HB.
  assert (Hd : (0 < / IZR (2 ^ 23) < 1)%R).
  { change (2 ^ 23) with 8388608. lra. }
  destruct (target_spec prop mp ep w (vp * IZR w) (vp * IZR w) Hp Hep Hw)
    as (tw & Etw & Htw0 & Htw1 & Htw2).
  { split; apply Rle_refl. }
  { change (2 ^ 20) with 1048576 in *. change (2 ^ 23) with 8388608 in *. lra. }
  destruct (target_spec prop mp ep h (vp * IZR h) (vp * IZR h) Hp Hep Hh)
    as (th & Eth & Hth0 & Hth1 & Hth2).
  { split; apply Rle_refl. }
  { change (2 ^ 20) with 1048576 in *. change (2 ^ 23) with 8388608 in *. lra. }
  exists tw, th. rewrite Etw, Eth. cbn [obind].
  split; [reflexivity|].
  assert (Hcap : tw <= X /\ th <= Y).
  { assert (T : (IZR tw < IZR (X + 1) /\ IZR th < IZR (Y + 1))%R).
    { rewrite !plus_IZR.
      change (2 ^ 20) with 1048576 in *. change (2 ^ 23) with 8388608 in *. split; lra. }
    destruct T as [T1 T2]. apply lt_IZR in T1, T2. lia. }
  split; [lia|]. split; [lia|]. split.
  - intros Hle.
    assert (Hvp : ((1 - / IZR (2 ^ 23)) * (IZR X / IZR w) <= vp)%R).
    { destruct Hlo as [Hl|Hl]; [exact Hl|].
      pose proof (ratio_order X Y w h ltac:(lia) ltac:(lia) Hle) as Hr.
      apply Rle_trans with ((1 - / IZR (2 ^ 23)) * (IZR Y / IZR h))%R; [|exact Hl].
      apply Rmult_le_compat_l; lra. }
    destruct (limited_side X Y w h tw th vp Hw Hh HX HY Hle (conj Hvp Hupw)
                Htw1 Htw2 Hth1 Hth2) as (H1 & H2 & _).
    lia.
  - intros Hle.
    assert (Hvp : ((1 - / IZR (2 ^ 23)) * (IZR Y / IZR h) <= vp)%R).
    { destruct Hlo as [Hl|Hl]; [|exact Hl].
      pose proof (ratio_order Y X h w ltac:(lia) ltac:(lia) Hle) as Hr.
      apply Rle_trans with ((1 - / IZR (2 ^ 23)) * (IZR X / IZR w))%R; [|exact Hl].
      apply Rmult_le_compat_l; lra. }
    destruct (limited_side Y X h w th tw vp Hh Hw HY HX Hle (conj Hvp Huph)
                Hth1 Hth2 Htw1 Htw2) as (H1 & H2 & _).
    lia.
Qed.

(** The size of a picture fitted into a rectangle: no side exceeds the
    rectangle, the limiting side falls short of it by at most one pixel,
    and the other side is within one pixel of the exact proportional
    size. *)
Lemma scaled_format_spec (w h X Y : Z) :
  1 <= w < 2 ^ 20 -> 1 <= h < 2 ^ 20 -> 0 <= X < 2 ^ 20 -> 0 <= Y < 2 ^ 20 ->
  exists tw th : Z,
    scaled_format w h X Y = Done (format.mk tw th) /\
    0 <= tw <= X /\ 0 <= th <= Y /\
    (X * h <= Y * w -> X - 1 <= tw /\ X * h / w - 1 <= th <= X * h / w + 1) /\
    (Y * w <= X * h -> Y - 1 <= th /\ Y * w / h - 1 <= tw <= Y * w / h + 1).
Proof.
  intros Hw Hh HX HY.
  assert (H2024 : 2 ^ 20 < 2 ^ 24) by reflexivity.
  destruct (Z.eq_dec X 0) as [HX0|HX0]; [|destruct (Z.eq_dec Y 0) as [HY0|HY0]].
  - exists 0, 0. rewrite scaled_format_empty by (try tauto; lia).
    subst X. split; [reflexivity|]. split; [lia|]. split; [lia|].
    rewrite !Z.mul_0_l, Z.div_0_l by lia. split; intros Hle.
    + lia.
    + assert (Y = 0) as -> by nia. rewrite Z.mul_0_l, Z.div_0_l by lia. lia.
  - exists 0, 0. rewrite scaled_format_empty by (try tauto; lia).
    subst Y. split; [reflexivity|]. split; [lia|]. split; [lia|].
    rewrite !Z.mul_0_l, Z.div_0_l by lia. split; intros Hle.
    + exfalso. nia.
    + lia.
  - apply scaled_format_positive; lia.
Qed.

(** ** Image fitting: pictures that are too big *)

Lemma scaled_format_done (w h X Y tw th : Z) :
  scaled_format w h X Y = Done (format.mk tw th) ->
  let prop := F32.fmin (F32.div (F32.of_u32 X) (F32.of_u32 w))
                       (F32.div (F32.of_u32 Y) (F32.of_u32 h)) in
  F32.to_u32 (F32.mul prop (F32.of_u32 w)) = Done tw /\
  F32.to_u32 (F32.mul prop (F32.of_u32 h)) = Done th.
Proof.
  intros H prop. unfold scaled_format in H. fold prop in H.
  destruct (F32.to_u32 (F32.mul prop (F32.of_u32 w))) as [a| |]; cbn in H; try discriminate.
  destruct (F32.to_u32 (F32.mul prop (F32.of_u32 h))) as [b| |]; cbn in H; try discriminate.
  injection H as -> ->. split; reflexivity.
Qed.

(** C5 as stated fails.  A picture of 300 by 200 fitted into 100 by 100
    gets the height 66, where [round (200 / 3)] is 67: the products are
    cut, not rounded.  And the bound is exceeded once an integer does not
    fit a [float]: a width of 67108864 fitted into 33554431 comes out as
    33554432. *)
Lemma fitted_size_is_cut_not_rounded :
  get_new_size 300 200 100 100 (format.mk 0 0) = Done (format.mk 100 66) /\
  spec_fit 300 200 100 100 = (100, 67) /\
  get_new_size 67108864 1 33554431 1 (format.mk 0 0) = Done (format.mk 33554432 0) /\
  33554431 < 33554432.
Proof. vm_compute. repeat split. Qed.

(** C5, amended.  For a natural size [w] by [h] that exceeds the
    rectangle [X] by [Y] in either dimension, all four below [2 ^ 20] and
    the natural size not empty: [get_new_size] and [draw_png] set the
    target to the two products [prop * w] and [prop * h] computed in
    single precision, with [prop] the smaller of the two [float] ratios,
    each cut to its integral part; neither side of the target exceeds the
    rectangle; the side that limits the scale is at most one pixel short
    of the rectangle, and the other side is within one pixel of the exact
    proportional size. *)
Theorem fitted_size_is_cut_within_bounds (w h X Y : Z) (fmt : format.t) :
  1 <= w < 2 ^ 20 -> 1 <= h < 2 ^ 20 -> 0 <= X < 2 ^ 20 -> 0 <= Y < 2 ^ 20 ->
  X < w \/ Y < h ->
  let prop := F32.fmin (F32.div (F32.of_u32 X) (F32.of_u32 w))
                       (F32.div (F32.of_u32 Y) (F32.of_u32 h)) in
  exists tw th : Z,
    get_new_size w h X Y fmt = Done (format.mk tw th) /\
    (forall (B : backend) (d : draw.t) (path : list Z) (off : offset.t),
       png_surface_size B path = Some (w, h) ->
       exists off' ops, draw_png B d path off X Y = Done (off', format.mk tw th, ops)) /\
    F32.to_u32 (F32.mul prop (F32.of_u32 w)) = Done tw /\
    F32.to_u32 (F32.mul prop (F32.of_u32 h)) = Done th /\
    0 <= tw <= X /\ 0 <= th <= Y /\
    (X * h <= Y * w -> X - 1 <= tw /\ X * h / w - 1 <= th <= X * h / w + 1) /\
    (Y * w <= X * h -> Y - 1 <= th /\ Y * w / h - 1 <= tw <= Y * w / h + 1).
Proof.
  intros Hw Hh HX HY Hbig prop.
  destruct (scaled_format_spec w h X Y Hw Hh HX HY) as (tw & th & Hs & Hrest).
  assert (Htest : (X <? w) || (Y <? h) = true).
  { apply orb_true_iff. destruct Hbig; [left|right]; apply Z.ltb_lt; assumption. }
  exists tw, th. split; [|split].
  - unfold get_new_size. rewrite Htest. exact Hs.
  - intros B d path off Hp. unfold draw_png. rewrite Hp. cbn [format.width format.height].
    rewrite Htest, Hs. cbn. eexists; eexists; reflexivity.
  - destruct (scaled_format_done w h X Y tw th Hs) as [E1 E2].
    split; [exact E1|]. split; [exact E2|]. exact Hrest.
Qed.

Lemma fitted_size_is_cut_within_bounds_witness :
  exists tw th : Z,
    get_new_size 300 200 100 100 (format.mk 0 0) = Done (format.mk tw th) /\
    0 <= tw <= 100 /\ 0 <= th <= 100.
Proof.
  destruct (fitted_size_is_cut_within_bounds 300 200 100 100 (format.mk 0 0))
    as (tw & th & Hg & _ & _ & _ & Htw & Hth & _).
  - cbn; lia.
  - cbn; lia.
  - cbn; lia.
  - cbn; lia.
  - left; lia.
  - exists tw, th. split; [exact Hg|]. split; assumption.
Defined.


(** ** More on the scroll window *)

Lemma set_offset_count (maxr : Z) (g : global.t) :
  global.result_count (fst (set_offset maxr g)) = global.result_count g /\
  global.result_highlight (fst (set_offset maxr g)) = global.result_highlight g.
Proof.
  destruct g as [count hl off a b c d e]. unfold set_offset; cbn.
  split_tests; cbn; split; reflexivity.
Qed.

Lemma max_results_in_range (s : settings.t) (maxr : Z) :
  max_results s = Done maxr -> U32.in_range maxr.
Proof.
  unfold max_results. destruct (settings.height s =? 0); [discriminate|].
  intros H. injection H as <-. apply wrap_in_range.
Qed.

Lemma scroll_window_unfold (s : settings.t) (g g' : global.t) (n : Z) :
  scroll_window s g = Done (g', n) ->
  exists maxr, max_results s = Done maxr /\ set_offset maxr (clamp_highlight g) = (g', n).
Proof.
  unfold scroll_window. destruct (max_results s) as [maxr| |]; cbn; try discriminate.
  intros H. injection H as H. exists maxr. split; [reflexivity|exact H].
Qed.

(** After a recompute the offset is 0 when everything fits, and the
    window ends within the results otherwise. *)
Lemma set_offset_pins_offset (maxr : Z) (g : global.t) :
  global.scroll_in_range g -> U32.in_range maxr ->
  (0 < global.result_count g -> global.result_highlight g < global.result_count g) ->
  global.result_count g <= maxr \/
  global.result_offset (fst (set_offset maxr g)) <= global.result_count g - maxr.
Proof.
  destruct g as [count hl off a b c d e].
  unfold global.scroll_in_range, set_offset, cmin; cbn.
  intros (Hc & Hh & Ho) Hm Hlt.
  split_tests; cbn; try (left; lia); right; unwrap.
Qed.

(** X1. Whatever the scroll state was, the rows that the recompute selects
    lie within the results: the count is not touched, [display_results]
    is not negative and [offset + display_results <= count]. *)
Theorem scroll_window_rows_within_count (s : settings.t) (g g' : global.t) (n : Z) :
  global.scroll_in_range g ->
  scroll_window s g = Done (g', n) ->
  global.result_count g' = global.result_count g /\
  global.scroll_in_range g' /\
  0 <= global.result_offset g' /\ 0 <= n /\
  global.result_offset g' + n <= global.result_count g.
Proof.
  intros Hr H. destruct (scroll_window_unfold s g g' n H) as (maxr & Hmax & Hs).
  pose proof (max_results_in_range s maxr Hmax) as Hm.
  destruct (clamp_highlight_in_range g Hr) as (Hcr & Hcc & Hco & Hch).
  destruct (set_offset_within_count maxr (clamp_highlight g) Hcr Hm) as (Hr' & Hn & Hsum).
  { rewrite Hcc. exact Hch. }
  destruct (set_offset_count maxr (clamp_highlight g)) as [Hcount _].
  rewrite Hs in Hr', Hn, Hsum, Hcount. cbn [fst snd] in *.
  rewrite Hcc in Hsum, Hcount.
  split; [exact Hcount|]. split; [exact Hr'|].
  destruct Hr' as (_ & _ & Ho). unfold U32.in_range in Ho.
  split; [lia|]. split; assumption.
Qed.

Lemma scroll_window_rows_within_count_witness :
  global.result_offset (Sample.scroll_state 10 0 5) + 5 <= 10.
Proof.
  refine (proj2 (proj2 (proj2 (proj2 (scroll_window_rows_within_count Sample.rows5
            (Sample.scroll_state 10 0 7) (Sample.scroll_state 10 0 5) 5 _ _))))).
  - unfold global.scroll_in_range, U32.in_range, U32.modulus; cbn. lia.
  - vm_compute. reflexivity.
Defined.

(** X2. When at least one row fits under the query line and the offset
    that comes in is not beyond the highlight, the recompute leaves the
    highlight inside the window:
    [offset <= highlight <= offset + display_results - 1]. *)
Theorem scroll_window_keeps_highlight_visible (s : settings.t) (g g' : global.t)
    (maxr n : Z) :
  global.scroll_in_range g ->
  0 < global.result_count g ->
  max_results s = Done maxr -> 1 <= maxr ->
  global.result_offset g <= global.result_highlight g ->
  scroll_window s g = Done (g', n) ->
  window_invariant g' n.
Proof.
  intros Hr Hpos Hmax Hm1 Hle H.
  destruct (scroll_window_unfold s g g' n H) as (maxr' & Hmax' & Hs).
  rewrite Hmax in Hmax'. injection Hmax' as <-.
  pose proof (max_results_in_range s maxr Hmax) as Hm.
  pose proof (set_offset_window_invariant maxr g Hr Hpos) as Hinv.
  rewrite Hs in Hinv. apply Hinv.
  - unfold U32.in_range in Hm. lia.
  - destruct (Z.le_gt_cases (global.result_offset g) (global.result_count g - maxr));
      [right; left; assumption | right; right; lia].
Qed.

Lemma scroll_window_keeps_highlight_visible_witness :
  window_invariant (Sample.scroll_state 10 7 3) 7.
Proof.
  refine (scroll_window_keeps_highlight_visible Sample.rows5 (Sample.scroll_state 10 7 0)
            (Sample.scroll_state 10 7 3) 5 7 _ _ _ _ _ _).
  - unfold global.scroll_in_range, U32.in_range, U32.modulus; cbn. lia.
  - cbn. lia.
  - reflexivity.
  - lia.
  - cbn. lia.
  - vm_compute. reflexivity.
Defined.

(** X3. A highlight that one recompute leaves outside the window is back
    inside after the next one: when at least one row fits, two recomputes
    in a row always end with the highlight in the window. *)
Theorem scroll_window_second_recompute_repairs (s : settings.t) (g g1 g2 : global.t)
    (maxr n1 n2 : Z) :
  global.scroll_in_range g ->
  0 < global.result_count g ->
  max_results s = Done maxr -> 1 <= maxr ->
  scroll_window s g = Done (g1, n1) ->
  scroll_window s g1 = Done (g2, n2) ->
  window_invariant g2 n2.
Proof.
  intros Hr Hpos Hmax Hm1 H1 H2.
  destruct (scroll_window_unfold s g g1 n1 H1) as (m1 & Hmax1 & Hs1).
  rewrite Hmax in Hmax1. injection Hmax1 as <-.
  destruct (scroll_window_unfold s g1 g2 n2 H2) as (m2 & Hmax2 & Hs2).
  rewrite Hmax in Hmax2. injection Hmax2 as <-.
  pose proof (max_results_in_range s maxr Hmax) as Hm.
  destruct (clamp_highlight_in_range g Hr) as (Hcr & Hcc & Hco & Hch).
  destruct (set_offset_within_count maxr (clamp_highlight g) Hcr Hm) as (Hr1 & _ & _).
  { rewrite Hcc. exact Hch. }
  pose proof (set_offset_pins_offset maxr (clamp_highlight g) Hcr Hm) as Hpin.
  destruct (set_offset_count maxr (clamp_highlight g)) as [Hcount _].
  rewrite Hs1 in Hr1, Hpin, Hcount. cbn [fst] in *. rewrite Hcc in Hpin, Hcount.
  pose proof (set_offset_window_invariant maxr g1 Hr1) as Hinv.
  rewrite Hs2 in Hinv. cbn [fst snd] in Hinv. rewrite Hcount in Hinv.
  apply Hinv; [exact Hpos | unfold U32.in_range in Hm; lia |].
  destruct Hpin as [Hfit|Hoff]; [exact Hch | left; exact Hfit | right; left; exact Hoff].
Qed.

Lemma scroll_window_second_recompute_repairs_witness :
  window_invariant (Sample.scroll_state 10 0 0) 5.
Proof.
  refine (scroll_window_second_recompute_repairs Sample.rows5 (Sample.scroll_state 10 0 7)
            (Sample.scroll_state 10 0 5) (Sample.scroll_state 10 0 0) 5 5 5 _ _ _ _ _ _).
  - unfold global.scroll_in_range, U32.in_range, U32.modulus; cbn. lia.
  - cbn. lia.
  - reflexivity.
  - lia.
  - vm_compute. reflexivity.
  - vm_compute. reflexivity.
Defined.

(** X4. A scroll state whose window already holds the highlight is a fixed
    point of the recompute: with the highlight below the count,
    [offset <= highlight <= offset + min(count, max_results) - 1] and the
    window within the results, nothing changes and [display_results] is
    [min(count, max_results)]. *)
Theorem scroll_window_fixed_point (s : settings.t) (g : global.t) (maxr : Z) :
  global.scroll_in_range g ->
  max_results s = Done maxr ->
  global.result_highlight g < global.result_count g ->
  window_invariant g (Z.min (global.result_count g) maxr) ->
  scroll_window s g = Done (g, Z.min (global.result_count g) maxr).
Proof.
  intros Hr Hmax Hlt Hinv.
  pose proof (max_results_in_range s maxr Hmax) as Hm.
  unfold scroll_window. rewrite Hmax. cbn [obind]. f_equal.
  pose proof (Z.min_spec (global.result_count g) maxr) as Hmin.
  set (m := Z.min (global.result_count g) maxr) in *. clearbody m.
  destruct g as [count hl off a b c d e].
  unfold global.scroll_in_range, window_invariant, clamp_highlight in *; cbn in *.
  destruct Hr as (Hc & Hh & Ho). destruct Hinv as [[H1 H2] H3].
  split_tests; [exfalso; unwrap|].
  unfold set_offset, cmin; cbn.
  split_tests; cbn; try (exfalso; unwrap);
    (apply pair_equal_spec; split;
      [try reflexivity; unfold global.with_offset; cbn; f_equal; unwrap | unwrap]).
Qed.

Lemma scroll_window_fixed_point_witness :
  scroll_window Sample.rows5 (Sample.scroll_state 10 7 3)
    = Done (Sample.scroll_state 10 7 3, Z.min 10 5).
Proof.
  refine (scroll_window_fixed_point Sample.rows5 (Sample.scroll_state 10 7 3) 5 _ _ _ _).
  - unfold global.scroll_in_range, U32.in_range, U32.modulus; cbn. lia.
  - reflexivity.
  - cbn. lia.
  - unfold window_invariant; cbn. lia.
Defined.

(** X5. When the window is not allowed the height of one row, the unsigned
    [max_height / height - 1] wraps to the largest integer: every result
    set counts as fitting, the offset is reset to 0 and all the results
    are selected. *)
Theorem scroll_window_low_window_selects_all (s : settings.t) (g : global.t) :
  global.scroll_in_range g ->
  0 <= settings.max_height s < settings.height s ->
  scroll_window s g =
    Done (global.with_offset (clamp_highlight g) 0, global.result_count g).
Proof.
  intros Hr Hlow.
  unfold scroll_window, max_results.
  destruct (Z.eqb_spec (settings.height s) 0) as [E|_]; [lia|].
  rewrite Z.div_small by lia. cbn [obind]. f_equal.
  change (U32.sub 0 1) with 4294967295.
  destruct (clamp_highlight_in_range g Hr) as (_ & Hcc & _ & _).
  destruct g as [count hl off a b c d e].
  unfold global.scroll_in_range, clamp_highlight in *; cbn in *.
  destruct Hr as (Hc & Hh & Ho).
  split_tests; unfold set_offset, cmin; cbn; split_tests; cbn;
    try (exfalso; unwrap); f_equal; unwrap.
Qed.

Lemma scroll_window_low_window_selects_all_witness :
  scroll_window (settings.mk 20 10 110 200 10 12 10 2 4 false false)
    (Sample.scroll_state 3 1 2) = Done (Sample.scroll_state 3 1 0, 3).
Proof.
  refine (scroll_window_low_window_selects_all
            (settings.mk 20 10 110 200 10 12 10 2 4 false false)
            (Sample.scroll_state 3 1 2) _ _).
  - unfold global.scroll_in_range, U32.in_range, U32.modulus; cbn. lia.
  - cbn. lia.
Defined.

(** ** More on the line that is typed *)

Lemma wrap_i32_small (z : Z) : - 2 ^ 31 <= z < 2 ^ 31 -> wrap_i32 z = z.
Proof.
  intros H. unfold wrap_i32. rewrite Z.mod_small by lia. lia.
Qed.

(** X6. A query whose ink is not wider than the row is shown from the
    left padding, on the baseline of its line, and the cursor bar stands
    two pixels after the advance of the text before the cursor; with an
    underline cursor the glyph follows the text.  The text comes back as
    it was. *)
Theorem draw_typed_line_text_fits (B : backend) (s : settings.t) (g : global.t)
    (text : list Z) (line : Z) (cursor : nat) (fg bg : color_t) (saved : Z) :
  text !! cursor = Some saved ->
  let before := fst (text_extents B (cstring (<[cursor := 0]> text) 0)) in
  let off := calculate_line_offset s g line in
  snd (text_extents B (cstring text 0)) <= settings.width s ->
  0 <= settings.horiz_padding s -> 0 <= before ->
  settings.horiz_padding s + before < 2 ^ 31 ->
  draw_typed_line B s g text line cursor fg bg =
  Done (text,
        Rectangle bg 0 (U32.mul line (settings.height s)) (settings.width s)
                  (U32.mul (U32.add line 1) (settings.height s))
        :: ShowText fg (settings.horiz_padding s) (offset.y off) false
                    (settings.font_size s) (cstring text 0)
        :: (if settings.cursor_is_underline s then [ShowCursorGlyph]
            else [Rectangle fg (settings.horiz_padding s + before + 2)
                    (U32.sub (U32.sub (offset.y off) (settings.font_size s))
                             (settings.cursor_padding s))
                    0
                    (U32.add (settings.font_size s)
                             (U32.mul (settings.cursor_padding s) 2))])).
Proof.
  intros Hs before off Hfit Hpad Hb Hsum.
  unfold draw_typed_line. rewrite Hs.
  rewrite (insert_restore text cursor 0 saved Hs).
  fold before. fold off.
  destruct (text_extents B (cstring text 0)) as [adv w] eqn:He. cbn [snd] in Hfit.
  destruct (Z.ltb_spec (settings.width s) w) as [Hlt|_]; [lia|].
  rewrite (wrap_i32_small before) by lia.
  change (offset.x off) with (settings.horiz_padding s).
  rewrite (wrap_i32_small (before + settings.horiz_padding s)) by lia.
  destruct (Z.ltb_spec (before + settings.horiz_padding s) 0) as [Hneg|_]; [lia|].
  change (offset.x off) with (settings.horiz_padding s).
  replace (before + settings.horiz_padding s + 2)
    with (settings.horiz_padding s + before + 2) by lia.
  reflexivity.
Qed.

Lemma draw_typed_line_text_fits_witness :
  draw_typed_line (Sample.backend false false) Sample.rows5 (Sample.scroll_state 3 0 0)
    Sample.text3 0 2 query_fg query_bg =
  Done (Sample.text3,
        [Rectangle query_bg 0 0 110 20; ShowText query_fg 10 12 false 12 [42; 103; 111];
         Rectangle query_fg 28 4294967294 0 16]).
Proof.
  refine (draw_typed_line_text_fits (Sample.backend false false) Sample.rows5
            (Sample.scroll_state 3 0 0) Sample.text3 0 2 query_fg query_bg 111 _ _ _ _ _).
  - reflexivity.
  - vm_compute. discriminate.
  - vm_compute. discriminate.
  - vm_compute. discriminate.
  - vm_compute. reflexivity.
Defined.

(** X7. A query whose ink is wider than the row while its advance is not
    is shown so that its advance ends at the right edge of the row; the
    cursor bar stays two pixels after the text before the cursor. *)
Theorem draw_typed_line_right_aligned (B : backend) (s : settings.t) (g : global.t)
    (text : list Z) (line : Z) (cursor : nat) (fg bg : color_t) (saved : Z) :
  text !! cursor = Some saved ->
  settings.cursor_is_underline s = false ->
  let before := fst (text_extents B (cstring (<[cursor := 0]> text) 0)) in
  let advance := fst (text_extents B (cstring text 0)) in
  settings.width s < snd (text_extents B (cstring text 0)) ->
  0 <= advance <= settings.width s -> settings.width s < 2 ^ 31 ->
  0 <= before <= advance ->
  exists y cursor_y h background,
    draw_typed_line B s g text line cursor fg bg =
    Done (text,
          [background;
           ShowText fg (settings.width s - advance) y false (settings.font_size s)
                    (cstring text 0);
           Rectangle fg (settings.width s - advance + before + 2) cursor_y 0 h]).
Proof.
  intros Hs Hbar before advance Hwide Hadv Hw Hb.
  unfold draw_typed_line. rewrite Hs, Hbar.
  rewrite (insert_restore text cursor 0 saved Hs).
  fold before. subst advance.
  destruct (text_extents B (cstring text 0)) as [adv w] eqn:He. cbn [fst snd] in *.
  destruct (Z.ltb_spec (settings.width s) w) as [_|Hge]; [|lia].
  cbn [offset.x offset.with_x offset.y].
  assert (Hx : U32.sub (settings.width s) adv = settings.width s - adv).
  { unfold U32.sub. apply wrap_small. unfold U32.in_range, U32.modulus. lia. }
  rewrite Hx.
  rewrite (wrap_i32_small before) by lia.
  rewrite (wrap_i32_small (before + (settings.width s - adv))) by lia.
  destruct (Z.ltb_spec (before + (settings.width s - adv)) 0) as [Hneg|_]; [lia|].
  cbn [offset.x offset.y].
  replace (before + (settings.width s - adv) + 2)
    with (settings.width s - adv + before + 2) by lia.
  eexists; eexists; eexists; eexists; reflexivity.
Qed.

Lemma draw_typed_line_right_aligned_witness :
  exists y cursor_y h background,
    draw_typed_line overhang_backend Sample.rows5 (Sample.scroll_state 3 0 0)
      Sample.text1 0 13 query_fg query_bg =
    Done (Sample.text1,
          [background;
           ShowText query_fg (110 - 104) y false 12 (cstring Sample.text1 0);
           Rectangle query_fg (110 - 104 + 104 + 2) cursor_y 0 h]).
Proof.
  refine (draw_typed_line_right_aligned overhang_backend Sample.rows5
            (Sample.scroll_state 3 0 0) Sample.text1 0 13 query_fg query_bg 0 _ _ _ _ _ _).
  - reflexivity.
  - reflexivity.
  - vm_compute. reflexivity.
  - vm_compute. split; discriminate.
  - vm_compute. reflexivity.
  - vm_compute. split; discriminate.
Defined.

(** ** More on [draw_text] *)

(** X8. In either build [draw_text] moves the offset along x only: the
    baseline and the top for pictures stay; without a [CENTER] among the
    modifiers the offset is the one that came in; the text is shown once,
    at the offset that is handed back, bold exactly when a [BOLD] is
    among the modifiers (with pango the callers set the weight back to
    normal before each call). *)
Theorem draw_text_moves_x_only (B : backend) (d : draw.t) (text : list Z) (W : Z)
    (off : offset.t) (fg : color_t) (size : Z) :
  let r := draw_text B d text W off fg size in
  let off' := fst (fst r) in
  offset.y off' = offset.y off /\
  offset.image_y off' = offset.image_y off /\
  (centers (draw.modifiers_array d) = 0%nat -> off' = off) /\
  snd r = [ShowText fg (offset.x off') (offset.y off)
                    (has_bold (draw.modifiers_array d)) size text].
Proof.
  unfold draw_text, draw_text_pango, draw_text_cairo.
  rewrite pango_modifiers_spec, cairo_modifiers_spec.
  destruct (NO_PANGO B); cbn; (repeat split; [intros ->; cbn; apply with_x_same]).
Qed.

(** X9. With pango each [CENTER] among the modifiers moves the run again:
    [k] of them put it at [x + k * ((W - w) / 2)], in unsigned 32-bit
    arithmetic. *)
Theorem draw_text_pango_centers_add_up (B : backend) (d : draw.t) (text : list Z) (W : Z)
    (off : offset.t) (fg : color_t) (size : Z) :
  U32.in_range (offset.x off) ->
  offset.x (fst (fst (draw_text_pango B d text W off fg size))) =
  U32.wrap (offset.x off
            + Z.of_nat (centers (draw.modifiers_array d))
              * (U32.sub W (draw.data_length d) / 2)).
Proof.
  intros Hx. unfold draw_text_pango. rewrite pango_modifiers_spec. cbn.
  induction (centers (draw.modifiers_array d)) as [|k IH].
  - cbn. rewrite Z.add_0_r. symmetry. apply wrap_small, Hx.
  - rewrite Nat.iter_succ, IH. unfold pango_center, U32.add, U32.wrap.
    rewrite Zplus_mod_idemp_l. f_equal. lia.
Qed.

Lemma draw_text_pango_centers_add_up_witness :
  offset.x (fst (fst (draw_text_pango (Sample.backend false false)
     (draw.mk DRAW_TEXT (Some 0%nat) 20 [CENTER; BOLD; CENTER]) [99; 100] 100
     (offset.mk 10 12 0) result_fg 12)))
  = U32.wrap (10 + 2 * (U32.sub 100 20 / 2)).
Proof.
  refine (draw_text_pango_centers_add_up (Sample.backend false false)
            (draw.mk DRAW_TEXT (Some 0%nat) 20 [CENTER; BOLD; CENTER]) [99; 100] 100
            (offset.mk 10 12 0) result_fg 12 _).
  unfold U32.in_range, U32.modulus; cbn. lia.
Defined.

(** X10. A centered text of a result row.  [draw_line] hands [draw_text]
    the width that is left, [settings.width - x].  With pango the run is
    put in the middle of what is left, at [x + (width - x - w) / 2];
    without pango the offset is taken off once more and the run is put at
    [(width - w) / 2], the middle of the whole row, wherever the offset
    was.  The next run starts after the advance of the text. *)
Theorem draw_line_run_centered (B : backend) (s : settings.t) (fg : color_t)
    (buf : list Z) (d : draw.t) (off : offset.t) :
  draw.type d = DRAW_TEXT ->
  centers (draw.modifiers_array d) = 1%nat ->
  let x := offset.x off in
  let w := draw.data_length d in
  let W := settings.width s in
  0 <= x -> 0 <= w -> 2 * x + w <= W -> W < 2 ^ 32 ->
  let x' := if NO_PANGO B then (W - w) / 2 else x + (W - x - w) / 2 in
  exists advance,
    draw_line_run B s fg buf d off =
    Done (offset.with_x off (U32.add x' advance),
          [ShowText fg x' (offset.y off) (has_bold (draw.modifiers_array d))
                    (settings.font_size s) (run_text buf d)]).
Proof.
  intros Hty Hc x w W Hx Hw Hfit HW x'.
  unfold draw_line_run. rewrite Hty.
  unfold draw_text, draw_text_pango, draw_text_cairo.
  rewrite pango_modifiers_spec, cairo_modifiers_spec, Hc. cbn [Nat.iter nat_rect].
  fold x w W. subst x'.
  destruct (NO_PANGO B); cbn.
  - assert (E : cairo_center (U32.sub W x) w x = (W - w) / 2).
    { unfold cairo_center, U32.add, U32.sub, U32.wrap, U32.modulus.
      rewrite (Z.mod_small (W - x)) by lia.
      rewrite (Z.mod_small (W - x - x)) by lia.
      rewrite (Z.mod_small (W - x - x - w)) by lia.
      replace (W - x - x - w) with ((W - w) + (- x) * 2) by lia.
      rewrite Z.div_add by lia.
      replace (x + ((W - w) / 2 + - x)) with ((W - w) / 2) by lia.
      apply Z.mod_small.
      assert (0 <= (W - w) / 2) by (apply Z.div_pos; lia).
      assert ((W - w) / 2 <= W - w) by (apply Z.div_le_upper_bound; lia).
      lia. }
    rewrite E. eexists; reflexivity.
  - assert (E : pango_center (U32.sub W x) w x = x + (W - x - w) / 2).
    { unfold pango_center, U32.add, U32.sub, U32.wrap, U32.modulus.
      rewrite (Z.mod_small (W - x)) by lia.
      rewrite (Z.mod_small (W - x - w)) by lia.
      apply Z.mod_small.
      assert (0 <= (W - x - w) / 2) by (apply Z.div_pos; lia).
      assert ((W - x - w) / 2 <= W - x - w) by (apply Z.div_le_upper_bound; lia).
      lia. }
    rewrite E. eexists; reflexivity.
Qed.

Lemma draw_line_run_centered_witness :
  exists advance,
    draw_line_run (Sample.backend true true) Sample.rows5 result_fg [99; 100; 0]
      (draw.mk DRAW_TEXT (Some 0%nat) 16 [CENTER]) (offset.mk 34 32 20) =
    Done (offset.with_x (offset.mk 34 32 20) (U32.add ((110 - 16) / 2) advance),
          [ShowText result_fg ((110 - 16) / 2) 32 false 12 [99; 100]]).
Proof.
  refine (draw_line_run_centered (Sample.backend true true) Sample.rows5 result_fg
            [99; 100; 0] (draw.mk DRAW_TEXT (Some 0%nat) 16 [CENTER])
            (offset.mk 34 32 20) _ _ _ _ _ _).
  - reflexivity.
  - reflexivity.
  - cbn. lia.
  - cbn. lia.
  - cbn. lia.
  - cbn. lia.
Defined.

(** X11. A centered text of the description, at an offset [x] from which
    it fits the window: [0 <= x], [0 <= w] and [x + w <= W < 2 ^ 31] for
    [W = settings.width + settings.desc_size].  [draw_desc] hands
    [draw_text] the width up to the right edge of the panel, [W - x].
    With pango the run is put in the middle of what is left of the panel,
    at [x + (W - x - w) / 2].  Without pango the offset is taken off once
    more: while [2 * x + w <= W] the run is put at [(W - w) / 2], the
    middle of the whole window and not of the panel; beyond that, which
    is everywhere in a panel narrower than the rows, the unsigned
    difference wraps around and the run is put at [(W - w) / 2 + 2 ^ 31],
    outside every window.  Without pango the text is also shown in the
    size of the rows, [settings.font_size], not in
    [settings.desc_font_size]. *)
Theorem draw_desc_run_centered (B : backend) (s : settings.t) (g : global.t)
    (fg : color_t) (buf : list Z) (d : draw.t) (off : offset.t) :
  draw.type d = DRAW_TEXT ->
  centers (draw.modifiers_array d) = 1%nat ->
  let x := offset.x off in
  let w := draw.data_length d in
  let W := settings.width s + settings.desc_size s in
  0 <= x -> 0 <= w -> x + w <= W -> W < 2 ^ 31 ->
  let x' :=
    if NO_PANGO B
    then (if 2 * x + w <=? W then (W - w) / 2 else (W - w) / 2 + 2 ^ 31)
    else x + (W - x - w) / 2 in
  let size := if NO_PANGO B then settings.font_size s else settings.desc_font_size s in
  exists advance,
    draw_desc_run B s g fg buf d off =
    Done (offset.with_x off (U32.add x' advance),
          [ShowText fg x' (offset.y off) (has_bold (draw.modifiers_array d))
                    size (run_text buf d)]).
Proof.
  intros Hty Hc x w W Hx Hw Hfit HW x' size.
  unfold draw_desc_run. rewrite Hty.
  unfold draw_text, draw_text_pango, draw_text_cairo, desc_text_size.
  rewrite pango_modifiers_spec, cairo_modifiers_spec, Hc. cbn [Nat.iter nat_rect].
  fold x w. subst x' size.
  assert (EW : U32.add (settings.width s) (settings.desc_size s) = W).
  { unfold U32.add. apply wrap_small. unfold U32.in_range, U32.modulus. subst W. lia. }
  rewrite EW.
  assert (Hhalf : 0 <= (W - w) / 2 <= W).
  { split; [apply Z.div_pos; lia|].
    apply Z.le_trans with (W - w); [apply Z.div_le_upper_bound; lia | lia]. }
  destruct (NO_PANGO B); cbn.
  - assert (E : cairo_center (U32.sub W x) w x =
                if 2 * x + w <=? W then (W - w) / 2 else (W - w) / 2 + 2 ^ 31).
    { unfold cairo_center, U32.add, U32.sub, U32.wrap, U32.modulus.
      rewrite (Z.mod_small (W - x)) by lia.
      rewrite Zminus_mod_idemp_l.
      destruct (Z.leb_spec (2 * x + w) W) as [Hin|Hout].
      - rewrite (Z.mod_small (W - x - x - w)) by lia.
        replace (W - x - x - w) with ((W - w) + (- x) * 2) by lia.
        rewrite Z.div_add by lia.
        replace (x + ((W - w) / 2 + - x)) with ((W - w) / 2) by lia.
        apply Z.mod_small. lia.
      - replace ((W - x - x - w) mod 2 ^ 32) with (W - x - x - w + 2 ^ 32).
        2:{ symmetry. rewrite <- (Z.mod_add _ 1) by lia. rewrite Z.mul_1_l.
            apply Z.mod_small. lia. }
        replace (W - x - x - w + 2 ^ 32) with ((W - w) + (2 ^ 31 - x) * 2) by lia.
        rewrite Z.div_add by lia.
        replace (x + ((W - w) / 2 + (2 ^ 31 - x))) with ((W - w) / 2 + 2 ^ 31) by lia.
        apply Z.mod_small. lia. }
    rewrite E. eexists; reflexivity.
  - assert (E : pango_center (U32.sub W x) w x = x + (W - x - w) / 2).
    { unfold pango_center, U32.add, U32.sub, U32.wrap, U32.modulus.
      rewrite (Z.mod_small (W - x)) by lia.
      rewrite (Z.mod_small (W - x - w)) by lia.
      apply Z.mod_small.
      assert (0 <= (W - x - w) / 2) by (apply Z.div_pos; lia).
      assert ((W - x - w) / 2 <= W - x - w) by (apply Z.div_le_upper_bound; lia).
      lia. }
    rewrite E. eexists; reflexivity.
Qed.

Lemma draw_desc_run_centered_witness :
  exists advance,
    draw_desc_run (Sample.backend true true)
      (settings.mk 20 120 500 300 10 12 10 2 4 false false) (Sample.scroll_state 3 0 0)
      highlight_fg [99; 100; 0]
      (draw.mk DRAW_TEXT (Some 0%nat) 16 [CENTER]) (offset.mk 502 10 0) =
    Done (offset.with_x (offset.mk 502 10 0) (U32.add 2147484040 advance),
          [ShowText highlight_fg 2147484040 10 false 12 [99; 100]]).
Proof.
  refine (draw_desc_run_centered (Sample.backend true true)
            (settings.mk 20 120 500 300 10 12 10 2 4 false false)
            (Sample.scroll_state 3 0 0) highlight_fg
            [99; 100; 0] (draw.mk DRAW_TEXT (Some 0%nat) 16 [CENTER])
            (offset.mk 502 10 0) _ _ _ _ _ _).
  - reflexivity.
  - reflexivity.
  - cbn. lia.
  - cbn. lia.
  - cbn. lia.
  - cbn. lia.
Defined.

(** ** More on images *)

Lemma image_modifiers_y (ms : list modifier_type_t) (wx fw : Z) (off : offset.t) :
  offset.y (image_modifiers ms wx fw off) = offset.y off /\
  offset.image_y (image_modifiers ms wx fw off) = offset.image_y off.
Proof.
  revert off. induction ms as [|m ms IH]; intros off; cbn [image_modifiers].
  - split; reflexivity.
  - destruct m; rewrite ?(proj1 (IH _)), ?(proj2 (IH _)); split; reflexivity.
Qed.

(** What [draw_image] hands back lies within the rectangle it was given. *)
Lemma draw_image_bounded (B : backend) (d : draw.t) (buf : list Z) (p : nat)
    (off : offset.t) (wx wy : Z) :
  draw.data d = Some p ->
  let path := expanded_path B (cstring buf p) in
  (access B path = true -> fgetc_first B path <> None) ->
  (forall iw ih, gdk_pixbuf_size B path = Some (iw, ih) \/
                 png_surface_size B path = Some (iw, ih) ->
                 1 <= iw < 2 ^ 20 /\ 1 <= ih < 2 ^ 20) ->
  0 <= wx < 2 ^ 20 -> 0 <= wy < 2 ^ 20 ->
  exists fmt ops,
    draw_image B d buf off wx wy = Done (fmt, ops) /\
    0 <= format.width fmt <= wx /\ 0 <= format.height fmt <= wy.
Proof.
  intros Hd path Hopen Hsize Hwx Hwy.
  unfold draw_image. rewrite Hd. fold path.
  destruct (access B path) eqn:Hacc; cbn [negb].
  2:{ eexists; eexists. split; [reflexivity|]. cbn. lia. }
  destruct (fgetc_first B path) as [magic|] eqn:Hf; [|exfalso; apply Hopen; reflexivity].
  assert (Hgdk : exists fmt ops,
            (let* r := draw_image_with_gdk B d path off wx wy (format.mk 0 0) in
             Done (snd (fst r), snd r)) = Done (fmt, ops) /\
            0 <= format.width fmt <= wx /\ 0 <= format.height fmt <= wy).
  { unfold draw_image_with_gdk.
    destruct (gdk_pixbuf_size B path) as [[iw ih]|] eqn:Hg.
    2:{ eexists; eexists. split; [reflexivity|]. cbn. lia. }
    destruct (Hsize iw ih (or_introl eq_refl)) as [Hiw Hih].
    unfold get_new_size.
    destruct ((wx <? iw) || (wy <? ih)) eqn:Hbig.
    - destruct (scaled_format_spec iw ih wx wy Hiw Hih Hwx Hwy)
        as (tw & th & Hs & Htw & Hth & _).
      rewrite Hs. cbn. eexists; eexists. split; [reflexivity|]. cbn. lia.
    - cbn. eexists; eexists. split; [reflexivity|]. cbn. lia. }
  assert (Hpng : exists fmt ops,
            (let* r := draw_png B d path off wx wy in
             Done (snd (fst r), snd r)) = Done (fmt, ops) /\
            0 <= format.width fmt <= wx /\ 0 <= format.height fmt <= wy).
  { unfold draw_png.
    destruct (png_surface_size B path) as [[iw ih]|] eqn:Hg; cbn [format.width format.height].
    - destruct (Hsize iw ih (or_intror eq_refl)) as [Hiw Hih].
      destruct ((wx <? iw) || (wy <? ih)) eqn:Hbig.
      + destruct (scaled_format_spec iw ih wx wy Hiw Hih Hwx Hwy)
          as (tw & th & Hs & Htw & Hth & _).
        rewrite Hs. cbn. eexists; eexists. split; [reflexivity|]. cbn. lia.
      + apply orb_false_iff in Hbig. destruct Hbig as [H1 H2].
        apply Z.ltb_ge in H1, H2.
        cbn. eexists; eexists. split; [reflexivity|]. cbn. lia.
    - destruct (Z.ltb_spec wx 0); [lia|]. destruct (Z.ltb_spec wy 0); [lia|].
      cbn. eexists; eexists. split; [reflexivity|]. cbn. lia. }
  destruct (NO_GDK B).
  - destruct (magic =? 137); [exact Hpng|].
    eexists; eexists. split; [reflexivity|]. cbn. lia.
  - destruct ((magic =? 137) || (magic =? 255) || (magic =? 47)); [exact Hgdk|].
    eexists; eexists. split; [reflexivity|]. cbn. lia.
Qed.

(** X12. [draw_image] paints nothing at all, and hands back the format
    [{0, 0}], when the file is not found, when its first byte is none of
    those the build knows (137 alone without GDK; 137, 255 and 47 with
    it), and when GDK reports an error. *)
Theorem draw_image_skips_without_paint (B : backend) (d : draw.t) (buf : list Z)
    (p : nat) (off : offset.t) (wx wy : Z) :
  draw.data d = Some p ->
  let path := expanded_path B (cstring buf p) in
  access B path = false \/
  (exists magic,
     access B path = true /\ fgetc_first B path = Some magic /\
     ((if NO_GDK B then magic <> 137
       else magic <> 137 /\ magic <> 255 /\ magic <> 47) \/
      (NO_GDK B = false /\ gdk_pixbuf_size B path = None))) ->
  draw_image B d buf off wx wy = Done (format.mk 0 0, []).
Proof.
  intros Hd path H. unfold draw_image. rewrite Hd. fold path.
  destruct H as [Hacc | (magic & Hacc & Hf & Hcase)]; rewrite Hacc; cbn [negb];
    [reflexivity|].
  rewrite Hf. destruct Hcase as [Hmagic | [Hb Hg]].
  - destruct (NO_GDK B).
    + destruct (Z.eqb_spec magic 137); [contradiction|reflexivity].
    + destruct Hmagic as (H1 & H2 & H3).
      destruct (Z.eqb_spec magic 137); [contradiction|].
      destruct (Z.eqb_spec magic 255); [contradiction|].
      destruct (Z.eqb_spec magic 47); [contradiction|]. reflexivity.
  - rewrite Hb. unfold draw_image_with_gdk. rewrite Hg.
    destruct ((magic =? 137) || (magic =? 255) || (magic =? 47)); reflexivity.
Qed.

Lemma draw_image_skips_without_paint_witness :
  draw_image (Sample.backend false false) (draw.mk DRAW_IMAGE (Some 0%nat) 16 [CENTER])
    [63; 97; 0] (offset.mk 10 32 20) 100 20 = Done (format.mk 0 0, []).
Proof.
  refine (draw_image_skips_without_paint (Sample.backend false false)
            (draw.mk DRAW_IMAGE (Some 0%nat) 16 [CENTER]) [63; 97; 0] 0
            (offset.mk 10 32 20) 100 20 _ _).
  - reflexivity.
  - right. exists 0. split; [reflexivity|]. split; [reflexivity|].
    left. cbn. repeat split; discriminate.
Defined.

(** X13. Whenever the file can be opened and the sizes are below
    [2 ^ 20], [draw_image] returns, and the format it hands back does not
    exceed the rectangle it was given, in either build and whatever the
    file holds. *)
Theorem draw_image_within_rectangle (B : backend) (d : draw.t) (buf : list Z) (p : nat)
    (off : offset.t) (wx wy : Z) :
  draw.data d = Some p ->
  let path := expanded_path B (cstring buf p) in
  (access B path = true -> fgetc_first B path <> None) ->
  (forall iw ih, gdk_pixbuf_size B path = Some (iw, ih) \/
                 png_surface_size B path = Some (iw, ih) ->
                 1 <= iw < 2 ^ 20 /\ 1 <= ih < 2 ^ 20) ->
  0 <= wx < 2 ^ 20 -> 0 <= wy < 2 ^ 20 ->
  exists fmt ops,
    draw_image B d buf off wx wy = Done (fmt, ops) /\
    0 <= format.width fmt <= wx /\ 0 <= format.height fmt <= wy.
Proof. intros Hd path. apply draw_image_bounded. exact Hd. Qed.

Lemma draw_image_within_rectangle_witness :
  exists fmt ops,
    draw_image (Sample.backend true true) (draw.mk DRAW_IMAGE (Some 0%nat) 16 [])
      [97; 0] (offset.mk 10 32 20) 30 20 = Done (fmt, ops) /\
    0 <= format.width fmt <= 30 /\ 0 <= format.height fmt <= 20.
Proof.
  refine (draw_image_within_rectangle (Sample.backend true true)
            (draw.mk DRAW_IMAGE (Some 0%nat) 16 []) [97; 0] 0
            (offset.mk 10 32 20) 30 20 _ _ _ _ _).
  - reflexivity.
  - intros _. discriminate.
  - intros iw ih [H|H]; vm_compute in H; injection H as <- <-; lia.
  - lia.
  - lia.
Defined.

(** X14. In a result row an image never pushes the offset beyond the
    right edge: a run of type [DRAW_IMAGE] that starts at [x <= width]
    leaves the offset between [x] and [settings.width], on the same
    baseline. *)
Theorem draw_line_image_stays_in_row (B : backend) (s : settings.t) (fg : color_t)
    (buf : list Z) (d : draw.t) (p : nat) (off : offset.t) :
  draw.type d = DRAW_IMAGE -> draw.data d = Some p ->
  let path := expanded_path B (cstring buf p) in
  (access B path = true -> fgetc_first B path <> None) ->
  (forall iw ih, gdk_pixbuf_size B path = Some (iw, ih) \/
                 png_surface_size B path = Some (iw, ih) ->
                 1 <= iw < 2 ^ 20 /\ 1 <= ih < 2 ^ 20) ->
  0 <= offset.x off <= settings.width s -> settings.width s < 2 ^ 20 ->
  0 <= settings.height s < 2 ^ 20 ->
  exists off' ops,
    draw_line_run B s fg buf d off = Done (off', ops) /\
    offset.x off <= offset.x off' <= settings.width s /\
    offset.y off' = offset.y off /\ offset.image_y off' = offset.image_y off.
Proof.
  intros Hty Hd path Hopen Hsize Hx Hw Hh.
  unfold draw_line_run. rewrite Hty.
  assert (Hsub : U32.sub (settings.width s) (offset.x off)
                 = settings.width s - offset.x off).
  { unfold U32.sub. apply wrap_small. unfold U32.in_range, U32.modulus. lia. }
  rewrite Hsub.
  destruct (draw_image_bounded B d buf p off (settings.width s - offset.x off)
              (settings.height s) Hd Hopen Hsize)
    as (fmt & ops & Hr & Hfw & _); [lia | lia |].
  rewrite Hr. cbn. eexists; eexists. split; [reflexivity|]. cbn.
  unfold U32.add. rewrite wrap_small by (unfold U32.in_range, U32.modulus; lia).
  repeat split; lia.
Qed.

Lemma draw_line_image_stays_in_row_witness :
  exists off' ops,
    draw_line_run (Sample.backend true true) Sample.rows5 result_fg [97; 0]
      (draw.mk DRAW_IMAGE (Some 0%nat) 16 []) (offset.mk 80 32 20) = Done (off', ops) /\
    80 <= offset.x off' <= 110 /\ offset.y off' = 32 /\ offset.image_y off' = 20.
Proof.
  refine (draw_line_image_stays_in_row (Sample.backend true true) Sample.rows5 result_fg
            [97; 0] (draw.mk DRAW_IMAGE (Some 0%nat) 16 []) 0 (offset.mk 80 32 20)
            _ _ _ _ _ _ _).
  - reflexivity.
  - reflexivity.
  - intros _. discriminate.
  - intros iw ih [H|H]; vm_compute in H; injection H as <- <-; lia.
  - cbn. lia.
  - cbn. lia.
  - cbn. lia.
Defined.

(** X15. Fitting twice is fitting once: the format that [get_new_size]
    computes for a picture that is too big fits the rectangle, so that
    [get_new_size] called again on it leaves it as it is. *)
Theorem get_new_size_idempotent (w h X Y : Z) (fmt fmt1 : format.t) :
  1 <= w < 2 ^ 20 -> 1 <= h < 2 ^ 20 -> 0 <= X < 2 ^ 20 -> 0 <= Y < 2 ^ 20 ->
  X < w \/ Y < h ->
  get_new_size w h X Y fmt = Done fmt1 ->
  get_new_size (format.width fmt1) (format.height fmt1) X Y fmt1 = Done fmt1.
Proof.
  intros Hw Hh HX HY Hbig H.
  destruct (scaled_format_spec w h X Y Hw Hh HX HY) as (tw & th & Hs & Htw & Hth & _).
  unfold get_new_size in H.
  assert (Htest : (X <? w) || (Y <? h) = true).
  { apply orb_true_iff. destruct Hbig; [left|right]; apply Z.ltb_lt; assumption. }
  rewrite Htest, Hs in H. injection H as <-. cbn.
  apply get_new_size_fits; lia.
Qed.

Lemma get_new_size_idempotent_witness :
  get_new_size 100 66 100 100 (format.mk 100 66) = Done (format.mk 100 66).
Proof.
  refine (get_new_size_idempotent 300 200 100 100 (format.mk 0 0) (format.mk 100 66)
            _ _ _ _ _ _).
  - lia.
  - lia.
  - lia.
  - lia.
  - left. lia.
  - vm_compute. reflexivity.
Defined.

(** X16. A picture that is asked to fit a rectangle with no width or no
    height gets the size 0 by 0, in [get_new_size] and in [draw_png]
    alike. *)
Theorem image_in_empty_rectangle (B : backend) (d : draw.t) (path : list Z)
    (off : offset.t) (w h X Y : Z) (fmt : format.t) :
  1 <= w < 2 ^ 24 -> 1 <= h < 2 ^ 24 -> 0 <= X < 2 ^ 24 -> 0 <= Y < 2 ^ 24 ->
  X = 0 \/ Y = 0 ->
  get_new_size w h X Y fmt = Done (format.mk 0 0) /\
  (png_surface_size B path = Some (w, h) ->
   exists off' x y,
     draw_png B d path off X Y = Done (off', format.mk 0 0, [PaintImage x y 0 0 path])).
Proof.
  intros Hw Hh HX HY Hempty.
  pose proof (scaled_format_empty w h X Y Hw Hh HX HY Hempty) as Hs.
  assert (Htest : (X <? w) || (Y <? h) = true).
  { apply orb_true_iff. destruct Hempty; [left|right]; apply Z.ltb_lt; lia. }
  split.
  - unfold get_new_size. rewrite Htest. exact Hs.
  - intros Hp. unfold draw_png. rewrite Hp. cbn [format.width format.height].
    rewrite Htest, Hs. cbn. eexists; eexists; eexists; reflexivity.
Qed.

Lemma image_in_empty_rectangle_witness :
  get_new_size 48 48 0 20 (format.mk 7 7) = Done (format.mk 0 0).
Proof.
  refine (proj1 (image_in_empty_rectangle (Sample.backend true true)
            (draw.mk DRAW_IMAGE (Some 0%nat) 16 []) [97] (offset.mk 110 32 20)
            48 48 0 20 (format.mk 7 7) _ _ _ _ _)).
  - lia.
  - lia.
  - lia.
  - lia.
  - left. reflexivity.
Defined.

(** X17. A picture that fits the rectangle as it is.  Without GDK it is
    painted in its natural size, which is also the format handed back;
    with GDK [get_new_size] leaves the format that [draw_image] set to
    [{0, 0}], so that the picture is scaled to 0 by 0 and the caller
    advances by nothing. *)
Theorem draw_image_of_fitting_picture (B : backend) (d : draw.t) (buf : list Z)
    (p : nat) (off : offset.t) (wx wy iw ih : Z) :
  draw.data d = Some p ->
  let path := expanded_path B (cstring buf p) in
  access B path = true -> fgetc_first B path = Some 137 ->
  (if NO_GDK B then png_surface_size B path else gdk_pixbuf_size B path) = Some (iw, ih) ->
  iw <= wx -> ih <= wy ->
  let fmt := if NO_GDK B then format.mk iw ih else format.mk 0 0 in
  let off' := image_modifiers (draw.modifiers_array d) wx (format.width fmt) off in
  draw_image B d buf off wx wy =
  Done (fmt, [PaintImage (offset.x off') (offset.image_y off)
                         (format.width fmt) (format.height fmt) path]).
Proof.
  intros Hd path Hacc Hf Hsz Hw Hh fmt off'.
  unfold draw_image. rewrite Hd. fold path. rewrite Hacc, Hf. cbn [negb].
  subst fmt off'.
  destruct (NO_GDK B); cbn [Z.eqb Pos.eqb orb].
  - unfold draw_png. rewrite Hsz. cbn [format.width format.height].
    destruct (Z.ltb_spec wx iw); [lia|]. destruct (Z.ltb_spec wy ih); [lia|].
    cbn. rewrite (proj2 (image_modifiers_y _ _ _ _)). reflexivity.
  - unfold draw_image_with_gdk. rewrite Hsz.
    rewrite get_new_size_fits by assumption.
    cbn. rewrite (proj2 (image_modifiers_y _ _ _ _)). reflexivity.
Qed.

Lemma draw_image_of_fitting_picture_witness :
  draw_image (Sample.backend true true) (draw.mk DRAW_IMAGE (Some 0%nat) 16 [CENTER])
    [97; 0] (offset.mk 10 32 20) 100 50 =
  Done (format.mk 48 48, [PaintImage 36 20 48 48 [97]]).
Proof.
  refine (draw_image_of_fitting_picture (Sample.backend true true)
            (draw.mk DRAW_IMAGE (Some 0%nat) 16 [CENTER]) [97; 0] 0
            (offset.mk 10 32 20) 100 50 48 48 _ _ _ _ _ _).
  - reflexivity.
  - reflexivity.
  - reflexivity.
  - reflexivity.
  - lia.
  - lia.
Defined.

(** ** More on [draw_line] and [draw_desc] *)

Lemma draw_image_ops (B : backend) (d : draw.t) (buf : list Z) (off : offset.t)
    (wx wy : Z) (fmt : format.t) (ops : list op) (fg : color_t) :
  draw_image B d buf off wx wy = Done (fmt, ops) ->
  Forall (on_row fg (offset.y off) (offset.image_y off)) ops.
Proof.
  unfold draw_image. intros H.
  destruct (draw.data d) as [p|]; [|discriminate].
  set (path := expanded_path B (cstring buf p)) in *.
  destruct (access B path); cbn [negb] in H; [|injection H as _ <-; constructor].
  destruct (fgetc_first B path) as [magic|]; [|discriminate].
  assert (Hpng : forall r, draw_png B d path off wx wy = Done r ->
                 Forall (on_row fg (offset.y off) (offset.image_y off)) (snd r)).
  { intros r Hr. unfold draw_png in Hr.
    match type of Hr with
    | (let* _ := ?m in _) = _ => destruct m as [f| |]; cbn in Hr; try discriminate
    end.
    injection Hr as <-. cbn. constructor; [|constructor].
    cbn. apply image_modifiers_y. }
  assert (Hgdk : forall r, draw_image_with_gdk B d path off wx wy (format.mk 0 0) = Done r ->
                 Forall (on_row fg (offset.y off) (offset.image_y off)) (snd r)).
  { intros r Hr. unfold draw_image_with_gdk in Hr.
    destruct (gdk_pixbuf_size B path) as [[iw ih]|]; [|injection Hr as <-; constructor].
    destruct (get_new_size iw ih wx wy (format.mk 0 0)) as [f| |]; cbn in Hr;
      try discriminate.
    injection Hr as <-. cbn. constructor; [|constructor].
    cbn. apply image_modifiers_y. }
  destruct (NO_GDK B).
  - destruct (magic =? 137); [|injection H as _ <-; constructor].
    destruct (draw_png B d path off wx wy) as [r| |] eqn:Hr; cbn in H; try discriminate.
    injection H as _ <-. apply Hpng. reflexivity.
  - destruct ((magic =? 137) || (magic =? 255) || (magic =? 47));
      [|injection H as _ <-; constructor].
    destruct (draw_image_with_gdk B d path off wx wy (format.mk 0 0)) as [r| |] eqn:Hr;
      cbn in H; try discriminate.
    injection H as _ <-. apply Hgdk. reflexivity.
Qed.

Lemma draw_line_run_on_row (B : backend) (s : settings.t) (fg : color_t) (buf : list Z)
    (d : draw.t) (off off' : offset.t) (ops : list op) :
  draw_line_run B s fg buf d off = Done (off', ops) ->
  offset.y off' = offset.y off /\ offset.image_y off' = offset.image_y off /\
  Forall (on_row fg (offset.y off) (offset.image_y off)) ops.
Proof.
  unfold draw_line_run. intros H. destruct (draw.type d).
  - injection H as <- <-. repeat split. constructor.
  - injection H as <- <-. repeat split. constructor.
  - destruct (draw_image B d buf off _ _) as [[fmt iops]| |] eqn:Hi; cbn in H;
      try discriminate.
    injection H as <- <-. repeat split. eapply draw_image_ops. exact Hi.
  - unfold draw_text, draw_text_pango, draw_text_cairo in H.
    rewrite pango_modifiers_spec, cairo_modifiers_spec in H.
    destruct (NO_PANGO B); injection H as <- <-; cbn; repeat split;
      constructor; cbn; auto.
Qed.

Lemma draw_line_loop_on_row (B : backend) (s : settings.t) (fuel : nat) :
  forall (fg : color_t) (buf : list Z) (c : nat) (off : offset.t)
         (ms : list modifier_type_t) (buf' : list Z) (ops : list op),
    draw_line_loop B s fuel fg buf c off ms = Done (buf', ops) ->
    Forall (on_row fg (offset.y off) (offset.image_y off)) ops.
Proof.
  induction fuel as [|fuel IH]; intros fg buf c off ms buf' ops H; [discriminate|].
  cbn [draw_line_loop] in H.
  destruct (buf !! c) as [b|]; [|discriminate].
  destruct (b =? 0); [injection H as _ <-; constructor|].
  destruct (parse_result_line B buf c _ ms) as [[d c'] ms'].
  destruct (draw.data d); [|injection H as _ <-; constructor].
  destruct (buf !! c') as [saved|]; [|discriminate].
  destruct (draw_line_run B s fg (<[c' := 0]> buf) d off) as [[off1 rops]| |] eqn:Hr;
    cbn in H; try discriminate.
  destruct (draw_line_loop B s fuel fg _ c' off1 ms') as [[kb kops]| |] eqn:Hk;
    cbn in H; try discriminate.
  injection H as _ <-.
  destruct (draw_line_run_on_row B s fg _ d off off1 rops Hr) as (Hy & Hiy & Hops).
  apply Forall_app. split; [exact Hops|].
  rewrite <- Hy, <- Hiy. eapply IH. exact Hk.
Qed.

(** X18. Whatever the parser finds in the text of a row, [draw_line]
    paints the background of the row first and then nothing but texts in
    the colour of the row on the baseline of the row,
    [height * line + real_font_size], and pictures at the top of the row,
    [height * line]: no run of a row moves another row's text. *)
Theorem draw_line_paints_on_its_row (B : backend) (s : settings.t) (fuel : nat)
    (g : global.t) (text : list Z) (line : Z) (fg bg : color_t)
    (text' : list Z) (ops : list op) :
  draw_line B s fuel g text line fg bg = Done (text', ops) ->
  exists rest,
    ops = Rectangle bg 0 (U32.add (U32.mul line (settings.height s)) 2) (settings.width s)
                    (U32.mul (U32.add line 1) (settings.height s)) :: rest /\
    Forall (on_row fg (U32.add (U32.mul (settings.height s) line) (global.real_font_size g))
                   (U32.mul (settings.height s) line)) rest.
Proof.
  unfold draw_line. intros H.
  destruct (draw_line_loop B s fuel fg text 0 _ []) as [[kb kops]| |] eqn:Hk;
    cbn in H; try discriminate.
  injection H as _ <-. exists kops. split; [reflexivity|].
  apply draw_line_loop_on_row in Hk. exact Hk.
Qed.

Lemma draw_line_paints_on_its_row_witness :
  exists rest,
    [Rectangle result_bg 0 42 110 60; ShowText result_fg 10 52 false 12 [97; 98];
     ShowText result_fg 60 52 false 12 [99; 100];
     ShowText result_fg 76 52 false 12 [32; 101; 102]] =
    Rectangle result_bg 0 (U32.add (U32.mul 2 20) 2) 110 (U32.mul (U32.add 2 1) 20) :: rest /\
    Forall (on_row result_fg (U32.add (U32.mul 20 2) 12) (U32.mul 20 2)) rest.
Proof.
  refine (draw_line_paints_on_its_row (Sample.backend false false) Sample.rows5 20
            (Sample.scroll_state 3 0 0) Sample.text1 2 result_fg result_bg
            Sample.text1 _ _).
  vm_compute. reflexivity.
Defined.

Lemma draw_line_run_text_done (B : backend) (s : settings.t) (fg : color_t)
    (buf : list Z) (d : draw.t) (off : offset.t) :
  draw.type d <> DRAW_IMAGE ->
  exists r, draw_line_run B s fg buf d off = Done r.
Proof.
  intros Hty. unfold draw_line_run. destruct (draw.type d); try contradiction.
  - eexists; reflexivity.
  - eexists; reflexivity.
  - destruct (draw_text B d _ _ off fg _) as [[off' w] ops]. eexists; reflexivity.
Qed.

Lemma draw_desc_run_text_done (B : backend) (s : settings.t) (g : global.t)
    (fg : color_t) (buf : list Z) (d : draw.t) (off : offset.t) :
  draw.type d <> DRAW_IMAGE ->
  exists r, draw_desc_run B s g fg buf d off = Done r.
Proof.
  intros Hty. unfold draw_desc_run. destruct (draw.type d); try contradiction.
  - eexists; reflexivity.
  - eexists; reflexivity.
  - destruct (draw_text B d _ _ off fg _) as [[off' w] ops]. eexists; reflexivity.
Qed.

Lemma draw_line_loop_text_done (B : backend) (s : settings.t) (buf : list Z) :
  parser_stays_inside B buf -> parser_finds_no_image B buf ->
  forall (fuel : nat) (fg : color_t) (c : nat) (off : offset.t)
         (ms : list modifier_type_t),
    (c < length buf)%nat -> (length buf - c < fuel)%nat ->
    exists ops, draw_line_loop B s fuel fg buf c off ms = Done (buf, ops).
Proof.
  intros Hin Htxt. induction fuel as [|fuel IH]; intros fg c off ms Hc Hfuel; [lia|].
  cbn [draw_line_loop].
  destruct (lookup_lt_is_Some_2 buf c Hc) as [b Hb]. rewrite Hb.
  destruct (Z.eqb_spec b 0) as [_|Hnz]; [eexists; reflexivity|].
  specialize (Hin c (U32.sub (settings.width s) (offset.x off)) ms b Hb Hnz).
  specialize (Htxt c (U32.sub (settings.width s) (offset.x off)) ms).
  destruct (parse_result_line B buf c _ ms) as [[d c'] ms']. cbn [fst snd] in Hin, Htxt.
  destruct (draw.data d); [|eexists; reflexivity].
  destruct (lookup_lt_is_Some_2 buf c' (proj2 Hin)) as [saved Hs]. rewrite Hs.
  destruct (draw_line_run_text_done B s fg (<[c' := 0]> buf) d off Htxt) as [r Hr].
  rewrite Hr. cbn [obind]. rewrite (insert_restore buf c' 0 saved Hs).
  destruct (IH fg c' (fst r) ms') as [ops Hops]; [lia | lia |].
  rewrite Hops. cbn. eexists; reflexivity.
Qed.

Lemma draw_desc_loop_text_done (B : backend) (s : settings.t) (buf : list Z) :
  parser_stays_inside B buf -> parser_finds_no_image B buf ->
  forall (fuel : nat) (g : global.t) (fg : color_t) (c : nat) (off : offset.t)
         (ms : list modifier_type_t),
    (c < length buf)%nat -> (length buf - c < fuel)%nat ->
    exists ops, draw_desc_loop B s fuel g fg buf c off ms = Done (buf, ops).
Proof.
  intros Hin Htxt. induction fuel as [|fuel IH]; intros g fg c off ms Hc Hfuel; [lia|].
  cbn [draw_desc_loop].
  destruct (lookup_lt_is_Some_2 buf c Hc) as [b Hb]. rewrite Hb.
  destruct (Z.eqb_spec b 0) as [_|Hnz]; [eexists; reflexivity|].
  specialize (Hin c (desc_line_width B s off) ms b Hb Hnz).
  specialize (Htxt c (desc_line_width B s off) ms).
  destruct (parse_result_line B buf c _ ms) as [[d c'] ms']. cbn [fst snd] in Hin, Htxt.
  destruct (lookup_lt_is_Some_2 buf c' (proj2 Hin)) as [saved Hs]. rewrite Hs.
  destruct (draw_desc_run_text_done B s g fg (<[c' := 0]> buf) d off Htxt) as [r Hr].
  rewrite Hr. cbn [obind]. rewrite (insert_restore buf c' 0 saved Hs).
  destruct (IH g fg c' (desc_wrap s g (fst r)) ms') as [ops Hops]; [lia | lia |].
  rewrite Hops. cbn. eexists; reflexivity.
Qed.

(** X19. A text without pictures is always painted: for a buffer that is
    not empty, a parser that stops after the cursor and inside the
    buffer, and more fuel than the buffer has bytes, [draw_line] and
    [draw_desc] return, with the buffer as it was. *)
Theorem text_without_images_is_painted (B : backend) (s : settings.t) (fuel : nat)
    (g : global.t) (text : list Z) (line : Z) (fg bg : color_t) :
  (0 < length text)%nat ->
  parser_stays_inside B text -> parser_finds_no_image B text ->
  (length text < fuel)%nat ->
  (exists ops, draw_line B s fuel g text line fg bg = Done (text, ops)) /\
  (exists ops, draw_desc B s fuel g text fg bg = Done (text, ops)).
Proof.
  intros Hlen Hin Htxt Hfuel. split.
  - unfold draw_line.
    destruct (draw_line_loop_text_done B s text Hin Htxt fuel fg 0
                (calculate_line_offset s g line) []) as [ops Hops]; [lia | lia |].
    rewrite Hops. cbn. eexists; reflexivity.
  - unfold draw_desc.
    destruct (draw_desc_loop_text_done B s text Hin Htxt fuel g fg 0
                (offset.mk (U32.add (settings.width s) 2) (global.real_desc_font_size g) 0)
                []) as [ops Hops]; [lia | lia |].
    rewrite Hops. cbn. eexists; reflexivity.
Qed.

Lemma text_without_images_is_painted_witness :
  exists ops,
    draw_line (Sample.backend false false) Sample.rows5 5 (Sample.scroll_state 3 0 0)
      Sample.text3 1 result_fg result_bg = Done (Sample.text3, ops).
Proof.
  refine (proj1 (text_without_images_is_painted (Sample.backend false false) Sample.rows5
            5 (Sample.scroll_state 3 0 0) Sample.text3 1 result_fg result_bg _ _ _ _)).
  - cbn. lia.
  - intros c lw ms b Hb Hnz.
    destruct c as [|[|[|[|c]]]]; cbn in Hb; try discriminate;
      injection Hb as <-; vm_compute; split; lia.
  - intros c lw ms.
    destruct c as [|[|[|[|c]]]]; cbn; discriminate.
  - cbn. lia.
Defined.

Lemma run_end_ge (l : list Z) (i : nat) : (i <= Sample.run_end l i)%nat.
Proof.
  revert i. induction l as [|b l IH]; intros i; cbn; [lia|].
  destruct ((b =? 0) || (b =? 32)); [lia|]. specialize (IH (S i)). lia.
Qed.

Lemma sample_parse_advances (no_pango no_gdk : bool) (buf : list Z) :
  parser_advances (Sample.backend no_pango no_gdk) buf.
Proof.
  intros c lw ms. cbn. unfold Sample.parse.
  pose proof (run_end_ge (drop (S c) buf) (S c)) as H.
  destruct (buf !! match buf !! c with Some 32 => S c | _ => c end) as [k|]; cbn; [|lia].
  destruct (k =? 64) eqn:E1; [apply Z.eqb_eq in E1; subst k; cbn; lia|].
  destruct (k =? 94) eqn:E2; [apply Z.eqb_eq in E2; subst k; cbn; lia|].
  destruct (k =? 42) eqn:E3; [apply Z.eqb_eq in E3; subst k; cbn; lia|].
  destruct k as [|k|k]; cbn; try lia.
  do 7 (destruct k as [k|k|]; cbn; try lia).
Qed.

(** X20. The loops end: with a parser that moves the cursor forward at
    each call, and more fuel than the buffer has bytes, neither
    [draw_line] nor [draw_desc] runs out of fuel, whatever the runs are. *)
Theorem draw_line_and_draw_desc_terminate (B : backend) (s : settings.t) (fuel : nat)
    (g : global.t) (text : list Z) (line : Z) (fg bg : color_t) :
  parser_advances B text -> (length text < fuel)%nat ->
  draw_line B s fuel g text line fg bg <> Timeout /\
  draw_desc B s fuel g text fg bg <> Timeout.
Proof.
  intros Hadv Hfuel. split.
  - unfold draw_line.
    pose proof (draw_line_loop_no_timeout B s fuel fg text 0
                  (calculate_line_offset s g line) [] Hadv ltac:(lia)) as Hnt.
    destruct (draw_line_loop B s fuel fg text 0 _ []) as [k| |]; cbn; congruence.
  - unfold draw_desc.
    pose proof (draw_desc_loop_no_timeout B s fuel g fg text 0
                  (offset.mk (U32.add (settings.width s) 2)
                             (global.real_desc_font_size g) 0) [] Hadv ltac:(lia)) as Hnt.
    destruct (draw_desc_loop B s fuel g fg text 0 _ []) as [k| |]; cbn; congruence.
Qed.

Lemma draw_line_and_draw_desc_terminate_witness :
  draw_line (Sample.backend false false) Sample.rows5 15 (Sample.scroll_state 3 0 0)
    Sample.text1 1 result_fg result_bg <> Timeout.
Proof.
  refine (proj1 (draw_line_and_draw_desc_terminate (Sample.backend false false)
            Sample.rows5 15 (Sample.scroll_state 3 0 0) Sample.text1 1
            result_fg result_bg _ _)).
  - apply sample_parse_advances.
  - cbn. lia.
Defined.

(** ** More on [draw_result_text] and [redraw_all] *)

Lemma with_text_same (r : result.t) : result.with_text r (result.text r) = r.
Proof. destruct r; reflexivity. Qed.

Lemma draw_line_buffer (B : backend) (s : settings.t) (fuel : nat) (g : global.t)
    (text : list Z) (line : Z) (fg bg : color_t) (k : list Z * list op) :
  draw_line B s fuel g text line fg bg = Done k -> fst k = text.
Proof.
  unfold draw_line. intros H.
  destruct (draw_line_loop B s fuel fg text 0 _ []) as [[kb kops]| |] eqn:Hk;
    cbn in H; try discriminate.
  injection H as <-. cbn. eapply draw_line_loop_buffer. exact Hk.
Qed.

Lemma draw_desc_buffer (B : backend) (s : settings.t) (fuel : nat) (g : global.t)
    (text : list Z) (fg bg : color_t) (k : list Z * list op) :
  draw_desc B s fuel g text fg bg = Done k -> fst k = text.
Proof.
  unfold draw_desc. intros H.
  destruct (draw_desc_loop B s fuel g fg text 0 _ []) as [[kb kops]| |] eqn:Hk;
    cbn in H; try discriminate.
  injection H as <-. cbn. eapply draw_desc_loop_buffer. exact Hk.
Qed.

(** The rows: the results come back as they were, and each event is
    the paint of a result in the colours of its kind. *)
Lemma draw_rows_frame (B : backend) (s : settings.t) (n : nat) :
  forall (fuel : nat) (g : global.t) (results : list result.t) (index line bound : Z)
         (results' : list result.t) (evs : list event),
    draw_rows B s n fuel g results index line bound = Done (results', evs) ->
    results' = results /\
    Forall (fun e => exists i l fg bg ops r,
              e = PaintRow i l fg bg ops /\ results !! Z.to_nat i = Some r /\
              (fg, bg) = row_colors g r i) evs.
Proof.
  induction n as [|n IH]; intros fuel g results index line bound results' evs H;
    cbn in H; destruct (index <? bound); try discriminate.
  - injection H as <- <-. split; [reflexivity|constructor].
  - destruct (results !! Z.to_nat index) as [r|] eqn:Hr; [|discriminate].
    destruct (row_colors g r index) as [fg bg] eqn:Hcol.
    destruct (draw_line B s fuel g (result.text r) line fg bg) as [k| |] eqn:Hk;
      cbn in H; try discriminate.
    apply draw_line_buffer in Hk. rewrite Hk, with_text_same in H.
    rewrite (list_insert_id results _ r Hr) in H.
    destruct (draw_rows B s n fuel g results _ _ bound) as [[rs es]| |] eqn:Hrest;
      cbn in H; try discriminate.
    injection H as <- <-.
    destruct (IH _ _ _ _ _ _ _ _ Hrest) as [-> Hall].
    split; [reflexivity|]. constructor; [|exact Hall].
    exists index, line, fg, bg, (snd k), r. repeat split; [exact Hr|]. symmetry; exact Hcol.
  - injection H as <- <-. split; [reflexivity|constructor].
Qed.

Lemma draw_panel_frame (B : backend) (s : settings.t) (fuel : nat) (g : global.t)
    (results results' : list result.t) (evs : list event) :
  draw_panel B s fuel g results = Done (results', evs) ->
  results' = results /\
  if panel_shown g results
  then exists ops, evs = resize_with_desc s g ++ [PaintDesc ops]
  else evs = resize_plain s g.
Proof.
  unfold draw_panel, panel_shown. intros H.
  destruct (global.result_highlight g <? global.result_count g); cbn [andb].
  - destruct (results !! Z.to_nat (global.result_highlight g)) as [r|] eqn:Hr;
      [|discriminate].
    destruct (result.desc r) as [text|] eqn:Hd.
    + destruct (draw_desc B s fuel g text highlight_fg highlight_bg) as [k| |] eqn:Hk;
        cbn in H; try discriminate.
      apply draw_desc_buffer in Hk. injection H as <- <-. split.
      * rewrite Hk. apply list_insert_id. rewrite Hr. f_equal.
        destruct r; unfold result.with_desc; cbn in *. congruence.
      * eexists; reflexivity.
    + injection H as <- <-. split; reflexivity.
  - injection H as <- <-. split; reflexivity.
Qed.

Lemma scroll_window_fields (s : settings.t) (g g' : global.t) (n : Z) :
  scroll_window s g = Done (g', n) ->
  global.result_count g' = global.result_count g /\
  global.real_font_size g' = global.real_font_size g /\
  global.real_desc_font_size g' = global.real_desc_font_size g /\
  global.win_x_pos g' = global.win_x_pos g /\
  global.win_x_pos_with_desc g' = global.win_x_pos_with_desc g /\
  global.win_y_pos g' = global.win_y_pos g.
Proof.
  intros H. destruct (scroll_window_unfold s g g' n H) as (maxr & _ & Hs).
  assert (E : g' = fst (set_offset maxr (clamp_highlight g))) by (rewrite Hs; reflexivity).
  subst g'. clear Hs H.
  destruct g as [count hl off a b c d e].
  unfold clamp_highlight; cbn. split_tests; unfold set_offset; cbn;
    split_tests; cbn; repeat split.
Qed.

Lemma draw_result_text_unfold (B : backend) (s : settings.t) (fuel : nat)
    (g g' : global.t) (results results' : list result.t) (evs : list event) :
  draw_result_text B s fuel g results = Done (g', results', evs) ->
  exists n panel rows,
    scroll_window s g = Done (g', n) /\
    draw_panel B s fuel g' results = Done (results, panel) /\
    draw_rows B s (Z.to_nat (U32.add (global.result_offset g') n - global.result_offset g'))
              fuel g' results (global.result_offset g') 1
              (U32.add (global.result_offset g') n) = Done (results, rows) /\
    results' = results /\
    evs = panel ++ rows ++ [SurfaceFlush; XcbFlush].
Proof.
  unfold draw_result_text. intros H.
  destruct (scroll_window s g) as [[g1 n]| |] eqn:Hw; cbn in H; try discriminate.
  destruct (draw_panel B s fuel g1 results) as [[rs1 panel]| |] eqn:Hp; cbn in H;
    try discriminate.
  destruct (draw_panel_frame B s fuel g1 results rs1 panel Hp) as [-> _].
  destruct (draw_rows B s _ fuel g1 results _ 1 _) as [[rs2 rows]| |] eqn:Hr; cbn in H;
    try discriminate.
  destruct (draw_rows_frame B s _ _ _ _ _ _ _ _ _ Hr) as [-> _].
  injection H as <- <- <-.
  exists n, panel, rows. repeat split; assumption.
Qed.

(** X21. With no results there is nothing to paint under the query line:
    the offset is reset to 0, the window is resized to the height of one
    row (or to [max_height], if that is less), no row and no panel is
    painted and the array of the results is not read, whatever the
    highlight was. *)
Theorem draw_result_text_without_results (B : backend) (s : settings.t) (fuel : nat)
    (g : global.t) (results : list result.t) :
  global.result_count g = 0 ->
  U32.in_range (global.result_highlight g) ->
  0 < settings.height s < U32.modulus ->
  let h := Z.min (settings.height s) (settings.max_height s) in
  draw_result_text B s fuel g results =
  Done (global.with_offset g 0, results,
        (if settings.auto_center s
         then [ConfigureWindowPos (global.win_x_pos g) (global.win_y_pos g)] else [])
        ++ [ConfigureWindowSize (settings.width s) h; SurfaceSetSize (settings.width s) h;
            SurfaceFlush; XcbFlush]).
Proof.
  intros Hc Hh Hht h.
  unfold draw_result_text, scroll_window, max_results.
  destruct (Z.eqb_spec (settings.height s) 0) as [E|_]; [lia|]. cbn [obind].
  set (maxr := U32.sub (settings.max_height s / settings.height s) 1).
  assert (Hm : 0 <= maxr) by apply wrap_in_range.
  assert (Hclamp : clamp_highlight g = g).
  { unfold clamp_highlight. rewrite Hc. change (U32.sub 0 1) with 4294967295.
    destruct (Z.ltb_spec 4294967295 (global.result_highlight g)) as [Hlt|_];
      [unfold U32.in_range, U32.modulus in Hh; lia | reflexivity]. }
  rewrite Hclamp.
  assert (Hset : set_offset maxr g = (global.with_offset g 0, 0)).
  { unfold set_offset, cmin. rewrite Hc.
    destruct (Z.leb_spec 0 maxr) as [_|Hlt]; [|lia].
    destruct (Z.ltb_spec 0 maxr); [reflexivity | f_equal; lia]. }
  rewrite Hset. cbn [fst snd].
  unfold draw_panel. cbn [global.with_offset global.result_highlight global.result_count
                          global.result_offset].
  rewrite Hc.
  destruct (Z.ltb_spec (global.result_highlight g) 0) as [Hneg|_];
    [unfold U32.in_range in Hh; lia|].
  cbn [obind fst snd]. change (U32.add 0 0) with 0. cbn [Z.sub Z.to_nat draw_rows Z.ltb Z.compare].
  cbn [obind fst snd].
  unfold resize_plain, new_height. cbn [global.with_offset global.result_count
    global.win_x_pos global.win_y_pos global.result_highlight global.result_offset].
  rewrite Hc.
  assert (Hh1 : U32.mul (settings.height s) (U32.add 0 1) = settings.height s).
  { change (U32.add 0 1) with 1. unfold U32.mul. rewrite Z.mul_1_r.
    apply wrap_small. unfold U32.in_range. lia. }
  rewrite Hh1.
  assert (Hmin : cmin (settings.height s) (settings.max_height s) = h).
  { unfold cmin, h. destruct (Z.ltb_spec (settings.height s) (settings.max_height s)); lia. }
  rewrite Hmin. change (Z.to_nat (0 - 0)) with 0%nat. cbn [draw_rows].
  change (0 <? 0) with false. cbn [obind fst snd app].
  destruct (settings.auto_center s); reflexivity.
Qed.

Lemma draw_result_text_without_results_witness :
  draw_result_text (Sample.backend false false) Sample.rows5 0
    (Sample.scroll_state 0 4 2) [] =
  Done (Sample.scroll_state 0 4 0, [],
        [ConfigureWindowSize 110 (Z.min 20 120); SurfaceSetSize 110 (Z.min 20 120);
         SurfaceFlush; XcbFlush]).
Proof.
  refine (draw_result_text_without_results (Sample.backend false false) Sample.rows5 0
            (Sample.scroll_state 0 4 2) [] _ _ _).
  - reflexivity.
  - unfold U32.in_range, U32.modulus; cbn. lia.
  - unfold U32.modulus; cbn. lia.
Defined.

(** X22. The height of the window.  When a row fits the highest window
    and the product does not overflow, the window is as high as the query
    line and all the results while they all fit
    ([count <= max_results]), and [max_height] high otherwise. *)
Theorem window_height_follows_results (s : settings.t) (g : global.t) (maxr : Z) :
  max_results s = Done maxr ->
  0 < settings.height s <= settings.max_height s ->
  settings.max_height s < U32.modulus ->
  0 <= global.result_count g ->
  settings.height s * (global.result_count g + 1) < U32.modulus ->
  new_height s g =
  if global.result_count g <=? maxr
  then settings.height s * (global.result_count g + 1)
  else settings.max_height s.
Proof.
  intros Hmax Hh Hmh Hc Hno.
  unfold max_results in Hmax.
  destruct (Z.eqb_spec (settings.height s) 0) as [E|_]; [lia|]. injection Hmax as <-.
  unfold new_height, cmin.
  set (H := settings.height s) in *. set (M := settings.max_height s) in *.
  set (c := global.result_count g) in *.
  assert (Hq : 1 <= M / H) by (apply Z.div_le_lower_bound; lia).
  assert (HqM : H * (M / H) <= M) by (apply Z.mul_div_le; lia).
  assert (HqM' : M < H * (M / H + 1)).
  { pose proof (Z.mod_pos_bound M H ltac:(lia)). pose proof (Z.div_mod M H ltac:(lia)). lia. }
  assert (Hqle : M / H <= M) by (apply Z.div_le_upper_bound; nia).
  assert (Esub : U32.sub (M / H) 1 = M / H - 1).
  { unfold U32.sub. apply wrap_small. unfold U32.in_range. lia. }
  assert (Hcr : c + 1 < U32.modulus) by nia.
  assert (Eadd : U32.add c 1 = c + 1).
  { unfold U32.add. apply wrap_small. unfold U32.in_range. lia. }
  assert (Emul : U32.mul H (c + 1) = H * (c + 1)).
  { unfold U32.mul. apply wrap_small. unfold U32.in_range. nia. }
  rewrite Esub, Eadd, Emul.
  destruct (Z.leb_spec c (M / H - 1)) as [Hfit|Hfit];
    destruct (Z.ltb_spec (H * (c + 1)) M) as [Hlt|Hge]; try reflexivity; nia.
Qed.

Lemma window_height_follows_results_witness :
  new_height Sample.rows5 (Sample.scroll_state 3 0 0) =
  if 3 <=? 5 then 20 * (3 + 1) else 120.
Proof.
  refine (window_height_follows_results Sample.rows5 (Sample.scroll_state 3 0 0) 5
            _ _ _ _ _).
  - reflexivity.
  - cbn. lia.
  - unfold U32.modulus; cbn. lia.
  - cbn. lia.
  - unfold U32.modulus; cbn. lia.
Defined.

(** X23. A repaint changes nothing of what it paints from: after
    [redraw_all] the results, their texts and descriptions, and the query
    are what they were, and of the global state only the highlight and
    the offset can differ. *)
Theorem redraw_all_keeps_its_inputs (B : backend) (s : settings.t) (fuel : nat)
    (g g' : global.t) (results results' : list result.t) (query query' : list Z)
    (cursor : Z) (evs : list event) :
  redraw_all B s fuel g results query cursor = Done (g', results', query', evs) ->
  results' = results /\ query' = query /\
  global.result_count g' = global.result_count g /\
  global.real_font_size g' = global.real_font_size g /\
  global.real_desc_font_size g' = global.real_desc_font_size g /\
  global.win_x_pos g' = global.win_x_pos g /\
  global.win_x_pos_with_desc g' = global.win_x_pos_with_desc g /\
  global.win_y_pos g' = global.win_y_pos g.
Proof.
  unfold redraw_all, draw_query_text. intros H.
  destruct (draw_typed_line B s g query 0 _ query_fg query_bg) as [[q qops]| |] eqn:Hq;
    cbn in H; try discriminate.
  destruct (draw_result_text B s fuel g results) as [[[g1 rs] es]| |] eqn:Hr;
    cbn in H; try discriminate.
  injection H as <- <- <- <-.
  destruct (draw_result_text_unfold B s fuel g g1 results rs es Hr)
    as (n & panel & rows & Hw & _ & _ & -> & _).
  split; [reflexivity|]. split.
  - destruct (query !! Z.to_nat cursor) as [saved|] eqn:Hs.
    + destruct (draw_typed_line_returns B s g query 0 (Z.to_nat cursor) query_fg query_bg)
        as [ops' H']; [eapply lookup_lt_Some; exact Hs|]. congruence.
    + unfold draw_typed_line in Hq. rewrite Hs in Hq. discriminate.
  - eapply scroll_window_fields. exact Hw.
Qed.

Lemma redraw_all_keeps_its_inputs_witness :
  exists g' evs,
    redraw_all (Sample.backend false false) Sample.rows5 20
      (Sample.scroll_state 3 0 0) Sample.results3 Sample.text3 2
    = Done (g', Sample.results3, Sample.text3, evs).
Proof.
  destruct (redraw_all (Sample.backend false false) Sample.rows5 20
              (Sample.scroll_state 3 0 0) Sample.results3 Sample.text3 2)
    as [[[[g' rs] q] evs]| |] eqn:E.
  - destruct (redraw_all_keeps_its_inputs _ _ _ _ _ _ _ _ _ _ _ E) as (-> & -> & _).
    exists g', evs. reflexivity.
  - vm_compute in E. discriminate.
  - vm_compute in E. discriminate.
Defined.

(** X24. The colours of the rows.  In a repaint every row is painted in
    the colours of the results or in those of the highlight; a row in the
    colours of the highlight is the highlighted result, and it has an
    action: a title is never painted as highlighted. *)
Theorem highlight_colours_mark_the_highlight (B : backend) (s : settings.t) (fuel : nat)
    (g g' : global.t) (results results' : list result.t) (evs : list event)
    (i l : Z) (fg bg : color_t) (ops : list op) :
  draw_result_text B s fuel g results = Done (g', results', evs) ->
  In (PaintRow i l fg bg ops) evs ->
  ((fg, bg) = (result_fg, result_bg) \/ (fg, bg) = (highlight_fg, highlight_bg)) /\
  (fg = highlight_fg \/ bg = highlight_bg ->
   i = global.result_highlight g' /\
   exists r a, results !! Z.to_nat i = Some r /\ result.action r = Some a).
Proof.
  intros H Hin.
  destruct (draw_result_text_unfold B s fuel g g' results results' evs H)
    as (n & panel & rows & Hw & Hp & Hr & _ & ->).
  apply in_app_or in Hin. destruct Hin as [Hin|Hin].
  { pose proof (draw_panel_events B s fuel g' results results panel Hp) as Hall.
    rewrite List.Forall_forall in Hall. destruct (Hall _ Hin) as [Hrow _]. discriminate. }
  apply in_app_or in Hin. destruct Hin as [Hin|Hin].
  2:{ cbn in Hin. destruct Hin as [Hin|[Hin|[]]]; discriminate. }
  destruct (draw_rows_frame B s _ _ _ _ _ _ _ _ _ Hr) as [_ Hall].
  rewrite List.Forall_forall in Hall.
  destruct (Hall _ Hin) as (i' & l' & fg' & bg' & ops' & r & He & Hlook & Hcol).
  injection He as <- <- <- <- <-.
  unfold row_colors in Hcol.
  destruct (result.action r) as [a|] eqn:Ha.
  - destruct (Z.eqb_spec i (global.result_highlight g')) as [Hi|Hi];
      injection Hcol as -> ->.
    + split; [right; reflexivity|]. intros _. split; [exact Hi|].
      exists r, a. split; assumption.
    + split; [left; reflexivity|]. intros [E|E]; discriminate.
  - injection Hcol as -> ->. split; [left; reflexivity|]. intros [E|E]; discriminate.
Qed.

Lemma highlight_colours_mark_the_highlight_witness :
  0 = global.result_highlight (Sample.scroll_state 3 0 0) /\
  exists r a, Sample.results3 !! Z.to_nat 0 = Some r /\ result.action r = Some a.
Proof.
  refine (proj2 (highlight_colours_mark_the_highlight (Sample.backend false false)
            Sample.rows5 20 (Sample.scroll_state 3 0 0) (Sample.scroll_state 3 0 0)
            Sample.results3 Sample.results3 _ 0 1 highlight_fg highlight_bg _ _ _)
            (or_introl eq_refl)).
  - vm_compute. reflexivity.
  - vm_compute. right. right. right. left. reflexivity.
Defined.

(** X25. The panel of the description.  A repaint paints the panel
    exactly when the highlight, once clamped, points at a result with a
    description; the window is then resized to
    [settings.width + settings.desc_size], and to [settings.width]
    otherwise; the panel is painted once, before the rows. *)
Theorem description_panel_follows_highlight (B : backend) (s : settings.t) (fuel : nat)
    (g g' : global.t) (results results' : list result.t) (evs : list event) :
  draw_result_text B s fuel g results = Done (g', results', evs) ->
  exists rows,
    Forall (fun e => is_row e = true) rows /\
    if panel_shown g' results
    then exists ops,
           evs = resize_with_desc s g' ++ [PaintDesc ops] ++ rows ++ [SurfaceFlush; XcbFlush]
    else evs = resize_plain s g' ++ rows ++ [SurfaceFlush; XcbFlush].
Proof.
  intros H.
  destruct (draw_result_text_unfold B s fuel g g' results results' evs H)
    as (n & panel & rows & Hw & Hp & Hr & _ & ->).
  exists rows. split.
  - destruct (draw_rows_frame B s _ _ _ _ _ _ _ _ _ Hr) as [_ Hall].
    eapply List.Forall_impl; [|exact Hall].
    intros e (i & l & fg & bg & ops & r & -> & _). reflexivity.
  - destruct (draw_panel_frame B s fuel g' results results panel Hp) as [_ Hpanel].
    destruct (panel_shown g' results).
    + destruct Hpanel as [ops ->]. exists ops. rewrite <- app_assoc. reflexivity.
    + rewrite Hpanel. reflexivity.
Qed.

Lemma description_panel_follows_highlight_witness :
  exists rows ops,
    Forall (fun e => is_row e = true) rows /\
    draw_result_text (Sample.backend false false) Sample.rows5 20
      (Sample.scroll_state 3 0 0) Sample.results3 =
    Done (Sample.scroll_state 3 0 0, Sample.results3,
          resize_with_desc Sample.rows5 (Sample.scroll_state 3 0 0)
            ++ [PaintDesc ops] ++ rows ++ [SurfaceFlush; XcbFlush]).
Proof.
  destruct (draw_result_text (Sample.backend false false) Sample.rows5 20
              (Sample.scroll_state 3 0 0) Sample.results3) as [[[g' rs] evs]| |] eqn:E.
  - destruct (description_panel_follows_highlight _ _ _ _ _ _ _ _ E) as (rows & Hrows & Hp).
    assert (Eg : g' = Sample.scroll_state 3 0 0 /\ rs = Sample.results3).
    { vm_compute in E. injection E as <- <- _. split; reflexivity. }
    destruct Eg as [-> ->].
    change (panel_shown (Sample.scroll_state 3 0 0) Sample.results3) with true in Hp.
    destruct Hp as [ops ->]. exists rows, ops. split; [exact Hrows|reflexivity].
  - vm_compute in E. discriminate.
  - vm_compute in E. discriminate.
Defined.

(** ** The repaint as a whole *)

Lemma draw_line_done (B : backend) (s : settings.t) (fuel : nat) (g : global.t)
    (text : list Z) (line : Z) (fg bg : color_t) :
  paintable B fuel text ->
  exists ops, draw_line B s fuel g text line fg bg = Done (text, ops).
Proof.
  intros (Hlen & Hin & Htxt). unfold draw_line.
  destruct (draw_line_loop_text_done B s text Hin Htxt fuel fg 0
              (calculate_line_offset s g line) []) as [ops Hops]; [lia | lia |].
  rewrite Hops. cbn. eexists; reflexivity.
Qed.

Lemma draw_desc_done (B : backend) (s : settings.t) (fuel : nat) (g : global.t)
    (text : list Z) (fg bg : color_t) :
  paintable B fuel text ->
  exists ops, draw_desc B s fuel g text fg bg = Done (text, ops).
Proof.
  intros (Hlen & Hin & Htxt). unfold draw_desc.
  destruct (draw_desc_loop_text_done B s text Hin Htxt fuel g fg 0
              (offset.mk (U32.add (settings.width s) 2) (global.real_desc_font_size g) 0)
              []) as [ops Hops]; [lia | lia |].
  rewrite Hops. cbn. eexists; reflexivity.
Qed.

Lemma lookup_below (results : list result.t) (i : Z) :
  0 <= i < Z.of_nat (length results) ->
  exists r, results !! Z.to_nat i = Some r.
Proof.
  intros Hi. apply lookup_lt_is_Some_2. lia.
Qed.

Lemma draw_rows_done (B : backend) (s : settings.t) (fuel : nat) (g : global.t)
    (results : list result.t) (bound : Z) :
  Forall (paintable_result B fuel) results ->
  bound <= Z.of_nat (length results) -> bound < U32.modulus ->
  forall (n : nat) (index line : Z),
    0 <= index -> (Z.to_nat (bound - index) <= n)%nat ->
    exists evs, draw_rows B s n fuel g results index line bound = Done (results, evs).
Proof.
  intros Hall Hb Hm.
  induction n as [|n IH]; intros index line Hi Hn; cbn [draw_rows];
    destruct (Z.ltb_spec index bound) as [Hlt|Hge]; try (eexists; reflexivity); [lia|].
  destruct (lookup_below results index) as (r & Hr); [lia|].
  rewrite Hr. destruct (row_colors g r index) as [fg bg].
  destruct (draw_line_done B s fuel g (result.text r) line fg bg
              (proj1 (Forall_lookup_1 _ _ _ _ Hall Hr))) as [ops Hops].
  rewrite Hops. cbn [obind fst snd]. rewrite with_text_same.
  rewrite (list_insert_id results _ r Hr).
  assert (E : U32.add index 1 = index + 1).
  { unfold U32.add. apply wrap_small. unfold U32.in_range. lia. }
  rewrite E. destruct (IH (index + 1) (line + 1)) as [evs Hevs]; [lia | lia |].
  rewrite Hevs. cbn. eexists; reflexivity.
Qed.

Lemma draw_panel_done (B : backend) (s : settings.t) (fuel : nat) (g : global.t)
    (results : list result.t) :
  Forall (paintable_result B fuel) results ->
  0 <= global.result_highlight g ->
  global.result_count g <= Z.of_nat (length results) ->
  exists evs, draw_panel B s fuel g results = Done (results, evs).
Proof.
  intros Hall Hh Hc. unfold draw_panel.
  destruct (Z.ltb_spec (global.result_highlight g) (global.result_count g)) as [Hlt|_];
    [|eexists; reflexivity].
  destruct (lookup_below results (global.result_highlight g)) as (r & Hr); [lia|].
  rewrite Hr. pose proof (proj2 (Forall_lookup_1 _ _ _ _ Hall Hr)) as Hd.
  destruct (result.desc r) as [d|] eqn:Ed; [|eexists; reflexivity].
  destruct (draw_desc_done B s fuel g d highlight_fg highlight_bg Hd) as [ops Hops].
  rewrite Hops. cbn [obind fst snd].
  assert (Er : result.with_desc r d = r).
  { destruct r; unfold result.with_desc; cbn in *. congruence. }
  rewrite Er, (list_insert_id results _ r Hr). eexists; reflexivity.
Qed.

(** X26. A repaint of well-formed inputs returns.  With a scroll state
    within the unsigned range, a row height that is not 0, at least
    [result_count] results, texts and descriptions that are not empty,
    hold no picture and are parsed forward inside their buffers, the
    cursor inside the query, and more fuel than the longest text has
    bytes: [redraw_all] ends without reading outside the results or a
    buffer, and the results and the query are as they were. *)
Theorem redraw_all_returns (B : backend) (s : settings.t) (fuel : nat) (g : global.t)
    (results : list result.t) (query : list Z) (cursor : Z) :
  global.scroll_in_range g ->
  settings.height s <> 0 ->
  global.result_count g <= Z.of_nat (length results) ->
  Forall (paintable_result B fuel) results ->
  0 <= cursor < Z.of_nat (length query) ->
  exists g' evs,
    redraw_all B s fuel g results query cursor = Done (g', results, query, evs).
Proof.
  intros Hr Hh Hc Hall Hcur.
  unfold redraw_all, draw_query_text.
  destruct (draw_typed_line_returns B s g query 0 (Z.to_nat cursor) query_fg query_bg)
    as [qops Hq]; [lia|].
  rewrite Hq. cbn [obind fst snd].
  unfold draw_result_text, scroll_window, max_results.
  destruct (Z.eqb_spec (settings.height s) 0) as [E|_]; [contradiction|].
  cbn [obind].
  set (maxr := U32.sub (settings.max_height s / settings.height s) 1).
  assert (Hm : U32.in_range maxr) by apply wrap_in_range.
  destruct (clamp_highlight_in_range g Hr) as (Hcr & Hcc & Hco & Hch).
  destruct (set_offset_within_count maxr (clamp_highlight g) Hcr Hm) as (Hr' & Hn & Hsum).
  { rewrite Hcc. exact Hch. }
  destruct (set_offset_count maxr (clamp_highlight g)) as [Hcount Hhl].
  destruct (set_offset maxr (clamp_highlight g)) as [g' n] eqn:Hs. cbn [fst snd] in *.
  rewrite Hcc in Hsum, Hcount.
  destruct Hr' as (Hc' & Hh' & Ho'). destruct Hr as (Hc0 & _ & _).
  unfold U32.in_range in Hc', Hh', Ho', Hc0.
  destruct (draw_panel_done B s fuel g' results Hall) as [panel Hp]; [lia | lia |].
  rewrite Hp. cbn [obind fst snd].
  assert (Eb : U32.add (global.result_offset g') n = global.result_offset g' + n).
  { unfold U32.add. apply wrap_small. unfold U32.in_range. lia. }
  rewrite Eb.
  destruct (draw_rows_done B s fuel g' results (global.result_offset g' + n) Hall
              ltac:(lia) ltac:(lia)
              (Z.to_nat (global.result_offset g' + n - global.result_offset g'))
              (global.result_offset g') 1) as [rows Hrows]; [lia | lia |].
  rewrite Hrows. cbn. eexists; eexists; reflexivity.
Qed.

Lemma text3_paintable (no_pango no_gdk : bool) :
  paintable (Sample.backend no_pango no_gdk) 5 Sample.text3.
Proof.
  split; [cbn; lia|]. split.
  - intros c lw ms b Hb Hnz.
    destruct c as [|[|[|[|c]]]]; cbn in Hb; try discriminate;
      injection Hb as <-; vm_compute; split; lia.
  - intros c lw ms.
    destruct c as [|[|[|[|c]]]]; cbn; discriminate.
Qed.

Lemma redraw_all_returns_witness :
  exists g' evs,
    redraw_all (Sample.backend false false) Sample.rows5 5 (Sample.scroll_state 2 1 0)
      results2 Sample.text3 3 = Done (g', results2, Sample.text3, evs).
Proof.
  refine (redraw_all_returns (Sample.backend false false) Sample.rows5 5
            (Sample.scroll_state 2 1 0) results2 Sample.text3 3 _ _ _ _ _).
  - unfold global.scroll_in_range, U32.in_range, U32.modulus; cbn. lia.
  - discriminate.
  - cbn. lia.
  - constructor; [split; [apply text3_paintable | cbn; apply text3_paintable]|].
    constructor; [split; [apply text3_paintable | exact I]|]. constructor.
  - cbn. lia.
Defined.

(** ** The resize, the panel and the order of a repaint *)

Lemma draw_desc_background (B : backend) (s : settings.t) (fuel : nat) (g : global.t)
    (text : list Z) (fg bg : color_t) (text' : list Z) (ops : list op) :
  draw_desc B s fuel g text fg bg = Done (text', ops) ->
  text' = text /\
  exists rest,
    ops = Rectangle bg (U32.add (settings.width s) 2) 0
            (U32.add (settings.width s) (settings.desc_size s))
            (U32.mul (settings.height s) (U32.add (global.result_count g) 1))
          :: rest.
Proof.
  intros H. split.
  - change text' with (fst (text', ops)). eapply draw_desc_buffer. exact H.
  - unfold draw_desc in H.
    destruct (draw_desc_loop B s fuel g fg text 0 _ []) as [k| |] eqn:E;
      cbn in H; try discriminate.
    injection H as _ <-. eexists; reflexivity.
Qed.

Lemma draw_panel_painted (B : backend) (s : settings.t) (fuel : nat) (g : global.t)
    (results results' : list result.t) (evs : list event) :
  draw_panel B s fuel g results = Done (results', evs) ->
  panel_painted B s fuel g results evs.
Proof.
  unfold draw_panel, panel_painted, panel_shown. intros H.
  destruct (global.result_highlight g <? global.result_count g); cbn [andb].
  - destruct (results !! Z.to_nat (global.result_highlight g)) as [r|] eqn:Hr;
      [|discriminate].
    destruct (result.desc r) as [text|] eqn:Hd.
    + destruct (draw_desc B s fuel g text highlight_fg highlight_bg) as [[kb kops]| |] eqn:Hk;
        cbn in H; try discriminate.
      injection H as _ <-.
      destruct (draw_desc_background B s fuel g text _ _ kb kops Hk) as [-> _].
      exists r, text, kops. repeat split; assumption.
    + injection H as _ <-. reflexivity.
  - injection H as _ <-. reflexivity.
Qed.

Lemma draw_rows_painted (B : backend) (s : settings.t) (n : nat) :
  forall (fuel : nat) (g : global.t) (results : list result.t) (index line bound : Z)
         (results' : list result.t) (evs : list event),
    0 <= index -> bound < U32.modulus ->
    draw_rows B s n fuel g results index line bound = Done (results', evs) ->
    forall i : nat, (i < length evs)%nat ->
      exists r ops,
        results !! Z.to_nat (index + Z.of_nat i) = Some r /\
        draw_line B s fuel g (result.text r) (line + Z.of_nat i)
          (fst (row_colors g r (index + Z.of_nat i)))
          (snd (row_colors g r (index + Z.of_nat i))) = Done (result.text r, ops) /\
        evs !! i =
          Some (PaintRow (index + Z.of_nat i) (line + Z.of_nat i)
                  (fst (row_colors g r (index + Z.of_nat i)))
                  (snd (row_colors g r (index + Z.of_nat i))) ops).
Proof.
  induction n as [|n IH]; intros fuel g results index line bound results' evs Hi Hb H;
    cbn in H; destruct (Z.ltb_spec index bound) as [Hlt|Hge]; try discriminate.
  - injection H as _ <-. cbn. intros i Hlen. lia.
  - destruct (results !! Z.to_nat index) as [r|] eqn:Hr; [|discriminate].
    destruct (row_colors g r index) as [fg bg] eqn:Hcol.
    destruct (draw_line B s fuel g (result.text r) line fg bg) as [[kb kops]| |] eqn:Hk;
      cbn in H; try discriminate.
    pose proof (draw_line_buffer B s fuel g _ _ _ _ _ Hk) as Hkb. cbn in Hkb. subst kb.
    rewrite with_text_same, (list_insert_id results _ r Hr) in H.
    destruct (draw_rows B s n fuel g results (U32.add index 1) (line + 1) bound)
      as [[rs revs]| |] eqn:Hrest; cbn in H; try discriminate.
    injection H as _ <-.
    assert (Hnext : U32.add index 1 = index + 1) by unwrap.
    rewrite Hnext in Hrest.
    assert (Hi1 : 0 <= index + 1) by lia.
    pose proof (IH _ _ _ _ _ _ _ _ Hi1 Hb Hrest) as Hrows.
    intros [|i] Hi'.
    + exists r, kops. rewrite !Z.add_0_r, Hcol. cbn. repeat split; assumption.
    + cbn in Hi'. destruct (Hrows i) as (r' & ops' & Hl & Hd & Hev); [lia|].
      exists r', ops'.
      replace (index + Z.of_nat (S i)) with (index + 1 + Z.of_nat i) by lia.
      replace (line + Z.of_nat (S i)) with (line + 1 + Z.of_nat i) by lia.
      repeat split; assumption.
  - injection H as _ <-. cbn. intros i Hlen. lia.
Qed.

(** What a call of [draw_result_text] that returns has done, step by
    step. *)
Lemma draw_result_text_steps (B : backend) (s : settings.t) (fuel : nat)
    (g g' : global.t) (results results' : list result.t) (evs : list event) :
  global.scroll_in_range g ->
  draw_result_text B s fuel g results = Done (g', results', evs) ->
  exists display_results panel rows,
    scroll_window s g = Done (g', display_results) /\
    evs = panel ++ rows ++ [SurfaceFlush; XcbFlush] /\
    panel_painted B s fuel g' results panel /\
    Forall (fun e => is_row e = false /\ is_flush e = false) panel /\
    Forall (fun e => is_row e = true) rows /\
    length rows = Z.to_nat display_results /\
    rows_in_order (global.result_offset g') rows /\
    rows_painted B s fuel g' results (global.result_offset g') rows.
Proof.
  intros Hrange H.
  destruct (draw_result_text_unfold B s fuel g g' results results' evs H)
    as (n & panel & rows & Hw & Hp & Hr & _ & ->).
  exists n, panel, rows.
  destruct (scroll_window_unfold s g g' n Hw) as (maxr & Hmax & Hs).
  pose proof (max_results_in_range s maxr Hmax) as Hm.
  destruct (clamp_highlight_in_range g Hrange) as (Hcr & Hcc & Hco & Hch).
  destruct (set_offset_within_count maxr (clamp_highlight g) Hcr Hm) as (Hr' & Hn & Hsum).
  { rewrite Hcc. exact Hch. }
  rewrite Hs in Hr', Hn, Hsum. cbn [fst snd] in Hr', Hn, Hsum. rewrite Hcc in Hsum.
  destruct Hr' as (_ & _ & Ho). destruct Hrange as (Hc & _).
  unfold U32.in_range in Ho, Hc.
  assert (Hbound : U32.add (global.result_offset g') n = global.result_offset g' + n).
  { unfold U32.add. apply wrap_small. unfold U32.in_range. lia. }
  rewrite Hbound in Hr.
  assert (Hb : global.result_offset g' + n < U32.modulus) by lia.
  destruct (draw_rows_events B s _ _ _ _ _ _ _ _ _ (proj1 Ho) Hb Hr) as [Hlen Hord].
  pose proof (draw_rows_painted B s _ _ _ _ _ _ _ _ _ (proj1 Ho) Hb Hr) as Hpaint.
  destruct (draw_rows_frame B s _ _ _ _ _ _ _ _ _ Hr) as [_ Hall].
  split; [exact Hw|]. split; [reflexivity|].
  split; [eapply draw_panel_painted; exact Hp|].
  split; [eapply draw_panel_events; exact Hp|].
  split.
  { eapply List.Forall_impl; [|exact Hall].
    intros e (i & l & fg & bg & ops & r & -> & _). reflexivity. }
  split; [rewrite Hlen; f_equal; lia|].
  split; [exact Hord|exact Hpaint].
Qed.



(** C9, amended.  A repaint that completes paints the query line first,
    by [draw_typed_line], and flushes the surface once at that point;
    then the window and the surface are resized and, when the
    highlighted result has a description, the panel is painted by
    [draw_desc], with no row and no flush among these events; then come
    the rows of the scroll window, each painted by [draw_line] in the
    colours of its kind, in increasing index from the offset on, one per
    line from line 1 on, as many as [display_results]; and last a flush of
    the surface followed by a flush of the connection. *)
Theorem repaint_order (B : backend) (s : settings.t) (fuel : nat) (g g' : global.t)
    (results results' : list result.t) (query query' : list Z) (cursor : Z)
    (evs : list event) :
  global.scroll_in_range g ->
  redraw_all B s fuel g results query cursor = Done (g', results', query', evs) ->
  exists display_results qops panel rows,
    scroll_window s g = Done (g', display_results) /\
    draw_typed_line B s g query 0 (Z.to_nat cursor) query_fg query_bg = Done (query, qops) /\
    evs = PaintQuery qops :: SurfaceFlush :: panel ++ rows ++ [SurfaceFlush; XcbFlush] /\
    panel_painted B s fuel g' results panel /\
    Forall (fun e => is_row e = false /\ is_flush e = false) panel /\
    length rows = Z.to_nat display_results /\
    rows_in_order (global.result_offset g') rows /\
    rows_painted B s fuel g' results (global.result_offset g') rows.
Proof.
  intros Hrange H. unfold redraw_all, draw_query_text in H.
  destruct (draw_typed_line B s g query 0 _ query_fg query_bg) as [[q qops]| |] eqn:Hq;
    cbn in H; try discriminate.
  destruct (draw_result_text B s fuel g results) as [[[g1 rs] es]| |] eqn:Hr;
    cbn in H; try discriminate.
  injection H as <- <- <- <-.
  assert (Eq : q = query).
  { destruct (query !! Z.to_nat cursor) as [saved|] eqn:Hs.
    - destruct (draw_typed_line_returns B s g query 0 (Z.to_nat cursor) query_fg query_bg)
        as [ops' H']; [eapply lookup_lt_Some; exact Hs|]. congruence.
    - unfold draw_typed_line in Hq. rewrite Hs in Hq. discriminate. }
  subst q.
  destruct (draw_result_text_steps B s fuel g g1 results rs es Hrange Hr)
    as (n & panel & rows & Hw & -> & Hp & Hnone & _ & Hlen & Hord & Hpaint).
  exists n, qops, panel, rows. repeat split; assumption.
Qed.

Lemma repaint_order_witness :
  exists display_results qops panel rows,
    scroll_window Sample.rows5 (Sample.scroll_state 3 0 0)
      = Done (Sample.scroll_state 3 0 0, display_results) /\
    [PaintQuery
       [Rectangle query_bg 0 0 110 20; ShowText query_fg 10 12 false 12 [42; 103; 111];
        Rectangle query_fg 28 4294967294 0 16];
     SurfaceFlush; ConfigureWindowSize 310 80; SurfaceSetSize 310 80;
     PaintDesc
       [Rectangle highlight_bg 112 0 310 80;
        ShowText highlight_fg 112 0 false 10 [32; 104; 105]];
     PaintRow 0 1 highlight_fg highlight_bg
       [Rectangle highlight_bg 0 22 110 40; ShowText highlight_fg 10 32 false 12 [97; 98];
        ShowText highlight_fg 60 32 false 12 [99; 100];
        ShowText highlight_fg 76 32 false 12 [32; 101; 102]];
     PaintRow 1 2 result_fg result_bg
       [Rectangle result_bg 0 42 110 60; ShowText result_fg 10 52 false 12 [32; 104; 105]];
     PaintRow 2 3 result_fg result_bg
       [Rectangle result_bg 0 62 110 80; ShowText result_fg 10 72 true 12 [103; 111]];
     SurfaceFlush; XcbFlush]
      = PaintQuery qops :: SurfaceFlush :: panel ++ rows ++ [SurfaceFlush; XcbFlush] /\
    panel_painted (Sample.backend false false) Sample.rows5 20 (Sample.scroll_state 3 0 0)
      Sample.results3 panel /\
    length rows = Z.to_nat display_results /\
    rows_in_order (global.result_offset (Sample.scroll_state 3 0 0)) rows /\
    rows_painted (Sample.backend false false) Sample.rows5 20 (Sample.scroll_state 3 0 0)
      Sample.results3 (global.result_offset (Sample.scroll_state 3 0 0)) rows.
Proof.
  destruct (repaint_order (Sample.backend false false) Sample.rows5 20
              (Sample.scroll_state 3 0 0) (Sample.scroll_state 3 0 0)
              Sample.results3 Sample.results3 Sample.text3 Sample.text3 2
              [PaintQuery
                 [Rectangle query_bg 0 0 110 20;
                  ShowText query_fg 10 12 false 12 [42; 103; 111];
                  Rectangle query_fg 28 4294967294 0 16];
               SurfaceFlush; ConfigureWindowSize 310 80; SurfaceSetSize 310 80;
               PaintDesc
                 [Rectangle highlight_bg 112 0 310 80;
                  ShowText highlight_fg 112 0 false 10 [32; 104; 105]];
               PaintRow 0 1 highlight_fg highlight_bg
                 [Rectangle highlight_bg 0 22 110 40;
                  ShowText highlight_fg 10 32 false 12 [97; 98];
                  ShowText highlight_fg 60 32 false 12 [99; 100];
                  ShowText highlight_fg 76 32 false 12 [32; 101; 102]];
               PaintRow 1 2 result_fg result_bg
                 [Rectangle result_bg 0 42 110 60;
                  ShowText result_fg 10 52 false 12 [32; 104; 105]];
               PaintRow 2 3 result_fg result_bg
                 [Rectangle result_bg 0 62 110 80;
                  ShowText result_fg 10 72 true 12 [103; 111]];
               SurfaceFlush; XcbFlush])
    as (n & qops & panel & rows & Hw & _ & He & Hp & _ & Hlen & Hord & Hpaint).
  - unfold global.scroll_in_range, U32.in_range, U32.modulus; cbn. lia.
  - vm_compute. reflexivity.
  - exists n, qops, panel, rows. repeat split; assumption.
Defined.
